(** * minsub: parameter normalisation and request assembly

    A shallow embedding of [minsub/param_util.py], [minsub/model.py],
    [minsub/pipeline_actions.py] and [minsub/pipeline_api.py], with the
    properties of the URI normaliser, the parameter-set builder, the action
    builder and the request assembler stated over it.

    Conventions of the embedding:
    - a Python [str] is a [list ascii]; [str "..."] turns a literal into one;
    - a value that may be [None] is an [option];
    - a raising function returns a [result]: [Raise e] or [Ok v];
    - a Python [set] is the list of its distinct members in insertion order,
      and iterating over it goes through a [hash_order] (the order in which a
      run of the interpreter walks the hash table);
    - a [dict] with string keys is a [gmap]. *)

From Stdlib Require Import Ascii String List Arith Lia DecimalString Permutation.
From stdpp Require Import gmap strings list fin_maps.

(** ** Python strings *)

Definition pystr : Type := list ascii.

Definition str (s : string) : pystr := list_ascii_of_string s.

Definition SEP : ascii := "/"%char.

Definition ascii_in (c : ascii) (chars : pystr) : bool :=
  existsb (Ascii.eqb c) chars.

Definition pystr_eqb (a b : pystr) : bool := bool_decide (a = b).

(** [s.startswith(p)] *)
Fixpoint startswith (s p : pystr) : bool :=
  match p, s with
  | [], _ => true
  | _ :: _, [] => false
  | c :: p', d :: s' => Ascii.eqb c d && startswith s' p'
  end.

(** [s.endswith(p)] *)
Definition endswith (s p : pystr) : bool := startswith (rev s) (rev p).

(** [sub in s] *)
Fixpoint contains (sub s : pystr) : bool :=
  startswith s sub ||
  match s with
  | [] => false
  | _ :: s' => contains sub s'
  end.

(** [s.lstrip(chars)] and [s.rstrip(chars)] *)
Fixpoint lstrip (chars s : pystr) : pystr :=
  match s with
  | [] => []
  | c :: s' => if ascii_in c chars then lstrip chars s' else s
  end.

Definition rstrip (chars s : pystr) : pystr := rev (lstrip chars (rev s)).

(** [s.replace(old, new, 1)] *)
Fixpoint replace_first (old new s : pystr) : pystr :=
  if startswith s old then new ++ drop (length old) s
  else match s with
       | [] => []
       | c :: s' => c :: replace_first old new s'
       end.

(** [s.rfind(c) + 1]: the index just after the last [c], [0] without one. *)
Fixpoint rfind1 (c : ascii) (s : pystr) : nat :=
  match s with
  | [] => 0
  | x :: s' =>
      match rfind1 c s' with
      | 0 => if Ascii.eqb x c then 1 else 0
      | S k => S (S k)
      end
  end.

(** [s.split(sep, 1)], as the part before the first [sep] and, when there is
    one, the part after it. *)
Fixpoint split1 (sep : ascii) (s : pystr) : pystr * option pystr :=
  match s with
  | [] => ([], None)
  | c :: s' =>
      if Ascii.eqb c sep then ([], Some s')
      else let '(a, b) := split1 sep s' in (c :: a, b)
  end.

(** [s.split(sep)] for a one-character separator. *)
Fixpoint split_all (sep : ascii) (s : pystr) : list pystr :=
  match s with
  | [] => [[]]
  | c :: s' =>
      if Ascii.eqb c sep then [] :: split_all sep s'
      else match split_all sep s' with
           | [] => [[c]]
           | w :: ws => (c :: w) :: ws
           end
  end.

(** [sep.join(parts)] *)
Fixpoint str_join (sep : pystr) (parts : list pystr) : pystr :=
  match parts with
  | [] => []
  | [p] => p
  | p :: ps => p ++ sep ++ str_join sep ps
  end.

(** [re.sub(pat, repl, s)] for a pattern that matches the literal text [old]
    (not empty): every occurrence, left to right, without overlap.  [skip]
    counts the characters of a match still to be passed over. *)
Fixpoint sub_literal_from (skip : nat) (old new s : pystr) : pystr :=
  match s with
  | [] => []
  | c :: s' =>
      match skip with
      | S k => sub_literal_from k old new s'
      | 0 =>
          if startswith s old
          then new ++ sub_literal_from (length old - 1) old new s'
          else c :: sub_literal_from 0 old new s'
      end
  end.

Definition sub_literal (old new s : pystr) : pystr :=
  sub_literal_from 0 old new s.

(** [re.sub('^' + old, new, s)]: the pattern is anchored at the start. *)
Definition sub_prefix (old new s : pystr) : pystr :=
  if startswith s old then new ++ drop (length old) s else s.

(** ['%s' % n] for a non-negative [int]. *)
Definition str_of_nat (n : nat) : pystr :=
  str (NilEmpty.string_of_uint (Nat.to_uint n)).

(** ['%s' % v] for a value that may be [None]. *)
Definition fmt_s (v : option pystr) : pystr :=
  match v with
  | Some s => s
  | None => str "None"
  end.

(** ** Exceptions *)

(** [ValueError template args] stands for [ValueError(template % args)]: the
    message is kept as the template and the values printed into it. *)
Inductive exn : Type :=
| ValueError (template : pystr) (args : list pystr)
| TypeError
| IndexError (msg : pystr).

Inductive result (A : Type) : Type :=
| Ok (v : A)
| Raise (e : exn).
Arguments Ok {A} v.
Arguments Raise {A} e.

Global Instance result_ret : MRet result := fun A v => Ok v.

Global Instance result_bind : MBind result := fun A B k r =>
  match r with
  | Ok v => k v
  | Raise e => Raise e
  end.

(** The user-facing validation failures are the [ValueError]s. *)
Definition is_validation_error (e : exn) : bool :=
  match e with
  | ValueError _ _ => true
  | _ => false
  end.

(** ** [os.path] (posixpath) *)

Module posixpath.

(** [if head and head != sep*len(head): head = head.rstrip(sep)] *)
Definition strip_head (head : pystr) : pystr :=
  if forallb (Ascii.eqb SEP) head then head else rstrip [SEP] head.

Definition split (p : pystr) : pystr * pystr :=
  let i := rfind1 SEP p in
  (strip_head (take i p), drop i p).

Definition dirname (p : pystr) : pystr := strip_head (take (rfind1 SEP p) p).

Definition basename (p : pystr) : pystr := drop (rfind1 SEP p) p.

Definition isabs (p : pystr) : bool := startswith p [SEP].

(** [os.path.join(a, b)] on two strings. *)
Definition join2 (a b : pystr) : pystr :=
  if startswith b [SEP] then b
  else if (pystr_eqb a [] || endswith a [SEP])%bool then a ++ b
  else a ++ [SEP] ++ b.

(** [os.path.join(a, b)] where either argument may be [None]: anything but
    a string raises [TypeError]. *)
Definition join (a b : option pystr) : result pystr :=
  match a, b with
  | Some a, Some b => Ok (join2 a b)
  | _, _ => Raise TypeError
  end.

(** The loop of [normpath] over the components. *)
Fixpoint norm_comps (initial_slashes : nat) (comps new_comps : list pystr)
  : list pystr :=
  match comps with
  | [] => new_comps
  | comp :: rest =>
      if (pystr_eqb comp [] || pystr_eqb comp (str "."))%bool
      then norm_comps initial_slashes rest new_comps
      else if (negb (pystr_eqb comp (str ".."))
               || ((initial_slashes =? 0) && bool_decide (new_comps = []))
               || match last new_comps with
                  | Some c => pystr_eqb c (str "..")
                  | None => false
                  end)%bool
      then norm_comps initial_slashes rest (new_comps ++ [comp])
      else norm_comps initial_slashes rest (removelast new_comps)
  end.

Definition normpath (path : pystr) : pystr :=
  if pystr_eqb path [] then str "."
  else
    let initial_slashes :=
      if startswith path [SEP] then
        if (startswith path [SEP; SEP] && negb (startswith path [SEP; SEP; SEP]))%bool
        then 2 else 1
      else 0 in
    let comps := norm_comps initial_slashes (split_all SEP path) [] in
    let path' := repeat SEP initial_slashes ++ str_join [SEP] comps in
    if pystr_eqb path' [] then str "." else path'.

(** [os.path.abspath(path)], with the working directory as an argument. *)
Definition abspath (cwd path : pystr) : pystr :=
  if isabs path then normpath path else normpath (join2 cwd path).

End posixpath.

(** ** model.py: constants and the resource configuration *)

Definition DATA_DISK_NAME : pystr := str "minsubdisk".
Definition DATA_DISK_MOUNT : pystr := str "/mnt/data".

Definition ONE_HOUR : pystr := str "3600s".
Definition TWO_HOURS : pystr := str "7200s".
Definition ONE_DAY : pystr := str "86400s".
Definition SEVEN_DAYS : pystr := str "604800s".

Definition DEFAULT_DISK_SIZE : Z := 200.
Definition DEFAULT_SCOPE : pystr :=
  str "https://www.googleapis.com/auth/cloud-platform".
Definition DEFAULT_MACHINE_TYPE : pystr := str "n1-standard-2".

Record ResourcesConfig : Type := {
  project : pystr;
  region : pystr;
  machine_type : pystr;
  disk_size : Z;
  service_account : option pystr;
  scopes : list pystr
}.

(** The [scopes] argument is a string or a list of strings. *)
Inductive scopes_arg : Type :=
| ScopeStr (s : pystr)
| ScopeList (l : list pystr).

(** [ResourcesConfig.__new__]; the defaults are [DEFAULT_MACHINE_TYPE],
    [DEFAULT_DISK_SIZE], [None] and [ScopeStr DEFAULT_SCOPE]. *)
Definition new_ResourcesConfig (project region machine_type : pystr)
    (disk_size : Z) (service_account : option pystr) (scopes : scopes_arg)
  : ResourcesConfig :=
  {| project := project;
     region := region;
     machine_type := machine_type;
     disk_size := disk_size;
     service_account := service_account;
     scopes := match scopes with
               | ScopeStr s => [s]
               | ScopeList l => l
               end |}.

(** ** param_util.py: the parameter model *)

Definition AUTO_PREFIX_INPUT : pystr := str "INPUT_".
Definition AUTO_PREFIX_OUTPUT : pystr := str "OUTPUT_".

Definition DEFAULT_INPUT_LOCAL_PATH : pystr := str "input".
Definition DEFAULT_OUTPUT_LOCAL_PATH : pystr := str "output".

Definition NL : ascii := ascii_of_nat 10.
Definition DQUOTE : ascii := ascii_of_nat 34.

Definition in_range (lo hi c : ascii) : bool :=
  (nat_of_ascii lo <=? nat_of_ascii c) && (nat_of_ascii c <=? nat_of_ascii hi).

(** The class [[a-zA-Z_]] *)
Definition is_name_start (c : ascii) : bool :=
  in_range "a" "z" c || in_range "A" "Z" c || Ascii.eqb c "_".

(** The class [[a-zA-Z0-9_]] *)
Definition is_name_char (c : ascii) : bool :=
  is_name_start c || in_range "0" "9" c.

Fixpoint skip_name_chars (s : pystr) : pystr :=
  match s with
  | [] => []
  | c :: s' => if is_name_char c then skip_name_chars s' else s
  end.

(** [re.match(r'^[a-zA-Z_][a-zA-Z0-9_]*$', name)]: in Python [$] matches at
    the end of the string and also just before a newline that ends it. *)
Definition name_re_match (name : pystr) : bool :=
  match name with
  | [] => false
  | c :: rest =>
      is_name_start c &&
      (let tail := skip_name_chars rest in
       pystr_eqb tail [] || pystr_eqb tail [NL])
  end.

Definition _validate_param_name (name param_type : pystr) : result unit :=
  if negb (name_re_match name)
  then Raise (ValueError (str "Invalid %s: %s") [param_type; name])
  else Ok tt.

(** [UriParts] is a [str] subclass: its string value is [path + basename]. *)
Record UriParts : Type := {
  uri_path : pystr;
  uri_basename : pystr
}.

Definition new_UriParts (path : pystr) (basename : option pystr) : UriParts :=
  {| uri_path := path; uri_basename := default [] basename |}.

Definition uri_str (u : UriParts) : pystr := uri_path u ++ uri_basename u.

Record EnvParam : Type := {
  env_name : pystr;
  env_value : option pystr
}.

(** [EnvParam.__new__]; a name that is not a string makes [re.match] raise
    [TypeError]. *)
Definition new_EnvParam (name value : option pystr) : result EnvParam :=
  match name with
  | None => Raise TypeError
  | Some name =>
      _validate_param_name name (str "Environment variable");;
      Ok {| env_name := name; env_value := value |}
  end.

Record FileParam : Type := {
  fp_name : pystr;
  fp_value : option pystr;
  fp_docker_path : option pystr;
  fp_uri : option UriParts;
  fp_recursive : bool
}.

(** Equality of named tuples is equality of their fields; a [UriParts] is
    compared as the string it is. *)
Global Instance EnvParam_eq_dec : EqDecision EnvParam.
Proof. solve_decision. Defined.

Definition EnvParam_eqb (a b : EnvParam) : bool := bool_decide (a = b).

Definition FileParam_eqb (a b : FileParam) : bool :=
  bool_decide (fp_name a = fp_name b)
  && bool_decide (fp_value a = fp_value b)
  && bool_decide (fp_docker_path a = fp_docker_path b)
  && bool_decide (uri_str <$> fp_uri a = uri_str <$> fp_uri b)
  && bool_decide (fp_recursive a = fp_recursive b).

(** ** Python sets *)

Definition pyset (A : Type) : Type := list A.

(** [s.add(x)] *)
Definition set_add {A} (eqb : A -> A -> bool) (x : A) (s : pyset A) : pyset A :=
  if existsb (eqb x) s then s else s ++ [x].

(** The order in which [for v in s] visits the members of a set depends on
    their hash values, which for strings change from one run of the
    interpreter to the next.  A [hash_order] is the order of one run. *)
Record hash_order : Type := {
  iter_env : pyset EnvParam -> list EnvParam;
  iter_file : pyset FileParam -> list FileParam;
  iter_env_perm : forall s, iter_env s ≡ₚ s;
  iter_file_perm : forall s, iter_file s ≡ₚ s
}.

Definition insertion_order : hash_order :=
  {| iter_env := fun s => s;
     iter_file := fun s => s;
     iter_env_perm := fun s => reflexivity s;
     iter_file_perm := fun s => reflexivity s |}.

Definition reverse_order : hash_order :=
  {| iter_env := @rev EnvParam;
     iter_file := @rev FileParam;
     iter_env_perm := fun s => Permutation_sym (Permutation_rev s);
     iter_file_perm := fun s => Permutation_sym (Permutation_rev s) |}.

(** ** param_util.py: the URI normaliser *)

(** [directory.rstrip('/') + '/'] *)
Definition directory_fmt (directory : pystr) : pystr :=
  rstrip [SEP] directory ++ [SEP].

Definition _validate_file_provider (uri : pystr) : result unit :=
  if startswith uri (str "gs://") then Ok tt
  else Raise (ValueError (str "Expected GCS location found: %s") [uri]).

Definition _validate_paths_or_fail (uri : pystr) (recursive : bool)
  : result unit :=
  let '(path, filename) := posixpath.split uri in
  if contains (str "[") uri || contains (str "]") uri then
    Raise (ValueError
      (str "Square bracket (character ranges) are not supported: %s") [uri])
  else if contains (str "?") uri then
    Raise (ValueError (str "Question mark wildcards are not supported: %s") [uri])
  else if contains (str "*") path then
    Raise (ValueError
      (str "Path wildcard (*) are only supported for files: %s") [uri])
  else if contains (str "**") filename then
    Raise (ValueError
      (str "Recursive wildcards (" ++ [DQUOTE] ++ str "**" ++ [DQUOTE]
       ++ str ") not supported: %s") [uri])
  else if pystr_eqb filename (str "..") || pystr_eqb filename (str ".") then
    Raise (ValueError
      (str "Path characters " ++ [DQUOTE] ++ str ".." ++ [DQUOTE] ++ str " and "
       ++ [DQUOTE] ++ str "." ++ [DQUOTE]
       ++ str " not supported for file names: %s") [uri])
  else if negb recursive && pystr_eqb filename [] then
    Raise (ValueError
      (str "Input or output values that are not recursive must reference a filename or wildcard: %s")
      [uri])
  else Ok tt.

(** Returns the normalised URI and the docker path. *)
Definition _gcs_uri_rewriter (raw_uri : pystr) : pystr * pystr :=
  let docker_path := replace_first (str "gs://") (str "gs/") raw_uri in
  (raw_uri, docker_path).

(** [FileParamUtil.parse_uri]: the docker path and the [UriParts]. *)
Definition parse_uri (raw_uri : pystr) (recursive : bool)
  : result (pystr * UriParts) :=
  let raw_uri := if recursive then directory_fmt raw_uri else raw_uri in
  _validate_file_provider raw_uri;;
  _validate_paths_or_fail raw_uri recursive;;
  let '(uri, docker_uri) := _gcs_uri_rewriter raw_uri in
  let uri_parts :=
    new_UriParts (directory_fmt (posixpath.dirname uri))
                 (Some (posixpath.basename uri)) in
  Ok (docker_uri, uri_parts).

(** The URI that [parse_uri] validates and rewrites. *)
Definition coerced (raw_uri : pystr) (recursive : bool) : pystr :=
  if recursive then directory_fmt raw_uri else raw_uri.

(** The loop over [prefix_replacements] in [_local_uri_rewriter]; a
    replacement is [None] when it is [os.getenv('HOME')] of an unset
    variable. *)
Fixpoint replace_prefixes (reps : list (pystr * option pystr))
    (normed_path : pystr) : result pystr :=
  match reps with
  | [] => Ok normed_path
  | (prefix, replacement) :: reps' =>
      if startswith normed_path prefix then
        p ← posixpath.join replacement (Some (drop (length prefix) normed_path));
        replace_prefixes reps' p
      else replace_prefixes reps' normed_path
  end.

(** [_local_uri_rewriter], with the value of [HOME] and the working
    directory as arguments.  Returns the normalised URI and the docker
    path. *)
Definition _local_uri_rewriter (home : option pystr) (cwd : pystr)
    (raw_uri : pystr) : result (pystr * pystr) :=
  let '(raw_path, filename) := posixpath.split raw_uri in
  let prefix_replacements :=
    [(str "file:///", Some (str "/")); (str "~/", home);
     (str "./", Some []); (str "file:/", Some (str "/"))] in
  normed_path ← replace_prefixes prefix_replacements raw_path;
  let normed_uri := directory_fmt (posixpath.abspath cwd normed_path) in
  let normed_uri := posixpath.join2 normed_uri filename in
  let docker_path := posixpath.normpath raw_path in
  let docker_path := sub_literal (str "/..") (str "/_dotdot_") docker_path in
  let docker_path := sub_prefix (str "..") (str "_dotdot_") docker_path in
  let docker_path := sub_prefix (str "~/") (str "_home_/") docker_path in
  let docker_path := sub_prefix (str "file:/") [] docker_path in
  let docker_path := lstrip (str "./") docker_path in
  let docker_path := directory_fmt (str "file/" ++ docker_path) ++ filename in
  Ok (normed_uri, docker_path).

(** ** param_util.py: the parameter-set builder *)

Inductive param_class_t : Type := FileParamClass | InputClass | OutputClass.

Record FileParamUtil : Type := {
  param_class : param_class_t;
  _auto_prefix : pystr;
  _auto_index : nat;
  _relative_path : pystr
}.

Definition InputFileParamUtil (docker_path : pystr) : FileParamUtil :=
  {| param_class := InputClass; _auto_prefix := AUTO_PREFIX_INPUT;
     _auto_index := 0; _relative_path := docker_path |}.

Definition OutputFileParamUtil (docker_path : pystr) : FileParamUtil :=
  {| param_class := OutputClass; _auto_prefix := AUTO_PREFIX_OUTPUT;
     _auto_index := 0; _relative_path := docker_path |}.

(** [get_variable_name]: the name and the builder after the call. *)
Definition get_variable_name (self : FileParamUtil) (name : option pystr)
  : pystr * FileParamUtil :=
  match name with
  | Some (c :: name') => (c :: name', self)
  | _ =>
      (_auto_prefix self ++ str_of_nat (_auto_index self),
       {| param_class := param_class self;
          _auto_prefix := _auto_prefix self;
          _auto_index := _auto_index self + 1;
          _relative_path := _relative_path self |})
  end.

(** [self.param_class(name, value, docker_path, uri, recursive)] *)
Definition call_param_class (self : FileParamUtil) (name : pystr)
    (value docker_path : option pystr) (uri : option UriParts)
    (recursive : bool) : result FileParam :=
  match param_class self with
  | FileParamClass => Ok tt
  | InputClass => _validate_param_name name (str "Input parameter")
  | OutputClass => _validate_param_name name (str "Output parameter")
  end;;
  Ok {| fp_name := name; fp_value := value; fp_docker_path := docker_path;
        fp_uri := uri; fp_recursive := recursive |}.

Definition make_param (self : FileParamUtil) (name : pystr)
    (raw_uri : option pystr) (recursive : bool) : result FileParam :=
  match raw_uri with
  | Some (c :: u) =>
      '(docker_path, uri_parts) ← parse_uri (c :: u) recursive;
      call_param_class self name (Some (c :: u)) (Some docker_path)
                       (Some uri_parts) recursive
  | _ => call_param_class self name None None None recursive
  end.

(** [split_pair]: the two members of the returned list. *)
Definition split_pair (pair_string : pystr) (separator : ascii)
    (nullable_idx : Z) : result (option pystr * option pystr) :=
  match split1 separator pair_string with
  | (a, None) =>
      if (nullable_idx =? 0)%Z then Ok (None, Some a)
      else if (nullable_idx =? 1)%Z then Ok (Some a, None)
      else Raise (IndexError (str "nullable_idx should be either 0 or 1."))
  | (a, Some b) => Ok (Some a, Some b)
  end.

(** A [for] loop whose body may raise. *)
Fixpoint for_each {A S} (body : S -> A -> result S) (l : list A) (s : S)
  : result S :=
  match l with
  | [] => Ok s
  | a :: l' => s' ← body s a; for_each body l' s'
  end.

(** [parse_pair_args(labels, EnvParam)] *)
Definition parse_pair_args (labels : list pystr) : result (pyset EnvParam) :=
  for_each (fun label_data arg =>
              '(name, value) ← split_pair arg "=" 1;
              p ← new_EnvParam name value;
              Ok (set_add EnvParam_eqb p label_data))
           labels [].

(** The body of the two loops over the file arguments in
    [args_to_job_params]: the state is the builder and the [sink]. *)
Definition add_file_arg (r : bool) (st : FileParamUtil * pyset FileParam)
    (arg : pystr) : result (FileParamUtil * pyset FileParam) :=
  let '(util, sink) := st in
  '(name, value) ← split_pair arg "=" 0;
  let '(name, util) := get_variable_name util name in
  p ← make_param util name value r;
  Ok (util, set_add FileParam_eqb p sink).

(** ** model.py: the job parameters *)

(** What the loops over [job_config.values()] see: an object with a [name],
    with or without a [docker_path] attribute. *)
Inductive Param : Type :=
| PEnv (e : EnvParam)
| PFile (f : FileParam).

Definition param_name (v : Param) : pystr :=
  match v with
  | PEnv e => env_name e
  | PFile f => fp_name f
  end.

Inductive container : Type :=
| EnvSet (s : pyset EnvParam)
| FileSet (s : pyset FileParam).

(** [for v in vset] *)
Definition iterate (h : hash_order) (vset : container) : list Param :=
  match vset with
  | EnvSet s => PEnv <$> iter_env h s
  | FileSet s => PFile <$> iter_file h s
  end.

Record JobParams : Type := {
  envs : pyset EnvParam;
  inputs : pyset FileParam;
  recursive_inputs : pyset FileParam;
  outputs : pyset FileParam;
  recursive_outputs : pyset FileParam
}.

(** The body of the inner loop of [_check_for_collisions], on the pair
    [(known_names, duplicates)]. *)
Definition note_name (st : gset pystr * list pystr) (v : Param)
  : gset pystr * list pystr :=
  let '(known_names, duplicates) := st in
  if decide (param_name v ∉ known_names)
  then ({[param_name v]} ∪ known_names, duplicates)
  else (known_names, duplicates ++ [param_name v]).

Definition collect_duplicates (h : hash_order) (allinputs : list container)
  : gset pystr * list pystr :=
  foldl (fun st vset => foldl note_name st (iterate h vset)) (∅, []) allinputs.

Definition _check_for_collisions (h : hash_order) (allinputs : list container)
  : result unit :=
  let '(_, duplicates) := collect_duplicates h allinputs in
  match duplicates with
  | [] => Ok tt
  | _ :: _ =>
      Raise (ValueError (str "Bad job config; duplicate names found: %r")
                        duplicates)
  end.

(** [JobParams.__init__] *)
Definition new_JobParams (h : hash_order) (envs : pyset EnvParam)
    (inputs r_inputs outputs r_outputs : pyset FileParam) : result JobParams :=
  _check_for_collisions h
    [EnvSet envs; FileSet inputs; FileSet r_inputs; FileSet outputs;
     FileSet r_outputs];;
  Ok {| envs := envs; inputs := inputs; recursive_inputs := r_inputs;
        outputs := outputs; recursive_outputs := r_outputs |}.

(** [JobParams.values] *)
Definition values (self : JobParams) : list container :=
  [EnvSet (envs self); FileSet (inputs self); FileSet (recursive_inputs self);
   FileSet (outputs self); FileSet (recursive_outputs self)].

Definition args_to_job_params (h : hash_order)
    (envs inputs inputs_recur outputs outputs_recur : list pystr)
  : result JobParams :=
  let input_file_param_util := InputFileParamUtil DEFAULT_INPUT_LOCAL_PATH in
  let output_file_param_util := OutputFileParamUtil DEFAULT_OUTPUT_LOCAL_PATH in
  env_data ← parse_pair_args envs;
  '(input_file_param_util, input_data) ←
    for_each (add_file_arg false) inputs (input_file_param_util, []);
  '(input_file_param_util, r_input_data) ←
    for_each (add_file_arg true) inputs_recur (input_file_param_util, []);
  '(output_file_param_util, output_data) ←
    for_each (add_file_arg false) outputs (output_file_param_util, []);
  '(output_file_param_util, r_output_data) ←
    for_each (add_file_arg true) outputs_recur (output_file_param_util, []);
  new_JobParams h env_data input_data r_input_data output_data r_output_data.

(** ** pipeline_actions.py *)

Definition DEBIAN_IMAGE : pystr := str "debian:stable-slim".
Definition CLOUD_SDK_IMAGE : pystr := str "google/cloud-sdk:slim".

(** The three lines every generated script starts with. *)
Definition BASH_PREAMBLE : pystr :=
  str "set -o errexit" ++ [NL] ++ str "set -o nounset" ++ [NL]
  ++ str "set -o pipefail" ++ [NL].

(** [GENERIC_BASH_SCRIPT_CMD % script] *)
Definition GENERIC_BASH_SCRIPT_CMD (script : pystr) : pystr :=
  BASH_PREAMBLE ++ [NL] ++ script ++ [NL].

Inductive Action : Type :=
| LocalizeAction (jconfig : JobParams)
| DelocalizeAction (jconfig : JobParams)
| UserAction (jconfig : JobParams) (action_name docker_image : pystr)
             (command : list pystr).

Definition action_name_of (a : Action) : pystr :=
  match a with
  | LocalizeAction _ => str "localize"
  | DelocalizeAction _ => str "delocalize"
  | UserAction _ action_name _ _ => action_name
  end.

Definition action_image (a : Action) : pystr :=
  match a with
  | LocalizeAction _ | DelocalizeAction _ => CLOUD_SDK_IMAGE
  | UserAction _ _ docker_image _ => docker_image
  end.

(** ['gsutil -mq <verb> "%s" "%s"' % (src, dst)] *)
Definition gsutil_cmd (verb : pystr) (src dst : option pystr) : pystr :=
  str "gsutil -mq " ++ verb ++ str " " ++ [DQUOTE] ++ fmt_s src ++ [DQUOTE]
  ++ str " " ++ [DQUOTE] ++ fmt_s dst ++ [DQUOTE].

(** One pass of a loop of [LocalizeAction.make_commands]. *)
Definition localize_cmd (verb : pystr) (copy_commands : list pystr)
    (ninput : FileParam) : result (list pystr) :=
  dst ← posixpath.join (Some DATA_DISK_MOUNT) (fp_docker_path ninput);
  let src := fp_value ninput in
  Ok (copy_commands ++ [gsutil_cmd verb src (Some dst)]).

(** One pass of a loop of [DelocalizeAction.make_commands]. *)
Definition delocalize_cmd (verb : pystr) (copy_commands : list pystr)
    (nout : FileParam) : result (list pystr) :=
  src ← posixpath.join (Some DATA_DISK_MOUNT) (fp_docker_path nout);
  let dst := fp_value nout in
  Ok (copy_commands ++ [gsutil_cmd verb (Some src) dst]).

Definition script_commands (copy_commands : list pystr) : list pystr :=
  [str "-c"; GENERIC_BASH_SCRIPT_CMD (str_join [NL] copy_commands)].

Definition make_commands (h : hash_order) (a : Action) : result (list pystr) :=
  match a with
  | LocalizeAction config =>
      copy_commands ←
        for_each (localize_cmd (str "cp")) (iter_file h (inputs config)) [];
      copy_commands ←
        for_each (localize_cmd (str "rsync -r"))
                 (iter_file h (recursive_inputs config)) copy_commands;
      Ok (script_commands copy_commands)
  | DelocalizeAction config =>
      copy_commands ←
        for_each (delocalize_cmd (str "cp")) (iter_file h (outputs config)) [];
      copy_commands ←
        for_each (delocalize_cmd (str "rsync -r"))
                 (iter_file h (recursive_outputs config)) copy_commands;
      Ok (script_commands copy_commands)
  | UserAction _ _ _ command => Ok command
  end.

Record Mount : Type := {
  mount_disk : pystr;
  mount_path : pystr;
  mount_readOnly : bool
}.

Record ActionDict : Type := {
  act_name : pystr;
  act_imageUri : pystr;
  act_commands : list pystr;
  act_environment : gmap pystr pystr;
  act_flags : list pystr;
  act_mounts : list Mount;
  act_timeout : pystr;
  act_entrypoint : option pystr
}.

(** [GenericAction.to_dict]; [entrypoint_override] is ['/bin/bash'] in
    every action. *)
Definition to_dict (h : hash_order) (a : Action) : result ActionDict :=
  let envs : gmap pystr pystr := ∅ in
  cmds ← make_commands h a;
  Ok {| act_name := action_name_of a;
        act_imageUri := action_image a;
        act_commands := cmds;
        act_environment := envs;
        act_flags := [];
        act_mounts := [ {| mount_disk := DATA_DISK_NAME;
                           mount_path := DATA_DISK_MOUNT;
                           mount_readOnly := false |} ];
        act_timeout := ONE_DAY;
        act_entrypoint := Some (str "/bin/bash") |}.

(** ** pipeline_api.py *)

Record Disk : Type := { disk_name : pystr; disk_sizeGb : Z }.

Record ServiceAccount : Type := {
  sa_scopes : list pystr;
  sa_email : option pystr
}.

Record VirtualMachine : Type := {
  vm_machineType : pystr;
  vm_preemptible : bool;
  vm_disks : list Disk;
  vm_serviceAccount : ServiceAccount
}.

Record Resources : Type := {
  res_projectId : pystr;
  res_regions : list pystr;
  res_virtualMachine : VirtualMachine
}.

Definition _create_resources (rconfig : ResourcesConfig) : Resources :=
  let vm :=
    {| vm_machineType := machine_type rconfig;
       vm_preemptible := false;
       vm_disks := [ {| disk_name := DATA_DISK_NAME;
                        disk_sizeGb := disk_size rconfig |} ];
       vm_serviceAccount :=
         {| sa_scopes := scopes rconfig;
            sa_email := match service_account rconfig with
                        | Some (c :: s) => Some (c :: s)
                        | _ => None
                        end |} |} in
  {| res_projectId := project rconfig;
     res_regions := [region rconfig];
     res_virtualMachine := vm |}.

Record Pipeline : Type := {
  pl_actions : list ActionDict;
  pl_resources : Resources;
  pl_environment : gmap pystr (option pystr);
  pl_timeout : pystr
}.

Record RequestDocument : Type := {
  pipeline : Pipeline;
  labels : gmap pystr pystr
}.

(** The body of the inner loop of [create_pipeline_request]:
    [hasattr(v, 'docker_path')] holds of the file parameters. *)
Definition bind_env (envs : gmap pystr (option pystr)) (v : Param)
  : result (gmap pystr (option pystr)) :=
  match v with
  | PFile f =>
      p ← posixpath.join (Some DATA_DISK_MOUNT) (fp_docker_path f);
      Ok (<[fp_name f := Some p]> envs)
  | PEnv e => Ok (<[env_name e := env_value e]> envs)
  end.

Definition merge_envs (h : hash_order) (job_config : JobParams)
  : result (gmap pystr (option pystr)) :=
  for_each (fun envs vset => for_each bind_env (iterate h vset) envs)
           (values job_config) ∅.

(** [[a.to_dict() for a in actions]] *)
Fixpoint actions_to_dicts (h : hash_order) (actions : list Action)
  : result (list ActionDict) :=
  match actions with
  | [] => Ok []
  | a :: rest =>
      d ← to_dict h a;
      ds ← actions_to_dicts h rest;
      Ok (d :: ds)
  end.

Definition create_pipeline_request (h : hash_order)
    (resources_config : ResourcesConfig) (job_config : JobParams)
    (actions : list Action) (timeout : pystr) : result RequestDocument :=
  envs ← merge_envs h job_config;
  acts ← actions_to_dicts h actions;
  Ok {| pipeline := {| pl_actions := acts;
                       pl_resources := _create_resources resources_config;
                       pl_environment := envs;
                       pl_timeout := timeout |};
        labels := {[ str "minsub" := str "v1" ]} |}.

(** The chain of [test_manual.main], with its literals as arguments: build
    the job parameters, wrap the user steps between stage-in and stage-out,
    assemble the request. *)
Definition user_actions (job : JobParams)
    (steps : list (pystr * pystr * list pystr)) : list Action :=
  (fun '(action_name, docker_image, command) =>
     UserAction job action_name docker_image command) <$> steps.

Definition run_pipeline (h : hash_order)
    (envs inputs inputs_recur outputs outputs_recur : list pystr)
    (res : ResourcesConfig) (steps : list (pystr * pystr * list pystr))
    (timeout : pystr) : result RequestDocument :=
  job ← args_to_job_params h envs inputs inputs_recur outputs outputs_recur;
  let actions :=
    [LocalizeAction job] ++ user_actions job steps ++ [DelocalizeAction job] in
  create_pipeline_request h res job actions timeout.

(** ** Notions used in the statements *)

(** The file parameters of a job. *)
Definition job_files (job : JobParams) : list FileParam :=
  inputs job ++ recursive_inputs job ++ outputs job ++ recursive_outputs job.

(** The members of the five collections, in the order of the collections. *)
Definition job_members (job : JobParams) : list Param :=
  (PEnv <$> envs job) ++ (PFile <$> job_files job).

(** The parameters in the order in which the loops over
    [job_config.values()] visit them in a run. *)
Definition visit_order (h : hash_order) (allinputs : list container)
  : list Param :=
  concat (iterate h <$> allinputs).

(** The five loops of [args_to_job_params], up to the call of
    [JobParams]. *)
Definition parse_args (envs inputs inputs_recur outputs outputs_recur : list pystr)
  : result (pyset EnvParam * pyset FileParam * pyset FileParam
            * pyset FileParam * pyset FileParam) :=
  env_data ← parse_pair_args envs;
  '(input_util, input_data) ←
    for_each (add_file_arg false) inputs
             (InputFileParamUtil DEFAULT_INPUT_LOCAL_PATH, []);
  '(input_util, r_input_data) ←
    for_each (add_file_arg true) inputs_recur (input_util, []);
  '(output_util, output_data) ←
    for_each (add_file_arg false) outputs
             (OutputFileParamUtil DEFAULT_OUTPUT_LOCAL_PATH, []);
  '(output_util, r_output_data) ←
    for_each (add_file_arg true) outputs_recur (output_util, []);
  Ok (env_data, input_data, r_input_data, output_data, r_output_data).

(** The value a file parameter keeps of its raw value: [None] for an empty
    one. *)
Definition kept_value (raw_uri : option pystr) : option pystr :=
  match raw_uri with
  | Some (c :: u) => Some (c :: u)
  | _ => None
  end.

(** What [create_pipeline_request] binds a parameter's name to. *)
Definition binding (v : Param) : pystr * option pystr :=
  match v with
  | PEnv e => (env_name e, env_value e)
  | PFile f =>
      (fp_name f,
       Some (posixpath.join2 DATA_DISK_MOUNT (default [] (fp_docker_path f))))
  end.

(** The environment map after the loop of [create_pipeline_request] has
    bound the parameters [l], starting from [envs]. *)
Definition bound_envs (l : list Param) (envs : gmap pystr (option pystr))
  : gmap pystr (option pystr) :=
  foldl (fun envs v => <[(binding v).1 := (binding v).2]> envs) envs l.

(** At least two of the parameters [ps] have the name [n]. *)
Definition shared_name (n : pystr) (ps : list Param) : Prop :=
  2 <= length (filter (fun v => param_name v = n) ps).

(** The copy command of the stage-in action for one parameter, and that of
    the stage-out action. *)
Definition localize_line (verb : pystr) (f : FileParam) : pystr :=
  gsutil_cmd verb (fp_value f)
    (Some (posixpath.join2 DATA_DISK_MOUNT (default [] (fp_docker_path f)))).

Definition delocalize_line (verb : pystr) (f : FileParam) : pystr :=
  gsutil_cmd verb
    (Some (posixpath.join2 DATA_DISK_MOUNT (default [] (fp_docker_path f))))
    (fp_value f).

(** Two actions that differ at most in the order of the copy commands of
    their script. *)
Definition same_action_up_to_copy_order (a1 a2 : ActionDict) : Prop :=
  act_name a1 = act_name a2 /\
  act_imageUri a1 = act_imageUri a2 /\
  act_environment a1 = act_environment a2 /\
  act_flags a1 = act_flags a2 /\
  act_mounts a1 = act_mounts a2 /\
  act_timeout a1 = act_timeout a2 /\
  act_entrypoint a1 = act_entrypoint a2 /\
  (act_commands a1 = act_commands a2 \/
   exists c1 c2,
     act_commands a1 = script_commands c1 /\
     act_commands a2 = script_commands c2 /\ c1 ≡ₚ c2).

(** Two request documents that differ at most in the order of the copy
    commands inside their actions. *)
Definition same_document_up_to_copy_order (d1 d2 : RequestDocument) : Prop :=
  labels d1 = labels d2 /\
  pl_resources (pipeline d1) = pl_resources (pipeline d2) /\
  pl_environment (pipeline d1) = pl_environment (pipeline d2) /\
  pl_timeout (pipeline d1) = pl_timeout (pipeline d2) /\
  Forall2 same_action_up_to_copy_order
          (pl_actions (pipeline d1)) (pl_actions (pipeline d2)).

(** The commands of the [k]-th action of a request, when there is one. *)
Definition commands_of_action (r : result RequestDocument) (k : nat)
  : option (list pystr) :=
  match r with
  | Ok d => act_commands <$> (pl_actions (pipeline d) !! k)
  | Raise _ => None
  end.

(** The body of the loop of [parse_pair_args]. *)
Definition env_step (label_data : pyset EnvParam) (arg : pystr)
  : result (pyset EnvParam) :=
  '(name, value) ← split_pair arg "=" 1;
  p ← new_EnvParam name value;
  Ok (set_add EnvParam_eqb p label_data).

(** The environment parameter that a [key] or [key=value] label stands
    for. *)
Definition env_of_label (arg : pystr) : EnvParam :=
  {| env_name := (split1 "=" arg).1; env_value := (split1 "=" arg).2 |}.

(** A file argument without a name part: no [=], or nothing before it. *)
Definition has_no_name (arg : pystr) : bool :=
  match split1 "=" arg with
  | (_, None) => true
  | ([], Some _) => true
  | (_ :: _, Some _) => false
  end.

(** A file parameter as [make_param] builds them: without a value it has
    neither mount path nor URI, with one it has those that [parse_uri]
    returns for the value. *)
Definition well_formed_file_param (f : FileParam) : Prop :=
  match fp_value f with
  | None => fp_docker_path f = None /\ fp_uri f = None
  | Some raw_uri =>
      raw_uri ≠ [] /\
      exists d u,
        parse_uri raw_uri (fp_recursive f) = Ok (d, u) /\
        fp_docker_path f = Some d /\ fp_uri f = Some u
  end.

(** The job parameters an action was built with. *)
Definition action_config (a : Action) : JobParams :=
  match a with
  | LocalizeAction jconfig | DelocalizeAction jconfig
  | UserAction jconfig _ _ _ => jconfig
  end.

(** A file parameter that has a mount path. *)
Definition has_mount_path (f : FileParam) : Prop :=
  is_Some (fp_docker_path f).

(** * Properties *)

(** ** Strings *)

Example split_file :
  posixpath.split (str "gs://bucket/folder/file.txt")
  = (str "gs://bucket/folder", str "file.txt").
Proof. reflexivity. Qed.

Example split_root : posixpath.split (str "//x") = (str "//", str "x").
Proof. reflexivity. Qed.

Example normpath_dotdot :
  posixpath.normpath (str "/tmp/a_path/../B_PATH/./x") = str "/tmp/B_PATH/x".
Proof. reflexivity. Qed.

Example normpath_rel : posixpath.normpath (str "./../upper_dir") = str "../upper_dir".
Proof. reflexivity. Qed.

Example str_of_nat_12 : str_of_nat 12 = str "12".
Proof. reflexivity. Qed.

Lemma ascii_eqb_true (a b : ascii) : Ascii.eqb a b = true <-> a = b.
Proof. apply Ascii.eqb_eq. Qed.

Lemma pystr_eqb_false (a b : pystr) : pystr_eqb a b = false <-> a ≠ b.
Proof. unfold pystr_eqb. apply bool_decide_eq_false. Qed.

Lemma startswith_app (p s : pystr) : startswith (p ++ s) p = true.
Proof.
  induction p as [|c p IH]; simpl; [by destruct s|].
  rewrite Ascii.eqb_refl. exact IH.
Qed.

Lemma startswith_inv (s p : pystr) :
  startswith s p = true -> s = p ++ drop (length p) s.
Proof.
  revert s. induction p as [|c p IH]; intros s H; simpl in *; [done|].
  destruct s as [|d s]; [done|].
  apply andb_true_iff in H as [Hc Hs]. apply ascii_eqb_true in Hc. subst d.
  simpl. f_equal. by apply IH.
Qed.

Lemma replace_first_unfold (old new s : pystr) :
  replace_first old new s =
  if startswith s old then new ++ drop (length old) s
  else match s with
       | [] => []
       | c :: s' => c :: replace_first old new s'
       end.
Proof. destruct s; reflexivity. Qed.

Lemma replace_first_prefix (old new s : pystr) :
  startswith s old = true ->
  replace_first old new s = new ++ drop (length old) s.
Proof. intros H. rewrite replace_first_unfold. by rewrite H. Qed.

Lemma lstrip_idemp (chars s : pystr) :
  lstrip chars (lstrip chars s) = lstrip chars s.
Proof.
  induction s as [|c s IH]; simpl; [done|].
  destruct (ascii_in c chars) eqn:E; [done|]. simpl. by rewrite E.
Qed.

Lemma lstrip_suffix (chars s : pystr) : exists t, s = t ++ lstrip chars s.
Proof.
  induction s as [|c s [t IH]]; simpl; [by exists []|].
  destruct (ascii_in c chars).
  - exists (c :: t). simpl. by f_equal.
  - by exists [].
Qed.

Lemma lstrip_keep (chars l : pystr) (c : ascii) (t : pystr) :
  ascii_in c chars = false ->
  lstrip chars (l ++ c :: t) = lstrip chars l ++ c :: t.
Proof.
  intros Hc. induction l as [|x l IH]; simpl.
  - by rewrite Hc.
  - destruct (ascii_in x chars); [exact IH | done].
Qed.

Lemma rstrip_idemp (chars s : pystr) :
  rstrip chars (rstrip chars s) = rstrip chars s.
Proof. unfold rstrip. by rewrite rev_involutive, lstrip_idemp. Qed.

Lemma rstrip_prefix (chars s : pystr) : exists t, s = rstrip chars s ++ t.
Proof.
  unfold rstrip. destruct (lstrip_suffix chars (rev s)) as [t Ht].
  exists (rev t). rewrite <- rev_app_distr, <- Ht. by rewrite rev_involutive.
Qed.

Lemma rstrip_snoc (c : ascii) (s : pystr) :
  rstrip [c] (s ++ [c]) = rstrip [c] s.
Proof.
  unfold rstrip. rewrite rev_app_distr. simpl.
  unfold ascii_in. simpl. by rewrite Ascii.eqb_refl.
Qed.

Lemma rstrip_keep (chars a : pystr) (c : ascii) (b : pystr) :
  ascii_in c chars = false ->
  rstrip chars (a ++ c :: b) = a ++ c :: rstrip chars b.
Proof.
  intros Hc. unfold rstrip.
  rewrite rev_app_distr. simpl. rewrite <- app_assoc. simpl.
  rewrite lstrip_keep by done.
  rewrite rev_app_distr. simpl. rewrite rev_involutive.
  by rewrite <- app_assoc.
Qed.

Lemma rfind1_app (c : ascii) (a b : pystr) :
  rfind1 c (a ++ b) =
  match rfind1 c b with
  | 0 => rfind1 c a
  | S k => length a + S k
  end.
Proof.
  induction a as [|x a IH]; simpl.
  - by destruct (rfind1 c b).
  - rewrite IH. destruct (rfind1 c b) as [|k]; [done|].
    by replace (length a + S k) with (S (length a + k)) by lia.
Qed.

Lemma rfind1_snoc (c : ascii) (s : pystr) :
  rfind1 c (s ++ [c]) = length s + 1.
Proof. rewrite rfind1_app. simpl. by rewrite Ascii.eqb_refl. Qed.

(** The last segment of a path does not see what stands before a prefix
    that ends in a slash. *)
Lemma basename_after_slash (a b : pystr) :
  rfind1 SEP a = length a ->
  posixpath.basename (a ++ b) = posixpath.basename b.
Proof.
  intros Ha. unfold posixpath.basename. rewrite rfind1_app.
  destruct (rfind1 SEP b) as [|k] eqn:E.
  - rewrite Ha. by rewrite drop_app_length.
  - rewrite drop_app_add'; [done | lia].
Qed.

Lemma lstrip_head (chars s : pystr) (c : ascii) (t : pystr) :
  lstrip chars s = c :: t -> ascii_in c chars = false.
Proof.
  induction s as [|x s IH]; simpl; [done|].
  destruct (ascii_in x chars) eqn:E; [done|]. by intros [= <- _].
Qed.

Lemma split_all_cons (sep c : ascii) (s : pystr) :
  split_all sep (c :: s) =
  if Ascii.eqb c sep then [] :: split_all sep s
  else match split_all sep s with
       | [] => [[c]]
       | w :: ws => (c :: w) :: ws
       end.
Proof. reflexivity. Qed.

Lemma startswith_nil (s : pystr) : startswith s [] = true.
Proof. by destruct s. Qed.

Lemma endswith_snoc (s : pystr) (c : ascii) : endswith (s ++ [c]) [c] = true.
Proof.
  unfold endswith. rewrite rev_app_distr. simpl.
  by rewrite Ascii.eqb_refl, startswith_nil.
Qed.

Lemma directory_fmt_idemp (s : pystr) :
  directory_fmt (directory_fmt s) = directory_fmt s.
Proof.
  unfold directory_fmt. by rewrite rstrip_snoc, rstrip_idemp.
Qed.

(** ** The URI normaliser *)

Lemma parse_uri_unfold (raw_uri : pystr) (recursive : bool) :
  parse_uri raw_uri recursive =
  let x := coerced raw_uri recursive in
  _validate_file_provider x;;
  _validate_paths_or_fail x recursive;;
  Ok (replace_first (str "gs://") (str "gs/") x,
      new_UriParts (directory_fmt (posixpath.dirname x))
                   (Some (posixpath.basename x))).
Proof. reflexivity. Qed.

Lemma validate_provider_ok (uri : pystr) :
  _validate_file_provider uri = Ok tt <-> startswith uri (str "gs://") = true.
Proof.
  unfold _validate_file_provider.
  destruct (startswith uri (str "gs://")); split; congruence.
Qed.

Lemma validate_paths_ok (uri : pystr) (recursive : bool) :
  _validate_paths_or_fail uri recursive = Ok tt ->
  posixpath.basename uri ≠ str ".." /\ posixpath.basename uri ≠ str "." /\
  (recursive = false -> posixpath.basename uri ≠ []).
Proof.
  unfold _validate_paths_or_fail, posixpath.split.
  fold (posixpath.basename uri).
  repeat match goal with
         | |- context [if ?b then Raise _ else _] => destruct b eqn:?; [done|]
         end.
  intros _.
  match goal with H : (_ || _) = false |- _ => apply orb_false_iff in H as [H1 H2] end.
  apply pystr_eqb_false in H1, H2. split_and!; [done..|].
  intros ->. simpl in *.
  match goal with H : pystr_eqb _ [] = false |- _ => by apply pystr_eqb_false in H end.
Qed.

Lemma parse_uri_ok (raw_uri : pystr) (recursive : bool) (d : pystr)
    (u : UriParts) :
  parse_uri raw_uri recursive = Ok (d, u) ->
  let x := coerced raw_uri recursive in
  startswith x (str "gs://") = true /\
  _validate_paths_or_fail x recursive = Ok tt /\
  d = str "gs/" ++ drop 5 x /\
  u = new_UriParts (directory_fmt (posixpath.dirname x))
                   (Some (posixpath.basename x)).
Proof.
  rewrite parse_uri_unfold. cbv zeta.
  set (x := coerced raw_uri recursive).
  destruct (_validate_file_provider x) as [[]|e] eqn:Hp; [|done].
  apply validate_provider_ok in Hp.
  destruct (_validate_paths_or_fail x recursive) as [[]|e] eqn:Hv; [|done].
  simpl. intros [= <- <-]. split_and!; try done.
  by rewrite replace_first_prefix.
Qed.

(** The provider check comes first: whatever else is wrong with the URI, an
    unsupported provider is what gets reported. *)
Lemma parse_uri_provider_first (raw_uri : pystr) (recursive : bool) :
  startswith (coerced raw_uri recursive) (str "gs://") = false ->
  parse_uri raw_uri recursive =
  Raise (ValueError (str "Expected GCS location found: %s")
                    [coerced raw_uri recursive]).
Proof.
  intros H. rewrite parse_uri_unfold. cbv zeta.
  unfold _validate_file_provider. by rewrite H.
Qed.

(** C3 (as amended): the storage-provider check runs before the
    wildcard-class rejection.  Every input whose (directory-coerced) URI
    does not start with [gs://] fails with the unsupported-provider error,
    also when it contains a square bracket or a question mark; and a
    [gs://] URI with a square bracket fails with the character-range
    error. *)
Theorem C3_provider_check_precedes_wildcard_check
    (raw_uri : pystr) (recursive : bool) :
  let x := coerced raw_uri recursive in
  (startswith x (str "gs://") = false ->
   parse_uri raw_uri recursive =
   Raise (ValueError (str "Expected GCS location found: %s") [x])) /\
  (startswith x (str "gs://") = true ->
   contains (str "[") x || contains (str "]") x = true ->
   parse_uri raw_uri recursive =
   Raise (ValueError
            (str "Square bracket (character ranges) are not supported: %s")
            [x])).
Proof.
  cbv zeta. split.
  - apply parse_uri_provider_first.
  - intros Hp Hb. rewrite parse_uri_unfold. cbv zeta.
    apply validate_provider_ok in Hp. rewrite Hp. simpl.
    unfold _validate_paths_or_fail.
    destruct (posixpath.split _) as [path filename]. by rewrite Hb.
Qed.

Lemma C3_provider_check_precedes_wildcard_check_witness :
  parse_uri (str "s3://bucket/a[0-9].txt") false =
    Raise (ValueError (str "Expected GCS location found: %s")
                      [str "s3://bucket/a[0-9].txt"]) /\
  parse_uri (str "gs://bucket/a[0-9].txt") false =
    Raise (ValueError
             (str "Square bracket (character ranges) are not supported: %s")
             [str "gs://bucket/a[0-9].txt"]).
Proof.
  split.
  - apply (proj1 (C3_provider_check_precedes_wildcard_check
                    (str "s3://bucket/a[0-9].txt") false)).
    reflexivity.
  - apply (proj2 (C3_provider_check_precedes_wildcard_check
                    (str "gs://bucket/a[0-9].txt") false));
      reflexivity.
Defined.

(** C3 (as stated) fails: [s3://bucket/a[0-9].txt] uses an unsupported
    provider and contains a square bracket, and normalisation reports the
    provider, not the wildcard class. *)
Lemma C3_counterexample :
  let raw_uri := str "s3://bucket/a[0-9].txt" in
  startswith raw_uri (str "gs://") = false /\
  contains (str "[") raw_uri = true /\
  parse_uri raw_uri false =
    Raise (ValueError (str "Expected GCS location found: %s") [raw_uri]) /\
  parse_uri raw_uri false <>
    Raise (ValueError
             (str "Square bracket (character ranges) are not supported: %s")
             [raw_uri]).
Proof. cbv zeta. split_and!; [reflexivity..|]. vm_compute. discriminate. Qed.

Lemma gs_prefix_split (x : pystr) :
  startswith x (str "gs://") = true -> x = str "gs://" ++ drop 5 x.
Proof. apply startswith_inv. Qed.

Lemma endswith_gs_mount (x : pystr) :
  startswith x (str "gs://") = true ->
  endswith x (str "/") = true ->
  endswith (str "gs/" ++ drop 5 x) (str "/") = true.
Proof.
  intros Hp He. apply gs_prefix_split in Hp.
  destruct (drop 5 x) as [|c rest _] using rev_ind; [done|].
  rewrite Hp in He. revert He. unfold endswith.
  rewrite !app_assoc, !rev_app_distr. simpl. by rewrite !startswith_nil.
Qed.

Lemma split_all_nonempty (sep : ascii) (s : pystr) : split_all sep s ≠ [].
Proof.
  destruct s as [|c s]; [done|]. rewrite split_all_cons.
  destruct (Ascii.eqb c sep); [done|]. by destruct (split_all sep s).
Qed.

(** Splitting at a separator splits the list of segments. *)
Lemma split_all_app_sep (sep : ascii) (a b : pystr) :
  split_all sep (a ++ sep :: b) = split_all sep a ++ split_all sep b.
Proof.
  induction a as [|c a IH].
  - simpl. by rewrite Ascii.eqb_refl.
  - rewrite <- app_comm_cons, !split_all_cons, IH.
    destruct (Ascii.eqb c sep); [done|].
    pose proof (split_all_nonempty sep a).
    by destruct (split_all sep a).
Qed.

(** Without a [..] component the loop of [normpath] only appends. *)
Lemma norm_comps_no_dotdot (k : nat) (comps new_comps : list pystr) :
  str ".." ∉ comps ->
  exists tail, posixpath.norm_comps k comps new_comps = new_comps ++ tail.
Proof.
  revert new_comps. induction comps as [|comp rest IH]; intros new_comps Hno.
  - exists []. by rewrite app_nil_r.
  - apply not_elem_of_cons in Hno as [Hne Hno].
    change (posixpath.norm_comps k (comp :: rest) new_comps) with
      (if (pystr_eqb comp [] || pystr_eqb comp (str "."))%bool
       then posixpath.norm_comps k rest new_comps
       else if (negb (pystr_eqb comp (str ".."))
                || ((k =? 0) && bool_decide (new_comps = []))
                || match last new_comps with
                   | Some c => pystr_eqb c (str "..")
                   | None => false
                   end)%bool
       then posixpath.norm_comps k rest (new_comps ++ [comp])
       else posixpath.norm_comps k rest (removelast new_comps)).
    destruct (pystr_eqb comp [] || pystr_eqb comp (str "."))%bool.
    + by apply IH.
    + assert (pystr_eqb comp (str "..") = false) as ->.
      { apply bool_decide_eq_false. congruence. }
      cbn [negb orb].
      destruct (IH (new_comps ++ [comp]) Hno) as [tail ->].
      exists (comp :: tail). by rewrite <- app_assoc.
Qed.

(** A mount path without a [..] segment stays below the mount root. *)
Lemma normpath_inside (rest : pystr) :
  str ".." ∉ split_all SEP (str "gs/" ++ rest) ->
  startswith
    (posixpath.normpath (posixpath.join2 DATA_DISK_MOUNT (str "gs/" ++ rest)))
    (DATA_DISK_MOUNT ++ str "/") = true.
Proof.
  change (str "gs/" ++ rest) with (str "gs" ++ SEP :: rest).
  rewrite split_all_app_sep. intros Hno.
  apply not_elem_of_app in Hno as [_ Hno].
  change (posixpath.join2 DATA_DISK_MOUNT (str "gs" ++ SEP :: rest))
    with (str "/mnt/data/gs" ++ SEP :: rest).
  unfold posixpath.normpath.
  change (pystr_eqb (str "/mnt/data/gs" ++ SEP :: rest) []) with false.
  change (startswith (str "/mnt/data/gs" ++ SEP :: rest) [SEP]) with true.
  change (startswith (str "/mnt/data/gs" ++ SEP :: rest) [SEP; SEP]) with false.
  cbn [andb]. cbv zeta.
  rewrite split_all_app_sep.
  change (split_all SEP (str "/mnt/data/gs"))
    with [([] : pystr); str "mnt"; str "data"; str "gs"].
  change (posixpath.norm_comps 1
            ([[]; str "mnt"; str "data"; str "gs"] ++ split_all SEP rest) [])
    with (posixpath.norm_comps 1 (split_all SEP rest)
            [str "mnt"; str "data"; str "gs"]).
  destruct (norm_comps_no_dotdot 1 _ [str "mnt"; str "data"; str "gs"] Hno)
    as [tail ->].
  by destruct tail.
Qed.

(** C1 (as amended): the mount path of an accepted URI is [gs/] followed by
    what followed [gs://] in the URI (in its directory form for a recursive
    reference).  So it does not begin with [/], and joining the mount root
    with it appends it to the mount root; when the mount path has no [..]
    segment, the joined path, normalised, is strictly below the mount root.
    The last segment of a non-recursive reference is a file name, neither
    empty nor [.] nor [..]; the mount path of a recursive reference ends in
    a slash.  No other [..] segment is rejected. *)
Theorem C1_mount_path_shape (raw_uri : pystr) (recursive : bool)
    (d : pystr) (u : UriParts) :
  parse_uri raw_uri recursive = Ok (d, u) ->
  let x := coerced raw_uri recursive in
  x = str "gs://" ++ drop 5 x /\
  d = str "gs/" ++ drop 5 x /\
  startswith d (str "/") = false /\
  posixpath.join (Some DATA_DISK_MOUNT) (Some d)
  = Ok (DATA_DISK_MOUNT ++ str "/" ++ d) /\
  (str ".." ∉ split_all SEP d ->
   startswith (posixpath.normpath (posixpath.join2 DATA_DISK_MOUNT d))
              (DATA_DISK_MOUNT ++ str "/") = true) /\
  (recursive = false ->
   posixpath.basename d ≠ [] /\
   posixpath.basename d ≠ str ".." /\
   posixpath.basename d ≠ str ".") /\
  (recursive = true -> endswith d (str "/") = true).
Proof.
  intros H. apply parse_uri_ok in H as (Hp & Hv & -> & _). cbv zeta.
  set (x := coerced raw_uri recursive) in *.
  apply validate_paths_ok in Hv as (Hdd & Hd & Hne).
  pose proof (gs_prefix_split x Hp) as Hx.
  split_and!; try done.
  - apply normpath_inside.
  - intros Hrec. specialize (Hne Hrec).
    rewrite Hx in Hdd, Hd, Hne.
    rewrite (basename_after_slash (str "gs://")) in Hdd, Hd, Hne by reflexivity.
    by rewrite (basename_after_slash (str "gs/")) by reflexivity.
  - intros Hrec. apply endswith_gs_mount; [done|].
    subst x. rewrite Hrec. apply endswith_snoc.
Qed.

Lemma C1_mount_path_shape_witness :
  let x := str "gs://mybucket/myfile.txt" in
  let d := str "gs/mybucket/myfile.txt" in
  parse_uri x false
  = Ok (d, {| uri_path := str "gs://mybucket/";
              uri_basename := str "myfile.txt" |}) /\
  (str ".." ∉ split_all SEP d) /\
  d = str "gs/" ++ drop 5 x /\
  startswith d (str "/") = false /\
  posixpath.join (Some DATA_DISK_MOUNT) (Some d)
  = Ok (DATA_DISK_MOUNT ++ str "/" ++ d) /\
  startswith (posixpath.normpath (posixpath.join2 DATA_DISK_MOUNT d))
             (DATA_DISK_MOUNT ++ str "/") = true /\
  posixpath.basename d ≠ [] /\
  posixpath.basename d ≠ str ".." /\
  posixpath.basename d ≠ str ".".
Proof.
  cbv zeta.
  assert (str ".." ∉ split_all SEP (str "gs/mybucket/myfile.txt")) as Hno.
  { vm_compute. intros Hin.
    repeat (apply elem_of_cons in Hin as [Hin|Hin]; [discriminate Hin|]).
    by apply elem_of_nil in Hin. }
  destruct (C1_mount_path_shape (str "gs://mybucket/myfile.txt") false
              (str "gs/mybucket/myfile.txt")
              {| uri_path := str "gs://mybucket/";
                 uri_basename := str "myfile.txt" |} eq_refl)
    as (_ & Hd & Hs & Hj & Hin & Hfile & _).
  destruct (Hfile eq_refl) as (H1 & H2 & H3).
  split_and!; [reflexivity | exact Hno | exact Hd | exact Hs | exact Hj
              | exact (Hin Hno) | exact H1 | exact H2 | exact H3].
Defined.

(** C1 (as stated) fails: [gs://bucket/../../../etc/passwd] is accepted, its
    mount path has [..] segments, and the mount root joined with it names
    [/mnt/etc/passwd], outside [/mnt/data]. *)
Lemma C1_counterexample :
  let d := str "gs/bucket/../../../etc/passwd" in
  parse_uri (str "gs://bucket/../../../etc/passwd") false
  = Ok (d, {| uri_path := str "gs://bucket/../../../etc/";
              uri_basename := str "passwd" |}) /\
  str ".." ∈ split_all SEP d /\
  posixpath.normpath (posixpath.join2 DATA_DISK_MOUNT d) = str "/mnt/etc/passwd" /\
  startswith (posixpath.normpath (posixpath.join2 DATA_DISK_MOUNT d))
             (DATA_DISK_MOUNT ++ str "/") = false.
Proof.
  cbv zeta. split_and!; [reflexivity | | reflexivity..].
  vm_compute. do 2 right. left.
Qed.

(** A recursive reference may end in [..]: the last segment of its
    directory form is empty, and no file name is checked. *)
Example recursive_reference_keeps_dotdot :
  parse_uri (str "gs://b/../../..") true
  = Ok (str "gs/b/../../../",
        {| uri_path := str "gs://b/../../../"; uri_basename := [] |}) /\
  posixpath.basename (str "gs/b/../../../") = [] /\
  posixpath.normpath (posixpath.join2 DATA_DISK_MOUNT (str "gs/b/../../../"))
  = str "/mnt".
Proof. split_and!; reflexivity. Qed.

(** For a recursive reference the external URI is the directory form of the
    raw URI. *)
Lemma parse_uri_recursive_uri (raw_uri d : pystr) (u : UriParts) :
  parse_uri raw_uri true = Ok (d, u) -> uri_str u = directory_fmt raw_uri.
Proof.
  intros H. apply parse_uri_ok in H as (Hp & _ & _ & ->).
  unfold coerced in *.
  assert (forallb (Ascii.eqb SEP) (directory_fmt raw_uri) = false) as Hns.
  { by rewrite (gs_prefix_split _ Hp). }
  clear Hp. revert Hns.
  unfold uri_str, new_UriParts, posixpath.dirname, posixpath.basename,
    posixpath.strip_head, directory_fmt.
  simpl. set (s := rstrip [SEP] raw_uri). intros Hns.
  rewrite rfind1_snoc.
  rewrite drop_ge by (rewrite length_app; simpl; lia).
  rewrite take_ge by (rewrite length_app; simpl; lia).
  rewrite Hns, rstrip_snoc. subst s.
  by rewrite !rstrip_idemp, app_nil_r.
Qed.

Lemma parse_uri_directory_fmt (raw_uri : pystr) :
  parse_uri (directory_fmt raw_uri) true = parse_uri raw_uri true.
Proof.
  rewrite !parse_uri_unfold. unfold coerced.
  by rewrite directory_fmt_idemp.
Qed.

(** The strings that [directory_fmt] leaves unchanged are those that end in
    exactly one slash. *)
Lemma directory_fmt_fixed (s : pystr) :
  directory_fmt s = s <->
  endswith s (str "/") = true /\ endswith s (str "//") = false.
Proof.
  split.
  - intros <-. split; [apply endswith_snoc|].
    unfold directory_fmt, endswith, rstrip.
    rewrite rev_app_distr, rev_involutive. simpl.
    destruct (lstrip [SEP] (rev s)) as [|c t] eqn:E; [done|].
    apply lstrip_head in E. unfold ascii_in in E. simpl in E.
    apply orb_false_iff in E as [E _].
    transitivity (Ascii.eqb "/" c && startswith t []); [reflexivity|].
    rewrite Ascii.eqb_sym. unfold SEP in E. by rewrite E.
  - intros [H1 H2]. unfold directory_fmt.
    destruct s as [|c t _] using rev_ind; [done|].
    revert H1 H2. unfold endswith. rewrite rev_app_distr.
    cbn -[Ascii.eqb]. rewrite startswith_nil, andb_true_r.
    intros <-%Ascii.eqb_eq. cbn -[Ascii.eqb]. intros H2.
    change ["/"%char] with [SEP]. rewrite rstrip_snoc. f_equal.
    destruct t as [|c' t' _] using rev_ind; [done|].
    revert H2. rewrite rev_app_distr. cbn -[Ascii.eqb].
    rewrite startswith_nil, andb_true_r. intros H2.
    rewrite (rstrip_keep [SEP] t' c' []); [done|].
    unfold ascii_in. cbn -[Ascii.eqb]. rewrite orb_false_r.
    rewrite Ascii.eqb_sym. exact H2.
Qed.

(** C7 (as amended): for a directory reference that the normaliser accepts,
    the external URI is the input with its trailing slashes replaced by one
    slash.  It is the input itself exactly when the input ends in one slash
    and no more, and normalising it again returns the same result. *)
Theorem C7_directory_normalisation_idempotent (uri d : pystr) (u : UriParts) :
  parse_uri uri true = Ok (d, u) ->
  uri_str u = directory_fmt uri /\
  (uri_str u = uri <->
   endswith uri (str "/") = true /\ endswith uri (str "//") = false) /\
  parse_uri (uri_str u) true = Ok (d, u).
Proof.
  intros H. pose proof (parse_uri_recursive_uri _ _ _ H) as Hu.
  rewrite Hu. split_and!.
  - done.
  - apply directory_fmt_fixed.
  - by rewrite parse_uri_directory_fmt.
Qed.

Lemma C7_directory_normalisation_idempotent_witness :
  let uri := str "gs://mybucket/myfilecollection/here/" in
  let u := {| uri_path := uri; uri_basename := [] |} in
  parse_uri uri true = Ok (str "gs/mybucket/myfilecollection/here/", u) /\
  endswith uri (str "/") = true /\ endswith uri (str "//") = false /\
  uri_str u = uri /\
  parse_uri (uri_str u) true = Ok (str "gs/mybucket/myfilecollection/here/", u).
Proof.
  cbv zeta.
  destruct (C7_directory_normalisation_idempotent
              (str "gs://mybucket/myfilecollection/here/")
              (str "gs/mybucket/myfilecollection/here/")
              {| uri_path := str "gs://mybucket/myfilecollection/here/";
                 uri_basename := [] |} eq_refl)
    as (_ & Hiff & Hagain).
  split_and!; [reflexivity | reflexivity | reflexivity | | exact Hagain].
  apply Hiff. split; reflexivity.
Defined.

(** C7 (as stated) fails: [gs://bucket/dir//] ends in a slash and is
    accepted as a directory reference, and the external URI returned for it
    is [gs://bucket/dir/], not the input; the file parameter made from it
    holds both. *)
Lemma C7_counterexample :
  let uri := str "gs://bucket/dir//" in
  let u := {| uri_path := str "gs://bucket/dir/"; uri_basename := [] |} in
  endswith uri (str "/") = true /\
  parse_uri uri true = Ok (str "gs/bucket/dir/", u) /\
  uri_str u = str "gs://bucket/dir/" /\
  uri_str u <> uri /\
  exists p,
    make_param (InputFileParamUtil DEFAULT_INPUT_LOCAL_PATH) (str "D")
               (Some uri) true = Ok p /\
    fp_value p = Some uri /\ fp_uri p = Some u.
Proof.
  cbv zeta. split_and!; [reflexivity.. | |].
  - vm_compute. discriminate.
  - eexists. split; [vm_compute; reflexivity|]. split; reflexivity.
Qed.

(** ** The local rewriter *)

(** The examples of the docstring of [_local_uri_rewriter]. *)
Example local_rewriter_doctest_1 :
  _local_uri_rewriter (Some (str "/home/user")) (str "/work")
                      (str "/tmp/a_path/../B_PATH/file.txt")
  = Ok (str "/tmp/B_PATH/file.txt", str "file/tmp/B_PATH/file.txt").
Proof. reflexivity. Qed.

Example local_rewriter_doctest_2 :
  _local_uri_rewriter (Some (str "/home/user")) (str "/work")
                      (str "/myhome/./mydir/")
  = Ok (str "/myhome/mydir/", str "file/myhome/mydir/").
Proof. reflexivity. Qed.

Example local_rewriter_doctest_3 :
  _local_uri_rewriter (Some (str "/home/user")) (str "/work")
                      (str "./../upper_dir/")
  = Ok (str "/upper_dir/", str "file/_dotdot_/upper_dir/").
Proof. reflexivity. Qed.

Example local_rewriter_doctest_4 :
  _local_uri_rewriter (Some (str "/home/user")) (str "/work")
                      (str "~/localdata/*.bam")
  = Ok (str "/home/user/localdata/*.bam", str "file/_home_/localdata/*.bam").
Proof. reflexivity. Qed.

(** Without [HOME], the join for a [~/] path raises. *)
Example local_rewriter_no_home :
  _local_uri_rewriter None (str "/work") (str "~/localdata/*.bam")
  = Raise TypeError.
Proof. reflexivity. Qed.

Lemma directory_fmt_file_prefix (x : pystr) :
  startswith (directory_fmt (str "file/" ++ x)) (str "file/") = true.
Proof.
  unfold directory_fmt.
  change (str "file/" ++ x) with (str "fil" ++ "e"%char :: (SEP :: x)).
  rewrite rstrip_keep by reflexivity.
  destruct (rstrip_prefix [SEP] (SEP :: x)) as [t Ht].
  destruct (rstrip [SEP] (SEP :: x)) as [|c r]; [reflexivity|].
  simpl in Ht. injection Ht as <- _. simpl. apply startswith_nil.
Qed.

Lemma startswith_app_l (a b p : pystr) :
  startswith a p = true -> startswith (a ++ b) p = true.
Proof.
  intros H. rewrite (startswith_inv _ _ H), <- app_assoc.
  apply startswith_app.
Qed.

Lemma local_docker_path_prefix (home : option pystr) (cwd raw_uri n d : pystr) :
  _local_uri_rewriter home cwd raw_uri = Ok (n, d) ->
  startswith d (str "file/") = true.
Proof.
  unfold _local_uri_rewriter.
  destruct (posixpath.split raw_uri) as [raw_path filename].
  destruct (replace_prefixes _ raw_path) as [p|e]; [|done].
  simpl. intros [= _ <-].
  apply startswith_app_l, directory_fmt_file_prefix.
Qed.

Lemma gcs_docker_path_prefix (raw_uri : pystr) :
  _validate_file_provider raw_uri = Ok tt ->
  startswith (_gcs_uri_rewriter raw_uri).2 (str "gs/") = true.
Proof.
  intros H. apply validate_provider_ok in H. simpl.
  rewrite replace_first_prefix by done. apply startswith_app.
Qed.

(** C9: a mount path of the local rewriter starts with [file/], a mount
    path of the remote rewriter (on a URI that passed the provider check)
    starts with [gs/]; the two are never equal. *)
Theorem C9_local_and_remote_mount_paths_disjoint
    (home : option pystr) (cwd local_uri normed local_path remote_uri : pystr) :
  _local_uri_rewriter home cwd local_uri = Ok (normed, local_path) ->
  _validate_file_provider remote_uri = Ok tt ->
  startswith local_path (str "file/") = true /\
  startswith (_gcs_uri_rewriter remote_uri).2 (str "gs/") = true /\
  local_path ≠ (_gcs_uri_rewriter remote_uri).2.
Proof.
  intros Hl Hr.
  apply local_docker_path_prefix in Hl. apply gcs_docker_path_prefix in Hr.
  split_and!; [done..|].
  intros E. rewrite <- E in Hr.
  apply startswith_inv in Hl, Hr. rewrite Hl in Hr. discriminate Hr.
Qed.

Lemma C9_local_and_remote_mount_paths_disjoint_witness :
  startswith (str "file/_home_/localdata/*.bam") (str "file/") = true /\
  startswith (_gcs_uri_rewriter (str "gs://bucket/localdata/*.bam")).2
             (str "gs/") = true /\
  str "file/_home_/localdata/*.bam"
  ≠ (_gcs_uri_rewriter (str "gs://bucket/localdata/*.bam")).2.
Proof.
  apply (C9_local_and_remote_mount_paths_disjoint
           (Some (str "/home/user")) (str "/work") (str "~/localdata/*.bam")
           (str "/home/user/localdata/*.bam")).
  - reflexivity.
  - reflexivity.
Defined.

(** ** Loops *)

Lemma for_each_app {A S} (body : S -> A -> result S) (l1 l2 : list A) (s : S) :
  for_each body (l1 ++ l2) s = (s' ← for_each body l1 s; for_each body l2 s').
Proof.
  revert s. induction l1 as [|a l1 IH]; intros s; simpl; [done|].
  destruct (body s a) as [s'|e]; simpl; [apply IH | done].
Qed.

Lemma for_each_nested {A B S} (body : S -> A -> result S) (g : B -> list A)
    (l : list B) (s : S) :
  for_each (fun s b => for_each body (g b) s) l s
  = for_each body (concat (g <$> l)) s.
Proof.
  revert s. induction l as [|b l IH]; intros s; simpl; [done|].
  rewrite for_each_app.
  destruct (for_each body (g b) s) as [s'|e]; simpl; [apply IH | done].
Qed.

Lemma args_to_job_params_eq (h : hash_order)
    (envs inputs inputs_recur outputs outputs_recur : list pystr) :
  args_to_job_params h envs inputs inputs_recur outputs outputs_recur =
  ('(e, i, ri, o, ro) ←
     parse_args envs inputs inputs_recur outputs outputs_recur;
   new_JobParams h e i ri o ro).
Proof.
  unfold args_to_job_params, parse_args.
  destruct (parse_pair_args envs) as [e|?]; simpl; [|done].
  destruct (for_each _ inputs _) as [[u1 i]|?]; simpl; [|done].
  destruct (for_each _ inputs_recur _) as [[u2 ri]|?]; simpl; [|done].
  destruct (for_each _ outputs _) as [[u3 o]|?]; simpl; [|done].
  destruct (for_each _ outputs_recur _) as [[u4 ro]|?]; simpl; done.
Qed.

(** ** The request assembler and unset parameters *)

Lemma merge_envs_visit (h : hash_order) (job : JobParams) :
  merge_envs h job = for_each bind_env (visit_order h (values job)) ∅.
Proof. unfold merge_envs, visit_order. apply for_each_nested. Qed.

Lemma bind_env_raise (envs : gmap pystr (option pystr)) (v : Param) (e : exn) :
  bind_env envs v = Raise e -> e = TypeError.
Proof.
  destruct v as [p|f]; simpl; [done|].
  destruct (fp_docker_path f); simpl; [done|]. by intros [= <-].
Qed.

Lemma for_each_bind_env_unset (l : list Param) (f : FileParam)
    (envs : gmap pystr (option pystr)) :
  PFile f ∈ l -> fp_docker_path f = None ->
  for_each bind_env l envs = Raise TypeError.
Proof.
  intros Hin Hnone. revert envs.
  induction l as [|v l IH]; intros envs; [by apply elem_of_nil in Hin|].
  simpl. destruct (bind_env envs v) as [envs'|e] eqn:Hb; simpl.
  - apply elem_of_cons in Hin as [<-|Hin]; [|by apply IH].
    simpl in Hb. by rewrite Hnone in Hb.
  - by rewrite (bind_env_raise _ _ _ Hb).
Qed.

Lemma job_files_visited (h : hash_order) (job : JobParams) (f : FileParam) :
  f ∈ job_files job -> PFile f ∈ visit_order h (values job).
Proof.
  unfold job_files, visit_order, values. simpl.
  rewrite app_nil_r, !elem_of_app.
  intros [H|[H|[H|H]]]; right;
    [left | right; left | do 2 right; left | do 3 right];
    apply list_elem_of_fmap_2; by rewrite iter_file_perm.
Qed.

Lemma call_param_class_ok (self : FileParamUtil) (name : pystr)
    (value docker_path : option pystr) (uri : option UriParts)
    (recursive : bool) (p : FileParam) :
  call_param_class self name value docker_path uri recursive = Ok p ->
  p = {| fp_name := name; fp_value := value; fp_docker_path := docker_path;
         fp_uri := uri; fp_recursive := recursive |}.
Proof.
  unfold call_param_class.
  destruct (param_class self); simpl.
  - by intros [= <-].
  - destruct (_validate_param_name name _) as [[]|?]; simpl; [|done].
    by intros [= <-].
  - destruct (_validate_param_name name _) as [[]|?]; simpl; [|done].
    by intros [= <-].
Qed.

Lemma make_param_fields (self : FileParamUtil) (name : pystr)
    (raw_uri : option pystr) (recursive : bool) (p : FileParam) :
  make_param self name raw_uri recursive = Ok p ->
  fp_name p = name /\ fp_value p = kept_value raw_uri /\
  fp_recursive p = recursive /\
  (kept_value raw_uri = None -> fp_docker_path p = None).
Proof.
  unfold make_param.
  destruct raw_uri as [[|c u]|]; simpl.
  1,3: by intros ->%call_param_class_ok.
  destruct (parse_uri (c :: u) recursive) as [[d up]|?]; simpl; [|done].
  by intros ->%call_param_class_ok.
Qed.

(** C10: a job that holds a declared-but-unset file parameter (the
    parameter that [make_param] builds for an empty value, whose docker
    path is [None]) gets no request document: [create_pipeline_request]
    raises [TypeError], which is not one of the validation errors, from the
    join of the mount root with the absent mount path. *)
Theorem C10_unset_file_parameter_breaks_assembly
    (h : hash_order) (res : ResourcesConfig) (job : JobParams)
    (actions : list Action) (timeout : pystr)
    (util : FileParamUtil) (name : pystr) (raw_uri : option pystr)
    (recursive : bool) (f : FileParam) :
  kept_value raw_uri = None ->
  make_param util name raw_uri recursive = Ok f ->
  f ∈ job_files job ->
  fp_docker_path f = None /\
  posixpath.join (Some DATA_DISK_MOUNT) (fp_docker_path f) = Raise TypeError /\
  create_pipeline_request h res job actions timeout = Raise TypeError /\
  is_validation_error TypeError = false.
Proof.
  intros Hempty Hmk Hin.
  apply make_param_fields in Hmk as (_ & _ & _ & Hnone).
  specialize (Hnone Hempty). rewrite Hnone. split_and!; try done.
  unfold create_pipeline_request. rewrite merge_envs_visit.
  rewrite (for_each_bind_env_unset _ f); [done | | done].
  by apply job_files_visited.
Qed.

Lemma C10_unset_file_parameter_breaks_assembly_witness :
  let f := {| fp_name := str "F1"; fp_value := None; fp_docker_path := None;
              fp_uri := None; fp_recursive := false |} in
  let job := {| envs := []; inputs := [f]; recursive_inputs := [];
                outputs := []; recursive_outputs := [] |} in
  let res := new_ResourcesConfig (str "dros-helper") (str "us-west1")
               DEFAULT_MACHINE_TYPE DEFAULT_DISK_SIZE None
               (ScopeStr DEFAULT_SCOPE) in
  fp_docker_path f = None /\
  posixpath.join (Some DATA_DISK_MOUNT) (fp_docker_path f) = Raise TypeError /\
  create_pipeline_request insertion_order res job [] SEVEN_DAYS
  = Raise TypeError /\
  is_validation_error TypeError = false.
Proof.
  cbv zeta.
  apply (C10_unset_file_parameter_breaks_assembly insertion_order _ _ _ _
           (InputFileParamUtil DEFAULT_INPUT_LOCAL_PATH) (str "F1") (Some [])
           false).
  - reflexivity.
  - reflexivity.
  - apply list_elem_of_here.
Defined.

(** The flag [F1=] declares such a parameter. *)
Example unset_parameter_from_flag :
  args_to_job_params insertion_order [] [str "F1="] [] [] []
  = Ok {| envs := [];
          inputs := [ {| fp_name := str "F1"; fp_value := None;
                         fp_docker_path := None; fp_uri := None;
                         fp_recursive := false |} ];
          recursive_inputs := []; outputs := []; recursive_outputs := [] |}.
Proof. vm_compute. reflexivity. Qed.

(** ** Auto-naming *)

Arguments add_file_arg : simpl never.

Lemma FileParam_eqb_name (a b : FileParam) :
  FileParam_eqb a b = true -> fp_name a = fp_name b.
Proof.
  unfold FileParam_eqb. rewrite !andb_true_iff, !bool_decide_eq_true.
  tauto.
Qed.

Lemma set_add_fresh_name (p : FileParam) (sink : pyset FileParam) :
  (forall q, q ∈ sink -> fp_name p ≠ fp_name q) ->
  set_add FileParam_eqb p sink = sink ++ [p].
Proof.
  intros Hfresh. unfold set_add.
  destruct (existsb (FileParam_eqb p) sink) eqn:E; [|done].
  apply existsb_exists in E as (q & Hq & Heq).
  apply FileParam_eqb_name in Heq.
  apply list_elem_of_In in Hq. by apply Hfresh in Hq.
Qed.

Lemma new_JobParams_ok (h : hash_order) (e : pyset EnvParam)
    (i ri o ro : pyset FileParam) (job : JobParams) :
  new_JobParams h e i ri o ro = Ok job ->
  _check_for_collisions h [EnvSet e; FileSet i; FileSet ri; FileSet o; FileSet ro]
  = Ok tt /\
  job = {| envs := e; inputs := i; recursive_inputs := ri; outputs := o;
           recursive_outputs := ro |}.
Proof.
  unfold new_JobParams.
  destruct (_check_for_collisions _ _) as [[]|?]; simpl; [|done].
  by intros [= <-].
Qed.

Lemma parse_args_ok
    (envs inputs inputs_recur outputs outputs_recur : list pystr)
    (e : pyset EnvParam) (i ri o ro : pyset FileParam) :
  parse_args envs inputs inputs_recur outputs outputs_recur
  = Ok (e, i, ri, o, ro) ->
  exists u1 u2 u3 u4,
    parse_pair_args envs = Ok e /\
    for_each (add_file_arg false) inputs
             (InputFileParamUtil DEFAULT_INPUT_LOCAL_PATH, []) = Ok (u1, i) /\
    for_each (add_file_arg true) inputs_recur (u1, []) = Ok (u2, ri) /\
    for_each (add_file_arg false) outputs
             (OutputFileParamUtil DEFAULT_OUTPUT_LOCAL_PATH, []) = Ok (u3, o) /\
    for_each (add_file_arg true) outputs_recur (u3, []) = Ok (u4, ro).
Proof.
  unfold parse_args.
  destruct (parse_pair_args envs) as [e'|?]; simpl; [|done].
  destruct (for_each _ inputs _) as [[u1 i']|?]; simpl; [|done].
  destruct (for_each _ inputs_recur _) as [[u2 ri']|?] eqn:E2; simpl; [|done].
  destruct (for_each _ outputs _) as [[u3 o']|?]; simpl; [|done].
  destruct (for_each _ outputs_recur _) as [[u4 ro']|?] eqn:E4; simpl; [|done].
  intros [= <- <- <- <- <-]. by exists u1, u2, u3, u4.
Qed.

Lemma args_to_job_params_ok (h : hash_order)
    (env_args in_args rin_args out_args rout_args : list pystr)
    (job : JobParams) :
  args_to_job_params h env_args in_args rin_args out_args rout_args = Ok job ->
  parse_args env_args in_args rin_args out_args rout_args
  = Ok (envs job, inputs job, recursive_inputs job, outputs job,
        recursive_outputs job) /\
  _check_for_collisions h (values job) = Ok tt.
Proof.
  rewrite args_to_job_params_eq.
  destruct (parse_args _ _ _ _ _) as [[[[[e i] ri] o] ro]|?]; simpl; [|done].
  by intros [Hc ->]%new_JobParams_ok.
Qed.

Lemma get_variable_name_index (self : FileParamUtil) (name : option pystr) :
  _auto_index self <= _auto_index (get_variable_name self name).2 /\
  _auto_prefix (get_variable_name self name).2 = _auto_prefix self.
Proof. destruct name as [[|c n]|]; simpl; split; (lia || done). Qed.

Lemma add_file_arg_bare (r : bool) (util : FileParamUtil)
    (sink : pyset FileParam) (v : pystr)
    (st' : FileParamUtil * pyset FileParam) :
  split1 "=" v = (v, None) ->
  add_file_arg r (util, sink) v = Ok st' ->
  exists p,
    fp_name p = _auto_prefix util ++ str_of_nat (_auto_index util) /\
    fp_value p = kept_value (Some v) /\
    st' = ((get_variable_name util None).2, set_add FileParam_eqb p sink).
Proof.
  intros Hbare.
  assert (add_file_arg r (util, sink) v =
          (p ← make_param (get_variable_name util None).2
                 (get_variable_name util None).1 (Some v) r;
           Ok ((get_variable_name util None).2, set_add FileParam_eqb p sink)))
    as ->.
  { unfold add_file_arg, split_pair. by rewrite Hbare. }
  destruct (make_param _ _ (Some v) r) as [p|?] eqn:Hmk; simpl; [|done].
  intros [= <-]. exists p.
  by apply make_param_fields in Hmk as (Hn & Hv & _).
Qed.

Lemma add_file_arg_index (r : bool) (util util' : FileParamUtil)
    (sink sink' : pyset FileParam) (arg : pystr) :
  add_file_arg r (util, sink) arg = Ok (util', sink') ->
  _auto_index util <= _auto_index util' /\ _auto_prefix util' = _auto_prefix util.
Proof.
  unfold add_file_arg.
  destruct (split_pair arg "=" 0) as [[name value]|?]; simpl; [|done].
  pose proof (get_variable_name_index util name) as Hidx.
  destruct (get_variable_name util name) as [name' util1].
  destruct (make_param util1 name' value r) as [p|?]; simpl; [|done].
  intros [= <- _]. exact Hidx.
Qed.

Lemma for_each_add_file_arg_index (r : bool) (args : list pystr)
    (util util' : FileParamUtil) (sink sink' : pyset FileParam) :
  for_each (add_file_arg r) args (util, sink) = Ok (util', sink') ->
  _auto_index util <= _auto_index util' /\ _auto_prefix util' = _auto_prefix util.
Proof.
  revert util sink. induction args as [|a args IH]; intros util sink; simpl.
  - intros [= <- _]. split; [lia | done].
  - destruct (add_file_arg r (util, sink) a) as [[u1 s1]|?] eqn:Ha;
      simpl; [|done].
    intros H. apply add_file_arg_index in Ha. apply IH in H.
    destruct Ha, H. split; [lia | congruence].
Qed.

(** C8: three input flags without a name part are given the names
    [INPUT_0], [INPUT_1], [INPUT_2] in the order of the flags; the counter
    of a builder never decreases, neither in one call of
    [get_variable_name] nor over a loop of [args_to_job_params], and the
    loop over the recursive inputs starts from the counter the loop over
    the inputs has left. *)
Theorem C8_auto_naming_in_encounter_order :
  (forall (h : hash_order) (envs : list pystr) (v0 v1 v2 : pystr)
          (inputs_recur outputs outputs_recur : list pystr) (job : JobParams),
     split1 "=" v0 = (v0, None) ->
     split1 "=" v1 = (v1, None) ->
     split1 "=" v2 = (v2, None) ->
     args_to_job_params h envs [v0; v1; v2] inputs_recur outputs outputs_recur
     = Ok job ->
     (fun f => (fp_name f, fp_value f)) <$> inputs job
     = [(str "INPUT_0", kept_value (Some v0));
        (str "INPUT_1", kept_value (Some v1));
        (str "INPUT_2", kept_value (Some v2))]) /\
  (forall (self : FileParamUtil) (name : option pystr),
     _auto_index self <= _auto_index (get_variable_name self name).2) /\
  (forall (r : bool) (args : list pystr) (util util' : FileParamUtil)
          (sink sink' : pyset FileParam),
     for_each (add_file_arg r) args (util, sink) = Ok (util', sink') ->
     _auto_index util <= _auto_index util') /\
  (forall (envs inputs inputs_recur outputs outputs_recur : list pystr)
          (e : pyset EnvParam) (i ri o ro : pyset FileParam),
     parse_args envs inputs inputs_recur outputs outputs_recur
     = Ok (e, i, ri, o, ro) ->
     exists u1 u2,
       for_each (add_file_arg false) inputs
                (InputFileParamUtil DEFAULT_INPUT_LOCAL_PATH, []) = Ok (u1, i) /\
       for_each (add_file_arg true) inputs_recur (u1, []) = Ok (u2, ri) /\
       _auto_index u1 <= _auto_index u2).
Proof.
  split_and!.
  - intros h envs v0 v1 v2 rins outs routs job H0 H1 H2 Hjob.
    apply args_to_job_params_ok in Hjob as [Hargs _].
    apply parse_args_ok in Hargs as (u1 & _ & _ & _ & _ & Hin & _).
    simpl in Hin.
    destruct (add_file_arg false _ v0) as [st0|?] eqn:E0; simpl in Hin; [|done].
    apply (add_file_arg_bare _ _ _ _ _ H0) in E0 as (p0 & Hn0 & Hv0 & ->).
    destruct (add_file_arg false _ v1) as [st1|?] eqn:E1; simpl in Hin; [|done].
    apply (add_file_arg_bare _ _ _ _ _ H1) in E1 as (p1 & Hn1 & Hv1 & ->).
    destruct (add_file_arg false _ v2) as [st2|?] eqn:E2; simpl in Hin; [|done].
    apply (add_file_arg_bare _ _ _ _ _ H2) in E2 as (p2 & Hn2 & Hv2 & ->).
    simpl in Hn0, Hn1, Hn2. injection Hin as _ <-.
    change (set_add FileParam_eqb p0 []) with [p0].
    rewrite (set_add_fresh_name p1 [p0]).
    2: { intros q ->%list_elem_of_singleton. by rewrite Hn0, Hn1. }
    rewrite (set_add_fresh_name p2).
    2: { intros q [->| ->%list_elem_of_singleton]%elem_of_cons;
           by rewrite Hn2, ?Hn0, ?Hn1. }
    simpl. by rewrite Hn0, Hn1, Hn2, Hv0, Hv1, Hv2.
  - intros self name. apply get_variable_name_index.
  - intros r args util util' sink sink' H.
    by apply for_each_add_file_arg_index in H as [? _].
  - intros envs ins rins outs routs e i ri o ro H.
    apply parse_args_ok in H as (u1 & u2 & _ & _ & _ & Hi & Hri & _).
    exists u1, u2. split_and!; [done..|].
    by apply for_each_add_file_arg_index in Hri as [? _].
Qed.

Lemma C8_auto_naming_in_encounter_order_witness :
  exists job,
    args_to_job_params insertion_order []
      [str "gs://bucket/a.txt"; str "gs://bucket/b.txt"; str "gs://bucket/c.txt"]
      [] [] [] = Ok job /\
    (fun f => (fp_name f, fp_value f)) <$> inputs job
    = [(str "INPUT_0", Some (str "gs://bucket/a.txt"));
       (str "INPUT_1", Some (str "gs://bucket/b.txt"));
       (str "INPUT_2", Some (str "gs://bucket/c.txt"))].
Proof.
  eexists. split.
  - vm_compute. reflexivity.
  - apply (proj1 C8_auto_naming_in_encounter_order insertion_order []
             (str "gs://bucket/a.txt") (str "gs://bucket/b.txt")
             (str "gs://bucket/c.txt") [] [] []).
    + reflexivity.
    + reflexivity.
    + reflexivity.
    + vm_compute. reflexivity.
Defined.

(** ** The action builder *)

(** C5 (as amended): the stage-in and the stage-out action embed a script
    that starts with the errexit / nounset / pipefail preamble; the commands
    of a user step are the caller's command tokens, unchanged, with no
    preamble added. *)
Theorem C5_preamble_in_staging_actions (h : hash_order) (a : Action)
    (d : ActionDict) :
  to_dict h a = Ok d ->
  match a with
  | UserAction _ _ _ command => act_commands d = command
  | LocalizeAction _ | DelocalizeAction _ =>
      exists copy_commands,
        act_commands d
        = [str "-c"; GENERIC_BASH_SCRIPT_CMD (str_join [NL] copy_commands)] /\
        startswith (GENERIC_BASH_SCRIPT_CMD (str_join [NL] copy_commands))
                   BASH_PREAMBLE = true
  end.
Proof.
  unfold to_dict.
  destruct (make_commands h a) as [cmds|?] eqn:Hc; simpl; [|done].
  intros [= <-]. simpl.
  destruct a as [config|config|config aname image command]; simpl in Hc.
  - destruct (for_each _ (iter_file h (inputs config)) []) as [c1|?];
      simpl in Hc; [|done].
    destruct (for_each _ (iter_file h (recursive_inputs config)) c1) as [c2|?];
      simpl in Hc; [|done].
    injection Hc as <-. exists c2. split; [done | reflexivity].
  - destruct (for_each _ (iter_file h (outputs config)) []) as [c1|?];
      simpl in Hc; [|done].
    destruct (for_each _ (iter_file h (recursive_outputs config)) c1) as [c2|?];
      simpl in Hc; [|done].
    injection Hc as <-. exists c2. split; [done | reflexivity].
  - by injection Hc.
Qed.

Lemma C5_preamble_in_staging_actions_witness :
  let f := {| fp_name := str "F1";
              fp_value := Some (str "gs://mybucket/myfile.txt");
              fp_docker_path := Some (str "gs/mybucket/myfile.txt");
              fp_uri := Some {| uri_path := str "gs://mybucket/";
                                uri_basename := str "myfile.txt" |};
              fp_recursive := false |} in
  let job := {| envs := []; inputs := [f]; recursive_inputs := [];
                outputs := []; recursive_outputs := [] |} in
  let copy := str "gsutil -mq cp " ++ [DQUOTE] ++ str "gs://mybucket/myfile.txt"
              ++ [DQUOTE] ++ str " " ++ [DQUOTE]
              ++ str "/mnt/data/gs/mybucket/myfile.txt" ++ [DQUOTE] in
  exists copy_commands,
    [str "-c"; GENERIC_BASH_SCRIPT_CMD copy]
    = [str "-c"; GENERIC_BASH_SCRIPT_CMD (str_join [NL] copy_commands)] /\
    startswith (GENERIC_BASH_SCRIPT_CMD (str_join [NL] copy_commands))
               BASH_PREAMBLE = true.
Proof.
  cbv zeta.
  apply (C5_preamble_in_staging_actions insertion_order
           (LocalizeAction
              {| envs := [];
                 inputs :=
                   [ {| fp_name := str "F1";
                        fp_value := Some (str "gs://mybucket/myfile.txt");
                        fp_docker_path := Some (str "gs/mybucket/myfile.txt");
                        fp_uri := Some {| uri_path := str "gs://mybucket/";
                                          uri_basename := str "myfile.txt" |};
                        fp_recursive := false |} ];
                 recursive_inputs := []; outputs := [];
                 recursive_outputs := [] |})
           {| act_name := str "localize";
              act_imageUri := CLOUD_SDK_IMAGE;
              act_commands :=
                [str "-c";
                 GENERIC_BASH_SCRIPT_CMD
                   (str "gsutil -mq cp " ++ [DQUOTE]
                    ++ str "gs://mybucket/myfile.txt" ++ [DQUOTE] ++ str " "
                    ++ [DQUOTE] ++ str "/mnt/data/gs/mybucket/myfile.txt"
                    ++ [DQUOTE])];
              act_environment := ∅;
              act_flags := [];
              act_mounts := [ {| mount_disk := DATA_DISK_NAME;
                                 mount_path := DATA_DISK_MOUNT;
                                 mount_readOnly := false |} ];
              act_timeout := ONE_DAY;
              act_entrypoint := Some (str "/bin/bash") |}).
  reflexivity.
Defined.

(** C5 (as stated) fails on a user step: its commands are the caller's
    tokens and none of them holds a line of the preamble. *)
Lemma C5_counterexample :
  let job := {| envs := []; inputs := []; recursive_inputs := [];
                outputs := []; recursive_outputs := [] |} in
  let command := [str "/bin/bash"; str "-c"; str "echo hello | cat"] in
  to_dict insertion_order
          (UserAction job (str "evan-run") (str "debian:stable-slim") command)
  = Ok {| act_name := str "evan-run";
          act_imageUri := str "debian:stable-slim";
          act_commands := command;
          act_environment := ∅;
          act_flags := [];
          act_mounts := [ {| mount_disk := DATA_DISK_NAME;
                             mount_path := DATA_DISK_MOUNT;
                             mount_readOnly := false |} ];
          act_timeout := ONE_DAY;
          act_entrypoint := Some (str "/bin/bash") |} /\
  forallb (fun token =>
             negb (contains (str "errexit") token)
             && negb (contains (str "nounset") token)
             && negb (contains (str "pipefail") token)) command = true.
Proof. cbv zeta. split; reflexivity. Qed.

(** ** The environment merge *)

Lemma binding_name (v : Param) : (binding v).1 = param_name v.
Proof. by destruct v. Qed.

Lemma bind_env_ok (envs : gmap pystr (option pystr)) (v : Param) :
  (forall f, v = PFile f -> is_Some (fp_docker_path f)) ->
  bind_env envs v = Ok (<[(binding v).1 := (binding v).2]> envs).
Proof.
  destruct v as [e|f]; simpl; [done|].
  intros H. by destruct (H f eq_refl) as [d ->].
Qed.

Lemma for_each_bind_env_ok (l : list Param) (envs : gmap pystr (option pystr)) :
  (forall f, PFile f ∈ l -> is_Some (fp_docker_path f)) ->
  for_each bind_env l envs = Ok (bound_envs l envs).
Proof.
  revert envs. induction l as [|v l IH]; intros envs H; simpl; [done|].
  rewrite bind_env_ok.
  - simpl. apply IH. intros f Hf. apply H. by right.
  - intros f ->. apply H. by left.
Qed.

Lemma bound_envs_app (l1 l2 : list Param) (envs : gmap pystr (option pystr)) :
  bound_envs (l1 ++ l2) envs = bound_envs l2 (bound_envs l1 envs).
Proof. apply foldl_app. Qed.

Lemma bound_envs_other (l : list Param) (envs : gmap pystr (option pystr))
    (k : pystr) :
  (forall w, w ∈ l -> param_name w ≠ k) ->
  bound_envs l envs !! k = envs !! k.
Proof.
  revert envs. induction l as [|v l IH]; intros envs H; simpl; [done|].
  rewrite IH by (intros w Hw; apply H; by right).
  apply lookup_insert_ne. rewrite binding_name. apply H. by left.
Qed.

(** The parameter visited last among those of one name decides the
    binding. *)
Lemma bound_envs_last (before after : list Param) (v : Param)
    (envs : gmap pystr (option pystr)) :
  (forall w, w ∈ after -> param_name w ≠ param_name v) ->
  bound_envs (before ++ v :: after) envs !! param_name v = Some (binding v).2.
Proof.
  intros H. rewrite bound_envs_app. simpl.
  rewrite bound_envs_other by done.
  rewrite binding_name. apply lookup_insert_eq.
Qed.

Lemma files_visited (h : hash_order) (job : JobParams) (f : FileParam) :
  PFile f ∈ visit_order h (values job) -> f ∈ job_files job.
Proof.
  unfold job_files, visit_order, values. simpl.
  rewrite app_nil_r, !elem_of_app.
  intros [H|[H|[H|[H|H]]]];
    apply list_elem_of_fmap in H as (x & Hx & Hin); [done|..];
    injection Hx as ->; rewrite iter_file_perm in Hin; tauto.
Qed.

Lemma merge_envs_ok (h : hash_order) (job : JobParams) :
  (forall f, f ∈ job_files job -> is_Some (fp_docker_path f)) ->
  merge_envs h job = Ok (bound_envs (visit_order h (values job)) ∅).
Proof.
  intros H. rewrite merge_envs_visit. apply for_each_bind_env_ok.
  intros f Hf. apply H. by apply files_visited in Hf.
Qed.

(** C2 (as amended): [create_pipeline_request] does not check the names
    again.  On a job whose file parameters all have a mount path, with
    actions that convert, it returns a document, also when two parameters
    share a name: the environment then binds each name to the value of the
    parameter visited last among those that have it.  (Uniqueness of the
    names is what [JobParams] checks when it is built.) *)
Theorem C2_assembly_overwrites_shared_names
    (h : hash_order) (res : ResourcesConfig) (job : JobParams)
    (actions : list Action) (timeout : pystr) (acts : list ActionDict) :
  (forall f, f ∈ job_files job -> is_Some (fp_docker_path f)) ->
  actions_to_dicts h actions = Ok acts ->
  exists doc,
    create_pipeline_request h res job actions timeout = Ok doc /\
    forall before v after,
      visit_order h (values job) = before ++ v :: after ->
      (forall w, w ∈ after -> param_name w ≠ param_name v) ->
      pl_environment (pipeline doc) !! param_name v = Some (binding v).2.
Proof.
  intros Hpaths Hacts. unfold create_pipeline_request.
  rewrite (merge_envs_ok h job Hpaths). simpl. rewrite Hacts. simpl.
  eexists. split; [reflexivity|]. simpl.
  intros before v after -> Hlast. by apply bound_envs_last.
Qed.

Lemma C2_assembly_overwrites_shared_names_witness :
  let fin := {| fp_name := str "F"; fp_value := Some (str "gs://b/x");
                fp_docker_path := Some (str "gs/b/x");
                fp_uri := Some {| uri_path := str "gs://b/";
                                  uri_basename := str "x" |};
                fp_recursive := false |} in
  let fout := {| fp_name := str "F"; fp_value := Some (str "gs://b/y");
                 fp_docker_path := Some (str "gs/b/y");
                 fp_uri := Some {| uri_path := str "gs://b/";
                                   uri_basename := str "y" |};
                 fp_recursive := false |} in
  let job := {| envs := []; inputs := [fin]; recursive_inputs := [];
                outputs := [fout]; recursive_outputs := [] |} in
  let res := new_ResourcesConfig (str "dros-helper") (str "us-west1")
               DEFAULT_MACHINE_TYPE DEFAULT_DISK_SIZE None
               (ScopeStr DEFAULT_SCOPE) in
  exists doc,
    create_pipeline_request insertion_order res job [] SEVEN_DAYS = Ok doc /\
    forall before v after,
      visit_order insertion_order (values job) = before ++ v :: after ->
      (forall w, w ∈ after -> param_name w ≠ param_name v) ->
      pl_environment (pipeline doc) !! param_name v = Some (binding v).2.
Proof.
  cbv zeta.
  apply (C2_assembly_overwrites_shared_names insertion_order _ _ [] SEVEN_DAYS []).
  - intros f Hf. unfold job_files in Hf. simpl in Hf.
    apply elem_of_cons in Hf as [->|Hf]; [by eexists|].
    apply list_elem_of_singleton in Hf as ->. by eexists.
  - reflexivity.
Defined.

(** C2 (as stated) fails: an input and an output that share the name [F]
    are assembled into a document, and the binding of the output has
    overwritten that of the input. *)
Lemma C2_counterexample :
  let fin := {| fp_name := str "F"; fp_value := Some (str "gs://b/x");
                fp_docker_path := Some (str "gs/b/x");
                fp_uri := Some {| uri_path := str "gs://b/";
                                  uri_basename := str "x" |};
                fp_recursive := false |} in
  let fout := {| fp_name := str "F"; fp_value := Some (str "gs://b/y");
                 fp_docker_path := Some (str "gs/b/y");
                 fp_uri := Some {| uri_path := str "gs://b/";
                                   uri_basename := str "y" |};
                 fp_recursive := false |} in
  let job := {| envs := []; inputs := [fin]; recursive_inputs := [];
                outputs := [fout]; recursive_outputs := [] |} in
  let res := new_ResourcesConfig (str "dros-helper") (str "us-west1")
               DEFAULT_MACHINE_TYPE DEFAULT_DISK_SIZE None
               (ScopeStr DEFAULT_SCOPE) in
  shared_name (str "F") (job_members job) /\
  create_pipeline_request insertion_order res job [] SEVEN_DAYS
  = Ok {| pipeline :=
            {| pl_actions := [];
               pl_resources := _create_resources res;
               pl_environment := {[ str "F" := Some (str "/mnt/data/gs/b/y") ]};
               pl_timeout := SEVEN_DAYS |};
          labels := {[ str "minsub" := str "v1" ]} |}.
Proof.
  cbv zeta. split.
  - unfold shared_name. vm_compute. lia.
  - unfold create_pipeline_request, merge_envs. simpl.
    by rewrite insert_insert_eq, insert_empty.
Qed.

(** ** The collision check *)

Lemma foldl_nested {A B S} (f : S -> A -> S) (g : B -> list A)
    (l : list B) (s : S) :
  foldl (fun s b => foldl f s (g b)) s l = foldl f s (concat (g <$> l)).
Proof.
  revert s. induction l as [|b l IH]; intros s; simpl; [done|].
  by rewrite foldl_app, IH.
Qed.

Lemma collect_duplicates_visit (h : hash_order) (allinputs : list container) :
  collect_duplicates h allinputs
  = foldl note_name (∅, []) (visit_order h allinputs).
Proof. apply foldl_nested. Qed.

(** What the loop of [_check_for_collisions] leaves in [duplicates]: the
    names that were there, those met in the loop that were known before
    it, and those met twice in the loop. *)
Lemma note_name_duplicates (l : list Param) :
  forall (K K' : gset pystr) (D D' : list pystr),
    foldl note_name (K, D) l = (K', D') ->
    forall n,
      n ∈ D' <->
      n ∈ D \/
      (n ∈ K /\ 1 <= length (filter (fun v => param_name v = n) l)) \/
      2 <= length (filter (fun v => param_name v = n) l).
Proof.
  induction l as [|v l IH]; intros K K' D D' H n.
  - simpl in H. injection H as <- <-. simpl. intuition lia.
  - simpl in H. rewrite filter_cons.
    destruct (decide (param_name v ∉ K)) as [Hnew|Hold].
    + rewrite (IH _ _ _ _ H n). rewrite elem_of_union, elem_of_singleton.
      destruct (decide (param_name v = n)) as [<-|Hne]; simpl.
      * intuition lia.
      * intuition (try lia; try congruence).
    + apply dec_stable in Hold.
      rewrite (IH _ _ _ _ H n). rewrite elem_of_app, list_elem_of_singleton.
      destruct (decide (param_name v = n)) as [<-|Hne]; simpl.
      * intuition lia.
      * intuition (try lia; try congruence).
Qed.

Lemma check_for_collisions_ok (h : hash_order) (allinputs : list container) :
  _check_for_collisions h allinputs = Ok tt ->
  forall n, ~ shared_name n (visit_order h allinputs).
Proof.
  unfold _check_for_collisions. rewrite collect_duplicates_visit.
  destruct (foldl note_name _ _) as [K' D'] eqn:E.
  destruct D' as [|d D']; [|done]. intros _ n Hn.
  pose proof (note_name_duplicates _ _ _ _ _ E n) as Hspec.
  assert (n ∈ @nil pystr) as Habs by (apply Hspec; by do 2 right).
  by apply elem_of_nil in Habs.
Qed.

Lemma check_for_collisions_shared (h : hash_order)
    (allinputs : list container) (n : pystr) :
  shared_name n (visit_order h allinputs) ->
  exists duplicates,
    _check_for_collisions h allinputs
    = Raise (ValueError (str "Bad job config; duplicate names found: %r")
                        duplicates) /\
    forall m, m ∈ duplicates <-> shared_name m (visit_order h allinputs).
Proof.
  intros Hn. unfold _check_for_collisions. rewrite collect_duplicates_visit.
  destruct (foldl note_name _ _) as [K' D'] eqn:E.
  pose proof (note_name_duplicates _ _ _ _ _ E) as Hspec.
  assert (forall m, m ∈ D' <-> shared_name m (visit_order h allinputs)) as Hd.
  { intros m. rewrite Hspec. unfold shared_name.
    rewrite elem_of_nil, elem_of_empty. tauto. }
  destruct D' as [|d D'].
  - apply Hd in Hn. by apply elem_of_nil in Hn.
  - by exists (d :: D').
Qed.

Lemma visit_order_members (h : hash_order) (job : JobParams) :
  visit_order h (values job) ≡ₚ job_members job.
Proof.
  unfold visit_order, values, job_members, job_files. simpl.
  rewrite app_nil_r, !fmap_app.
  by rewrite iter_env_perm, !iter_file_perm.
Qed.

Lemma shared_name_perm (n : pystr) (l1 l2 : list Param) :
  l1 ≡ₚ l2 -> shared_name n l1 <-> shared_name n l2.
Proof. intros H. unfold shared_name. by rewrite H. Qed.

(** C4: when the raw flags yield the five collections and two of their
    parameters share a name, the construction of the job parameters fails
    with the collision error, and the names listed in it are exactly the
    names that two or more parameters share: all of them, not the first
    one met. *)
Theorem C4_collision_error_lists_every_shared_name
    (h : hash_order)
    (env_args in_args rin_args out_args rout_args : list pystr)
    (e : pyset EnvParam) (i ri o ro : pyset FileParam) (n : pystr) :
  let job := {| envs := e; inputs := i; recursive_inputs := ri;
                outputs := o; recursive_outputs := ro |} in
  parse_args env_args in_args rin_args out_args rout_args
  = Ok (e, i, ri, o, ro) ->
  shared_name n (job_members job) ->
  exists duplicates,
    new_JobParams h e i ri o ro
    = Raise (ValueError (str "Bad job config; duplicate names found: %r")
                        duplicates) /\
    args_to_job_params h env_args in_args rin_args out_args rout_args
    = Raise (ValueError (str "Bad job config; duplicate names found: %r")
                        duplicates) /\
    n ∈ duplicates /\
    forall m, m ∈ duplicates <-> shared_name m (job_members job).
Proof.
  intros job Hargs Hn.
  rewrite <- (shared_name_perm _ _ _ (visit_order_members h job)) in Hn.
  destruct (check_for_collisions_shared h (values job) n Hn)
    as (dups & Hraise & Hdups).
  exists dups.
  assert (new_JobParams h e i ri o ro
          = Raise (ValueError (str "Bad job config; duplicate names found: %r")
                              dups)) as Hnew.
  { unfold new_JobParams. change [EnvSet e; _; _; _; _] with (values job).
    by rewrite Hraise. }
  split_and!.
  - done.
  - rewrite args_to_job_params_eq, Hargs. simpl. exact Hnew.
  - by apply Hdups.
  - intros m. rewrite Hdups. apply shared_name_perm, visit_order_members.
Qed.

Lemma C4_collision_error_lists_every_shared_name_witness :
  exists duplicates,
    args_to_job_params insertion_order
      [str "F=1"; str "G=2"] [str "F=gs://b/x"] [] [str "G=gs://b/y"] []
    = Raise (ValueError (str "Bad job config; duplicate names found: %r")
                        duplicates) /\
    str "F" ∈ duplicates.
Proof.
  edestruct (C4_collision_error_lists_every_shared_name insertion_order
               [str "F=1"; str "G=2"] [str "F=gs://b/x"] []
               [str "G=gs://b/y"] [])
    with (n := str "F") as (duplicates & _ & Hargs & Hin & _).
  - vm_compute. reflexivity.
  - unfold shared_name. vm_compute. lia.
  - exists duplicates. split; [exact Hargs | exact Hin].
Defined.

(** Both shared names are reported. *)
Example collision_lists_both_names :
  args_to_job_params insertion_order
    [str "F=1"; str "G=2"] [str "F=gs://b/x"] [] [str "G=gs://b/y"] []
  = Raise (ValueError (str "Bad job config; duplicate names found: %r")
                      [str "F"; str "G"]).
Proof. vm_compute. reflexivity. Qed.

Lemma check_for_collisions_iff (h : hash_order) (allinputs : list container) :
  _check_for_collisions h allinputs = Ok tt <->
  forall n, ~ shared_name n (visit_order h allinputs).
Proof.
  split; [apply check_for_collisions_ok|].
  intros Hnone. unfold _check_for_collisions. rewrite collect_duplicates_visit.
  destruct (foldl note_name _ _) as [K' D'] eqn:E.
  destruct D' as [|d D']; [done|]. exfalso.
  pose proof (note_name_duplicates _ _ _ _ _ E d) as Hspec.
  rewrite elem_of_nil, elem_of_empty in Hspec.
  apply (Hnone d). unfold shared_name.
  assert (d ∈ d :: D') as Hd by left. apply Hspec in Hd. tauto.
Qed.

(** The collision check passes in one run exactly when it passes in
    another. *)
Lemma check_for_collisions_any_order (h1 h2 : hash_order) (job : JobParams) :
  _check_for_collisions h1 (values job) = Ok tt ->
  _check_for_collisions h2 (values job) = Ok tt.
Proof.
  rewrite !check_for_collisions_iff. intros H n.
  rewrite (shared_name_perm n _ _ (visit_order_members h2 job)).
  rewrite <- (shared_name_perm n _ _ (visit_order_members h1 job)).
  apply H.
Qed.

Lemma args_to_job_params_any_order (h1 h2 : hash_order)
    (env_args in_args rin_args out_args rout_args : list pystr)
    (job : JobParams) :
  args_to_job_params h1 env_args in_args rin_args out_args rout_args = Ok job ->
  args_to_job_params h2 env_args in_args rin_args out_args rout_args = Ok job.
Proof.
  intros H. apply args_to_job_params_ok in H as [Hargs Hcheck].
  rewrite args_to_job_params_eq, Hargs. simpl. unfold new_JobParams.
  change [EnvSet (envs job); _; _; _; _] with (values job).
  rewrite (check_for_collisions_any_order h1 h2 job Hcheck). simpl.
  by destruct job.
Qed.

(** ** Runs that differ in the order of iteration *)

Lemma not_shared_split (before after : list Param) (v : Param) :
  ~ shared_name (param_name v) (before ++ v :: after) ->
  forall w, w ∈ after -> param_name w ≠ param_name v.
Proof.
  intros Hns w Hw Heq. apply Hns. unfold shared_name.
  rewrite filter_app, filter_cons_True by done.
  rewrite length_app. simpl.
  assert (w ∈ filter (fun x => param_name x = param_name v) after) as Hf.
  { by apply list_elem_of_filter. }
  destruct (filter _ after); [by apply elem_of_nil in Hf | simpl; lia].
Qed.

Lemma bound_envs_perm (l1 l2 : list Param) :
  l1 ≡ₚ l2 ->
  (forall n, ~ shared_name n l1) ->
  bound_envs l1 ∅ = bound_envs l2 ∅.
Proof.
  intros Hperm Hns1.
  assert (forall n, ~ shared_name n l2) as Hns2.
  { intros n. rewrite <- (shared_name_perm n _ _ Hperm). apply Hns1. }
  apply map_eq. intros k.
  destruct (decide (k ∈ param_name <$> l1)) as [Hin|Hout].
  - apply list_elem_of_fmap in Hin as (v & -> & Hv).
    assert (v ∈ l2) as Hv2 by (by rewrite <- Hperm).
    apply list_elem_of_split in Hv as (b1 & a1 & ->).
    apply list_elem_of_split in Hv2 as (b2 & a2 & ->).
    rewrite (bound_envs_last b1 a1 v) by apply (not_shared_split b1), Hns1.
    by rewrite (bound_envs_last b2 a2 v) by apply (not_shared_split b2), Hns2.
  - assert (forall w, w ∈ l1 -> param_name w ≠ k) as H1.
    { intros w Hw <-. apply Hout. by apply list_elem_of_fmap_2. }
    rewrite !bound_envs_other; [done | | done].
    intros w Hw. apply H1. by rewrite Hperm.
Qed.

Lemma merge_envs_paths (h : hash_order) (job : JobParams)
    (envs : gmap pystr (option pystr)) :
  merge_envs h job = Ok envs ->
  forall f, f ∈ job_files job -> is_Some (fp_docker_path f).
Proof.
  intros H f Hf. destruct (fp_docker_path f) as [d|] eqn:E; [by eexists|].
  rewrite merge_envs_visit in H.
  rewrite (for_each_bind_env_unset _ f) in H; [done | | done].
  by apply job_files_visited.
Qed.

Lemma merge_envs_any_order (h1 h2 : hash_order) (job : JobParams)
    (envs : gmap pystr (option pystr)) :
  _check_for_collisions h1 (values job) = Ok tt ->
  merge_envs h1 job = Ok envs -> merge_envs h2 job = Ok envs.
Proof.
  intros Hcheck H.
  pose proof (merge_envs_paths _ _ _ H) as Hpaths.
  rewrite (merge_envs_ok h1 job Hpaths) in H. injection H as <-.
  rewrite (merge_envs_ok h2 job Hpaths). f_equal. symmetry.
  apply bound_envs_perm.
  - by rewrite !visit_order_members.
  - by apply check_for_collisions_iff.
Qed.

Lemma for_each_cons {A S} (body : S -> A -> result S) (a : A) (l : list A)
    (s : S) :
  for_each body (a :: l) s = (s' ← body s a; for_each body l s').
Proof. reflexivity. Qed.

Lemma localize_cmd_unfold (verb : pystr) (acc : list pystr) (f : FileParam) :
  localize_cmd verb acc f =
  match fp_docker_path f with
  | Some _ => Ok (acc ++ [localize_line verb f])
  | None => Raise TypeError
  end.
Proof.
  unfold localize_cmd, localize_line. by destruct (fp_docker_path f).
Qed.

Lemma delocalize_cmd_unfold (verb : pystr) (acc : list pystr) (f : FileParam) :
  delocalize_cmd verb acc f =
  match fp_docker_path f with
  | Some _ => Ok (acc ++ [delocalize_line verb f])
  | None => Raise TypeError
  end.
Proof.
  unfold delocalize_cmd, delocalize_line. by destruct (fp_docker_path f).
Qed.

Lemma for_each_localize_cmd (verb : pystr) (l : list FileParam)
    (acc : list pystr) :
  match for_each (localize_cmd verb) l acc with
  | Ok r =>
      Forall (fun f => is_Some (fp_docker_path f)) l /\
      r = acc ++ (localize_line verb <$> l)
  | Raise _ => ~ Forall (fun f => is_Some (fp_docker_path f)) l
  end.
Proof.
  revert acc. induction l as [|f l IH]; intros acc.
  - simpl. by rewrite app_nil_r.
  - rewrite for_each_cons, localize_cmd_unfold.
    destruct (fp_docker_path f) as [d|] eqn:E.
    + change (Ok ?x ≫= ?k) with (k x). cbv beta.
      specialize (IH (acc ++ [localize_line verb f])).
      destruct (for_each _ l _) as [r|?].
      * destruct IH as [Hall ->]. split.
        -- constructor; [by rewrite E | done].
        -- by rewrite <- app_assoc.
      * intros Hall. apply IH. by inversion Hall.
    + intros Hall. inversion Hall as [|?? [d Hd]]; subst. congruence.
Qed.

Lemma for_each_delocalize_cmd (verb : pystr) (l : list FileParam)
    (acc : list pystr) :
  match for_each (delocalize_cmd verb) l acc with
  | Ok r =>
      Forall (fun f => is_Some (fp_docker_path f)) l /\
      r = acc ++ (delocalize_line verb <$> l)
  | Raise _ => ~ Forall (fun f => is_Some (fp_docker_path f)) l
  end.
Proof.
  revert acc. induction l as [|f l IH]; intros acc.
  - simpl. by rewrite app_nil_r.
  - rewrite for_each_cons, delocalize_cmd_unfold.
    destruct (fp_docker_path f) as [d|] eqn:E.
    + change (Ok ?x ≫= ?k) with (k x). cbv beta.
      specialize (IH (acc ++ [delocalize_line verb f])).
      destruct (for_each _ l _) as [r|?].
      * destruct IH as [Hall ->]. split.
        -- constructor; [by rewrite E | done].
        -- by rewrite <- app_assoc.
      * intros Hall. apply IH. by inversion Hall.
    + intros Hall. inversion Hall as [|?? [d Hd]]; subst. congruence.
Qed.

Lemma make_commands_any_order (h1 h2 : hash_order) (a : Action)
    (c1 : list pystr) :
  make_commands h1 a = Ok c1 ->
  exists c2,
    make_commands h2 a = Ok c2 /\
    (c1 = c2 \/
     exists l1 l2,
       c1 = script_commands l1 /\ c2 = script_commands l2 /\ l1 ≡ₚ l2).
Proof.
  destruct a as [config|config|config aname image command];
    unfold make_commands.
  - pose proof (for_each_localize_cmd (str "cp")
                  (iter_file h1 (inputs config)) []) as A1.
    destruct (for_each _ (iter_file h1 (inputs config)) []) as [r1|?];
      [|done].
    destruct A1 as [A1 ->]. change (Ok ?x ≫= ?k) with (k x). cbv beta.
    pose proof (for_each_localize_cmd (str "rsync -r")
                  (iter_file h1 (recursive_inputs config))
                  ([] ++ (localize_line (str "cp")
                            <$> iter_file h1 (inputs config)))) as B1.
    destruct (for_each _ (iter_file h1 (recursive_inputs config)) _) as [s1|?];
      [|done].
    destruct B1 as [B1 ->]. intros [= <-].
    pose proof (for_each_localize_cmd (str "cp")
                  (iter_file h2 (inputs config)) []) as A2.
    destruct (for_each _ (iter_file h2 (inputs config)) []) as [r2|?].
    2: { exfalso. apply A2. rewrite iter_file_perm.
         by rewrite iter_file_perm in A1. }
    destruct A2 as [A2 ->]. change (Ok ?x ≫= ?k) with (k x). cbv beta.
    pose proof (for_each_localize_cmd (str "rsync -r")
                  (iter_file h2 (recursive_inputs config))
                  ([] ++ (localize_line (str "cp")
                            <$> iter_file h2 (inputs config)))) as B2.
    destruct (for_each _ (iter_file h2 (recursive_inputs config)) _) as [s2|?].
    2: { exfalso. apply B2. rewrite iter_file_perm.
         by rewrite iter_file_perm in B1. }
    destruct B2 as [B2 ->]. eexists. split; [reflexivity|]. right.
    do 2 eexists. split_and!; [reflexivity..|].
    by rewrite !iter_file_perm.
  - pose proof (for_each_delocalize_cmd (str "cp")
                  (iter_file h1 (outputs config)) []) as A1.
    destruct (for_each _ (iter_file h1 (outputs config)) []) as [r1|?];
      [|done].
    destruct A1 as [A1 ->]. change (Ok ?x ≫= ?k) with (k x). cbv beta.
    pose proof (for_each_delocalize_cmd (str "rsync -r")
                  (iter_file h1 (recursive_outputs config))
                  ([] ++ (delocalize_line (str "cp")
                            <$> iter_file h1 (outputs config)))) as B1.
    destruct (for_each _ (iter_file h1 (recursive_outputs config)) _) as [s1|?];
      [|done].
    destruct B1 as [B1 ->]. intros [= <-].
    pose proof (for_each_delocalize_cmd (str "cp")
                  (iter_file h2 (outputs config)) []) as A2.
    destruct (for_each _ (iter_file h2 (outputs config)) []) as [r2|?].
    2: { exfalso. apply A2. rewrite iter_file_perm.
         by rewrite iter_file_perm in A1. }
    destruct A2 as [A2 ->]. change (Ok ?x ≫= ?k) with (k x). cbv beta.
    pose proof (for_each_delocalize_cmd (str "rsync -r")
                  (iter_file h2 (recursive_outputs config))
                  ([] ++ (delocalize_line (str "cp")
                            <$> iter_file h2 (outputs config)))) as B2.
    destruct (for_each _ (iter_file h2 (recursive_outputs config)) _) as [s2|?].
    2: { exfalso. apply B2. rewrite iter_file_perm.
         by rewrite iter_file_perm in B1. }
    destruct B2 as [B2 ->]. eexists. split; [reflexivity|]. right.
    do 2 eexists. split_and!; [reflexivity..|].
    by rewrite !iter_file_perm.
  - intros [= <-]. exists command. split; [done | by left].
Qed.

Lemma to_dict_any_order (h1 h2 : hash_order) (a : Action) (d1 : ActionDict) :
  to_dict h1 a = Ok d1 ->
  exists d2, to_dict h2 a = Ok d2 /\ same_action_up_to_copy_order d1 d2.
Proof.
  unfold to_dict.
  destruct (make_commands h1 a) as [c1|?] eqn:E1; [|done].
  destruct (make_commands_any_order h1 h2 a c1 E1) as (c2 & -> & Hc).
  intros [= <-]. eexists. split; [reflexivity|].
  unfold same_action_up_to_copy_order. simpl. split_and!; done.
Qed.

Lemma actions_to_dicts_any_order (h1 h2 : hash_order) (actions : list Action)
    (acts1 : list ActionDict) :
  actions_to_dicts h1 actions = Ok acts1 ->
  exists acts2,
    actions_to_dicts h2 actions = Ok acts2 /\
    Forall2 same_action_up_to_copy_order acts1 acts2.
Proof.
  revert acts1. induction actions as [|a actions IH]; intros acts1; simpl.
  - intros [= <-]. exists []. by split.
  - destruct (to_dict h1 a) as [d1|?] eqn:Ea; [|done].
    destruct (to_dict_any_order h1 h2 a d1 Ea) as (d2 & -> & Hd).
    change (Ok ?x ≫= ?k) with (k x). cbv beta.
    destruct (actions_to_dicts h1 actions) as [ds1|?]; [|done].
    destruct (IH ds1 eq_refl) as (ds2 & -> & Hds).
    intros [= <-]. exists (d2 :: ds2). split; [done | by constructor].
Qed.

Lemma create_pipeline_request_any_order (h1 h2 : hash_order)
    (res : ResourcesConfig) (job : JobParams) (actions : list Action)
    (timeout : pystr) (d1 : RequestDocument) :
  _check_for_collisions h1 (values job) = Ok tt ->
  create_pipeline_request h1 res job actions timeout = Ok d1 ->
  exists d2,
    create_pipeline_request h2 res job actions timeout = Ok d2 /\
    same_document_up_to_copy_order d1 d2.
Proof.
  intros Hcheck. unfold create_pipeline_request.
  destruct (merge_envs h1 job) as [envs1|?] eqn:Em; [|done].
  rewrite (merge_envs_any_order h1 h2 job envs1 Hcheck Em).
  change (Ok ?x ≫= ?k) with (k x). cbv beta.
  destruct (actions_to_dicts h1 actions) as [acts1|?] eqn:Ea; [|done].
  destruct (actions_to_dicts_any_order h1 h2 actions acts1 Ea)
    as (acts2 & -> & Hacts).
  intros [= <-]. eexists. split; [reflexivity|].
  unfold same_document_up_to_copy_order. simpl. split_and!; done.
Qed.

Lemma run_pipeline_any_order (h1 h2 : hash_order)
    (env_args in_args rin_args out_args rout_args : list pystr)
    (res : ResourcesConfig) (steps : list (pystr * pystr * list pystr))
    (timeout : pystr) (d1 : RequestDocument) :
  run_pipeline h1 env_args in_args rin_args out_args rout_args res steps timeout
  = Ok d1 ->
  exists d2,
    run_pipeline h2 env_args in_args rin_args out_args rout_args res steps
                 timeout = Ok d2 /\
    same_document_up_to_copy_order d1 d2.
Proof.
  unfold run_pipeline.
  destruct (args_to_job_params h1 _ _ _ _ _) as [job|?] eqn:Ej; [|done].
  rewrite (args_to_job_params_any_order h1 h2 _ _ _ _ _ job Ej).
  change (Ok ?x ≫= ?k) with (k x). cbv beta.
  apply args_to_job_params_ok in Ej as [_ Hcheck].
  by apply create_pipeline_request_any_order.
Qed.

(** C6 (as amended): two runs over equal inputs both fail or both produce a
    request document, and the two documents have the same labels, resources,
    environment and timeout and, action for action, the same fields, except
    that the copy commands inside the stage-in and the stage-out script may
    come in a different order: their order is the order in which the run
    iterates over the sets of parameters. *)
Theorem C6_runs_agree_up_to_copy_order (h1 h2 : hash_order)
    (env_args in_args rin_args out_args rout_args : list pystr)
    (res : ResourcesConfig) (steps : list (pystr * pystr * list pystr))
    (timeout : pystr) :
  let run h :=
    run_pipeline h env_args in_args rin_args out_args rout_args res steps
                 timeout in
  (forall d1, run h1 = Ok d1 ->
     exists d2, run h2 = Ok d2 /\ same_document_up_to_copy_order d1 d2) /\
  (forall e1, run h1 = Raise e1 -> exists e2, run h2 = Raise e2).
Proof.
  cbv zeta. split.
  - intros d1. apply run_pipeline_any_order.
  - intros e1 H1.
    destruct (run_pipeline h2 _ _ _ _ _ _ _ _) as [d2|e2] eqn:H2;
      [|by exists e2].
    apply (run_pipeline_any_order h2 h1) in H2 as (d1 & Hd1 & _).
    congruence.
Qed.

Lemma C6_runs_agree_up_to_copy_order_witness :
  let res := new_ResourcesConfig (str "dros-helper") (str "us-west1")
               DEFAULT_MACHINE_TYPE DEFAULT_DISK_SIZE None
               (ScopeStr DEFAULT_SCOPE) in
  let run h :=
    run_pipeline h [] [str "A=gs://b/x"; str "B=gs://b/y"] [] [] [] res []
                 SEVEN_DAYS in
  exists d1 d2,
    run insertion_order = Ok d1 /\ run reverse_order = Ok d2 /\
    same_document_up_to_copy_order d1 d2.
Proof.
  cbv zeta.
  edestruct (proj1 (C6_runs_agree_up_to_copy_order
                      insertion_order reverse_order
                      [] [str "A=gs://b/x"; str "B=gs://b/y"] [] [] []
                      (new_ResourcesConfig (str "dros-helper") (str "us-west1")
                         DEFAULT_MACHINE_TYPE DEFAULT_DISK_SIZE None
                         (ScopeStr DEFAULT_SCOPE))
                      [] SEVEN_DAYS))
    as (d2 & H2 & Hsame).
  - vm_compute. reflexivity.
  - eexists. exists d2. split; [vm_compute; reflexivity|].
    split; [exact H2 | exact Hsame].
Defined.

(** C6 (as stated) fails: over the same flags, a run that iterates over the
    set of inputs in the order of insertion and a run that iterates over it
    in the reverse order produce stage-in scripts whose copy commands come
    in different orders, hence different documents. *)
Lemma C6_counterexample :
  let res := new_ResourcesConfig (str "dros-helper") (str "us-west1")
               DEFAULT_MACHINE_TYPE DEFAULT_DISK_SIZE None
               (ScopeStr DEFAULT_SCOPE) in
  let run h :=
    run_pipeline h [] [str "A=gs://b/x"; str "B=gs://b/y"] [] [] [] res []
                 SEVEN_DAYS in
  let copy_a := gsutil_cmd (str "cp") (Some (str "gs://b/x"))
                           (Some (str "/mnt/data/gs/b/x")) in
  let copy_b := gsutil_cmd (str "cp") (Some (str "gs://b/y"))
                           (Some (str "/mnt/data/gs/b/y")) in
  commands_of_action (run insertion_order) 0
  = Some (script_commands [copy_a; copy_b]) /\
  commands_of_action (run reverse_order) 0
  = Some (script_commands [copy_b; copy_a]) /\
  run insertion_order ≠ run reverse_order.
Proof.
  cbv zeta.
  assert (commands_of_action
            (run_pipeline insertion_order [] [str "A=gs://b/x"; str "B=gs://b/y"]
               [] [] []
               (new_ResourcesConfig (str "dros-helper") (str "us-west1")
                  DEFAULT_MACHINE_TYPE DEFAULT_DISK_SIZE None
                  (ScopeStr DEFAULT_SCOPE)) [] SEVEN_DAYS) 0
          = Some (script_commands
                    [gsutil_cmd (str "cp") (Some (str "gs://b/x"))
                                (Some (str "/mnt/data/gs/b/x"));
                     gsutil_cmd (str "cp") (Some (str "gs://b/y"))
                                (Some (str "/mnt/data/gs/b/y"))])) as H1.
  { vm_compute. reflexivity. }
  assert (commands_of_action
            (run_pipeline reverse_order [] [str "A=gs://b/x"; str "B=gs://b/y"]
               [] [] []
               (new_ResourcesConfig (str "dros-helper") (str "us-west1")
                  DEFAULT_MACHINE_TYPE DEFAULT_DISK_SIZE None
                  (ScopeStr DEFAULT_SCOPE)) [] SEVEN_DAYS) 0
          = Some (script_commands
                    [gsutil_cmd (str "cp") (Some (str "gs://b/y"))
                                (Some (str "/mnt/data/gs/b/y"));
                     gsutil_cmd (str "cp") (Some (str "gs://b/x"))
                                (Some (str "/mnt/data/gs/b/x"))])) as H2.
  { vm_compute. reflexivity. }
  split_and!; [exact H1 | exact H2 |].
  intros E. rewrite E, H2 in H1. vm_compute in H1. discriminate H1.
Qed.

(** * Further properties of the code *)

(** ** Parameter names *)

Lemma skip_name_chars_all (body rest : pystr) :
  forallb is_name_char body = true ->
  skip_name_chars (body ++ rest) = skip_name_chars rest.
Proof.
  induction body as [|c body IH]; simpl; [done|].
  intros [Hc Hb]%andb_true_iff. rewrite Hc. by apply IH.
Qed.

Lemma skip_name_chars_split (s : pystr) :
  exists body,
    s = body ++ skip_name_chars s /\ forallb is_name_char body = true.
Proof.
  induction s as [|c s (body & Hs & Hb)]; simpl; [by exists []|].
  destruct (is_name_char c) eqn:Hc.
  - exists (c :: body). simpl. rewrite Hc, Hb. split; [by f_equal | done].
  - by exists [].
Qed.

(** X1: a name passes [_validate_param_name] exactly when it is a letter or
    underscore followed by letters, digits and underscores, with or
    without one newline at its very end (Python's [$] also matches before
    a final newline); any other name raises the [Invalid ...] error, which
    carries the kind of parameter and the name. *)
Theorem X1_valid_names (name param_type : pystr) :
  (_validate_param_name name param_type = Ok tt <->
   exists c body,
     is_name_start c = true /\ forallb is_name_char body = true /\
     (name = c :: body \/ name = c :: body ++ [NL])) /\
  (_validate_param_name name param_type = Ok tt \/
   _validate_param_name name param_type
   = Raise (ValueError (str "Invalid %s: %s") [param_type; name])).
Proof.
  unfold _validate_param_name. split.
  - split.
    + destruct (name_re_match name) eqn:E; [intros _ | done].
      destruct name as [|c rest]; [done|]. simpl in E.
      apply andb_true_iff in E as [Hc Ht].
      destruct (skip_name_chars_split rest) as (body & Hrest & Hbody).
      exists c, body. split_and!; [done..|].
      apply orb_true_iff in Ht as [Ht|Ht]; apply bool_decide_eq_true in Ht;
        rewrite Ht in Hrest.
      * left. by rewrite Hrest, app_nil_r.
      * right. by rewrite Hrest.
    + intros (c & body & Hc & Hbody & [-> | ->]); simpl; rewrite Hc; simpl.
      * rewrite <- (app_nil_r body), skip_name_chars_all by done. done.
      * rewrite skip_name_chars_all by done. done.
  - destruct (name_re_match name); simpl; [by left | by right].
Qed.

(** ** Splitting a flag *)

Lemma split1_spec (sep : ascii) (s a : pystr) (b : option pystr) :
  split1 sep s = (a, b) ->
  (sep ∉ a) /\
  (match b with
   | Some b => s = a ++ sep :: b
   | None => s = a
   end).
Proof.
  revert a b. induction s as [|c s IH]; intros a b; simpl.
  - intros [= <- <-]. split; [apply not_elem_of_nil | done].
  - destruct (Ascii.eqb c sep) eqn:E.
    + apply Ascii.eqb_eq in E as ->. intros [= <- <-].
      split; [apply not_elem_of_nil | done].
    + apply Ascii.eqb_neq in E.
      destruct (split1 sep s) as [a' b'] eqn:Es. intros [= <- <-].
      destruct (IH a' b' eq_refl) as [Hnot Hs]. split.
      * rewrite not_elem_of_cons. split; [congruence | done].
      * destruct b'; by rewrite Hs.
Qed.

Lemma split1_absent (sep : ascii) (s : pystr) :
  sep ∉ s -> split1 sep s = (s, None).
Proof.
  induction s as [|c s IH]; simpl; [done|].
  rewrite not_elem_of_cons. intros [Hne Hs].
  destruct (Ascii.eqb c sep) eqn:E.
  - apply Ascii.eqb_eq in E. congruence.
  - by rewrite IH.
Qed.

Lemma split1_present (sep : ascii) (s : pystr) :
  sep ∈ s -> exists a b, split1 sep s = (a, Some b).
Proof.
  induction s as [|c s IH]; simpl; [by intros ?%elem_of_nil|].
  intros Hin. destruct (Ascii.eqb c sep) eqn:E; [by eexists _, _|].
  apply Ascii.eqb_neq in E.
  apply elem_of_cons in Hin as [->|Hin]; [done|].
  destruct (IH Hin) as (a & b & ->). by eexists _, _.
Qed.

(** X2: [split_pair] cuts at the first separator: when the string holds
    one, both parts are returned whatever [nullable_idx] is, the first part
    has no separator in it and the two parts around the separator give the
    string back; when it holds none, the whole string is the member that is
    not at [nullable_idx], and [IndexError] is raised only then, for a
    [nullable_idx] other than 0 and 1. *)
Theorem X2_split_pair_cuts_at_first_separator
    (pair_string : pystr) (separator : ascii) (nullable_idx : Z) :
  (separator ∈ pair_string ->
   exists a b,
     split_pair pair_string separator nullable_idx = Ok (Some a, Some b) /\
     pair_string = a ++ separator :: b /\ separator ∉ a) /\
  (separator ∉ pair_string ->
   split_pair pair_string separator nullable_idx =
   if (nullable_idx =? 0)%Z then Ok (None, Some pair_string)
   else if (nullable_idx =? 1)%Z then Ok (Some pair_string, None)
   else Raise (IndexError (str "nullable_idx should be either 0 or 1."))).
Proof.
  unfold split_pair. split.
  - intros Hin. destruct (split1_present _ _ Hin) as (a & b & E).
    rewrite E. exists a, b.
    by destruct (split1_spec _ _ _ _ E) as [Hnot ->].
  - intros Hout. by rewrite (split1_absent _ _ Hout).
Qed.

(** ** Directory form *)

(** X5: [directory_fmt] returns a string that ends in exactly one slash,
    and applying it again changes nothing. *)
Theorem X5_directory_fmt_single_trailing_slash (directory : pystr) :
  endswith (directory_fmt directory) (str "/") = true /\
  endswith (directory_fmt directory) (str "//") = false /\
  directory_fmt (directory_fmt directory) = directory_fmt directory.
Proof.
  split_and!.
  - apply endswith_snoc.
  - unfold directory_fmt, endswith, rstrip.
    rewrite rev_app_distr, rev_involutive. simpl.
    destruct (lstrip [SEP] (rev directory)) as [|c t] eqn:E; [done|].
    apply lstrip_head in E. unfold ascii_in in E. simpl in E.
    apply orb_false_iff in E as [E _].
    transitivity (Ascii.eqb "/" c && startswith t []); [reflexivity|].
    rewrite Ascii.eqb_sym. unfold SEP in E. by rewrite E.
  - apply directory_fmt_idemp.
Qed.

(** ** Environment flags *)

Lemma env_step_unfold (label_data : pyset EnvParam) (arg : pystr) :
  env_step label_data arg =
  if name_re_match (split1 "=" arg).1
  then Ok (set_add EnvParam_eqb (env_of_label arg) label_data)
  else Raise (ValueError (str "Invalid %s: %s")
                         [str "Environment variable"; (split1 "=" arg).1]).
Proof.
  unfold env_step, split_pair, env_of_label.
  destruct (split1 "=" arg) as [a [b|]]; simpl;
    unfold _validate_param_name; by destruct (name_re_match a).
Qed.

Lemma parse_pair_args_env_step (labels : list pystr) :
  parse_pair_args labels = for_each env_step labels [].
Proof. reflexivity. Qed.

Lemma existsb_EnvParam_eqb (x : EnvParam) (s : pyset EnvParam) :
  existsb (EnvParam_eqb x) s = true <-> x ∈ s.
Proof.
  rewrite existsb_exists. split.
  - intros (y & Hy & Heq). apply bool_decide_eq_true in Heq as ->.
    by apply list_elem_of_In.
  - intros Hx. exists x. split; [by apply list_elem_of_In|].
    by apply bool_decide_eq_true.
Qed.

Lemma set_add_env_member (x : EnvParam) (s : pyset EnvParam) :
  x ∈ s -> set_add EnvParam_eqb x s = s.
Proof.
  intros Hx. unfold set_add. apply existsb_EnvParam_eqb in Hx. by rewrite Hx.
Qed.

Lemma set_add_env_elem (x y : EnvParam) (s : pyset EnvParam) :
  y ∈ set_add EnvParam_eqb x s <-> y = x \/ y ∈ s.
Proof.
  unfold set_add. destruct (existsb (EnvParam_eqb x) s) eqn:E.
  - apply existsb_EnvParam_eqb in E. split; [by right|].
    by intros [->|?].
  - rewrite elem_of_app, list_elem_of_singleton. tauto.
Qed.

Lemma set_add_env_NoDup (x : EnvParam) (s : pyset EnvParam) :
  NoDup s -> NoDup (set_add EnvParam_eqb x s).
Proof.
  intros Hs. unfold set_add. destruct (existsb (EnvParam_eqb x) s) eqn:E; [done|].
  apply NoDup_app. split_and!; [done | | apply NoDup_singleton].
  intros y Hy ->%list_elem_of_singleton.
  apply existsb_EnvParam_eqb in Hy. congruence.
Qed.

Lemma for_each_env_step (labels : list pystr) (s0 : pyset EnvParam) :
  match for_each env_step labels s0 with
  | Ok s =>
      (NoDup s0 -> NoDup s) /\
      (forall p, p ∈ s <->
                 p ∈ s0 \/ exists arg, arg ∈ labels /\ p = env_of_label arg) /\
      Forall (fun arg => name_re_match (split1 "=" arg).1 = true) labels
  | Raise e =>
      exists before arg after,
        labels = before ++ arg :: after /\
        Forall (fun arg => name_re_match (split1 "=" arg).1 = true) before /\
        name_re_match (split1 "=" arg).1 = false /\
        e = ValueError (str "Invalid %s: %s")
                       [str "Environment variable"; (split1 "=" arg).1]
  end.
Proof.
  revert s0. induction labels as [|arg labels IH]; intros s0.
  - simpl. split_and!; [done | | done].
    intros p. split; [by left|]. intros [?|(arg & ?%elem_of_nil & _)]; done.
  - rewrite for_each_cons, env_step_unfold.
    destruct (name_re_match (split1 "=" arg).1) eqn:Hv.
    + change (Ok ?x ≫= ?k) with (k x). cbv beta.
      specialize (IH (set_add EnvParam_eqb (env_of_label arg) s0)).
      destruct (for_each env_step labels _) as [s|e].
      * destruct IH as (Hnd & Hmem & Hall). split_and!.
        -- intros H0. by apply Hnd, set_add_env_NoDup.
        -- intros p. rewrite Hmem, set_add_env_elem. split.
           ++ intros [[->|?]|(a & Ha & ->)]; [right | by left | right].
              ** exists arg. split; [by left | done].
              ** exists a. split; [by right | done].
           ++ intros [?|(a & [->|Ha]%elem_of_cons & ->)].
              ** left. by right.
              ** left. by left.
              ** right. by exists a.
        -- by constructor.
      * destruct IH as (before & a & after & -> & Hb & Ha & ->).
        exists (arg :: before), a, after. split_and!; [done | | done..].
        by constructor.
    + exists [], arg, labels. by split_and!.
Qed.

(** X3: [parse_pair_args] returns a set without repeated members, whose
    members are the parameters that the labels stand for (the part before
    the first [=] as the name, the part after it, or [None], as the value),
    all with valid names; it fails at the first label whose name is not
    valid, with the [Invalid Environment variable] error for that name. *)
Theorem X3_parse_pair_args_members (labels : list pystr) :
  match parse_pair_args labels with
  | Ok s =>
      NoDup s /\
      (forall p, p ∈ s <-> exists arg, arg ∈ labels /\ p = env_of_label arg) /\
      (forall p, p ∈ s -> name_re_match (env_name p) = true)
  | Raise e =>
      exists before arg after,
        labels = before ++ arg :: after /\
        Forall (fun arg => name_re_match (split1 "=" arg).1 = true) before /\
        name_re_match (split1 "=" arg).1 = false /\
        e = ValueError (str "Invalid %s: %s")
                       [str "Environment variable"; (split1 "=" arg).1]
  end.
Proof.
  rewrite parse_pair_args_env_step.
  pose proof (for_each_env_step labels []) as H.
  destruct (for_each env_step labels []) as [s|e]; [|exact H].
  destruct H as (Hnd & Hmem & Hall). split_and!.
  - apply Hnd, NoDup_nil_2.
  - intros p. rewrite Hmem. split; [|by right].
    by intros [?%elem_of_nil|?].
  - intros p Hp. apply Hmem in Hp as [?%elem_of_nil|(arg & Harg & ->)]; [done|].
    rewrite Forall_forall in Hall. by apply Hall.
Qed.

Lemma for_each_env_step_known (labels : list pystr) (s : pyset EnvParam) :
  Forall (fun arg => name_re_match (split1 "=" arg).1 = true) labels ->
  (forall arg, arg ∈ labels -> env_of_label arg ∈ s) ->
  for_each env_step labels s = Ok s.
Proof.
  induction labels as [|arg labels IH]; intros Hall Hin; [done|].
  rewrite for_each_cons, env_step_unfold.
  inversion Hall as [|?? Hv Hall']; subst. rewrite Hv.
  rewrite set_add_env_member by (apply Hin; by left).
  apply IH; [done|]. intros a Ha. apply Hin. by right.
Qed.

(** X4: giving every environment label a second time changes nothing:
    equal parameters are merged in the set, so a repeated flag is not a
    collision. *)
Theorem X4_repeated_env_labels_are_merged (labels : list pystr) :
  parse_pair_args (labels ++ labels) = parse_pair_args labels.
Proof.
  rewrite !parse_pair_args_env_step, for_each_app.
  pose proof (for_each_env_step labels []) as H.
  destruct (for_each env_step labels []) as [s|e]; [|done].
  destruct H as (_ & Hmem & Hall).
  change (Ok ?x ≫= ?k) with (k x). cbv beta.
  apply for_each_env_step_known; [done|].
  intros arg Harg. apply Hmem. right. by exists arg.
Qed.

(** ** Accepted URIs *)

Lemma validate_paths_iff (uri : pystr) (recursive : bool) :
  _validate_paths_or_fail uri recursive = Ok tt <->
  contains (str "[") uri = false /\ contains (str "]") uri = false /\
  contains (str "?") uri = false /\
  contains (str "*") (posixpath.dirname uri) = false /\
  contains (str "**") (posixpath.basename uri) = false /\
  posixpath.basename uri ≠ str ".." /\ posixpath.basename uri ≠ str "." /\
  (recursive = false -> posixpath.basename uri ≠ []).
Proof.
  unfold _validate_paths_or_fail, posixpath.split.
  fold (posixpath.basename uri). fold (posixpath.dirname uri).
  destruct (contains (str "[") uri) eqn:E1; cbn [orb andb negb].
  { split; [done | intros (? & _); done]. }
  destruct (contains (str "]") uri) eqn:E2; cbn [orb andb negb].
  { split; [done | intros (_ & ? & _); done]. }
  destruct (contains (str "?") uri) eqn:E3.
  { split; [done | intros (_ & _ & ? & _); done]. }
  destruct (contains (str "*") (posixpath.dirname uri)) eqn:E4.
  { split; [done | intros (_ & _ & _ & ? & _); done]. }
  destruct (contains (str "**") (posixpath.basename uri)) eqn:E5.
  { split; [done | intros (_ & _ & _ & _ & ? & _); done]. }
  destruct (pystr_eqb (posixpath.basename uri) (str "..")) eqn:E6; cbn [orb andb negb].
  { apply bool_decide_eq_true in E6.
    split; [done | intros (_ & _ & _ & _ & _ & ? & _); done]. }
  destruct (pystr_eqb (posixpath.basename uri) (str ".")) eqn:E7; cbn [orb andb negb].
  { apply bool_decide_eq_true in E7.
    split; [done | intros (_ & _ & _ & _ & _ & _ & ? & _); done]. }
  apply pystr_eqb_false in E6, E7.
  destruct recursive; cbn [orb andb negb].
  { split; [intros _ | done]. by split_and!. }
  destruct (pystr_eqb (posixpath.basename uri) []) eqn:E8.
  { apply bool_decide_eq_true in E8.
    split; [done | intros (_ & _ & _ & _ & _ & _ & _ & H)]. by destruct H. }
  apply pystr_eqb_false in E8. split; [intros _ | done]. by split_and!.
Qed.

Lemma validate_paths_raise (uri : pystr) (recursive : bool) (e : exn) :
  _validate_paths_or_fail uri recursive = Raise e ->
  is_validation_error e = true.
Proof.
  unfold _validate_paths_or_fail.
  destruct (posixpath.split uri) as [path filename].
  repeat match goal with
         | |- context [if ?b then _ else _] => destruct b
         end; by intros [= <-].
Qed.

(** X6: [parse_uri] accepts a reference exactly when its URI (after the
    directory coercion of a recursive one) starts with [gs://], holds none
    of [[], []], [?], has no [*] in its directory part and no [**] in its
    file name, a file name other than [.] and [..] and, unless recursive, a
    file name at all; every rejection is a [ValueError]. *)
Theorem X6_accepted_uris (raw_uri : pystr) (recursive : bool) :
  let x := coerced raw_uri recursive in
  ((exists d u, parse_uri raw_uri recursive = Ok (d, u)) <->
   startswith x (str "gs://") = true /\
   contains (str "[") x = false /\ contains (str "]") x = false /\
   contains (str "?") x = false /\
   contains (str "*") (posixpath.dirname x) = false /\
   contains (str "**") (posixpath.basename x) = false /\
   posixpath.basename x ≠ str ".." /\ posixpath.basename x ≠ str "." /\
   (recursive = false -> posixpath.basename x ≠ [])) /\
  (forall e, parse_uri raw_uri recursive = Raise e ->
             is_validation_error e = true).
Proof.
  cbv zeta. rewrite parse_uri_unfold. cbv zeta.
  set (x := coerced raw_uri recursive).
  rewrite <- validate_paths_iff, <- validate_provider_ok.
  destruct (_validate_file_provider x) as [[]|e1] eqn:Hp.
  - change (Ok ?v ≫= ?k) with (k v). cbv beta.
    destruct (_validate_paths_or_fail x recursive) as [[]|e2] eqn:Hv.
    + split; [|done]. split; [done|]. intros _. by eexists _, _.
    + split.
      * split; [by intros (d & u & ?) | by intros [_ ?]].
      * intros e [= <-]. by apply validate_paths_raise in Hv.
  - split.
    + split; [by intros (d & u & ?) | by intros [? _]].
    + intros e [= <-]. unfold _validate_file_provider in Hp.
      destruct (startswith x (str "gs://")); [done|]. by injection Hp as <-.
Qed.

Lemma rfind1_zero (c : ascii) (s : pystr) : rfind1 c s = 0 <-> c ∉ s.
Proof.
  induction s as [|x s IH]; simpl.
  - split; [intros _; apply not_elem_of_nil | done].
  - rewrite not_elem_of_cons, <- IH.
    destruct (rfind1 c s); [|split; [done | intros [_ ?]; done]].
    destruct (Ascii.eqb_spec x c) as [->|Hne]; split; try done.
    by intros [? _].
Qed.

Lemma rfind1_drop (c : ascii) (s : pystr) : rfind1 c (drop (rfind1 c s) s) = 0.
Proof.
  induction s as [|x s IH]; simpl; [done|].
  destruct (rfind1 c s) as [|k] eqn:E.
  - destruct (Ascii.eqb x c) eqn:Ex; simpl.
    + by rewrite drop_0.
    + by rewrite E, Ex.
  - simpl. exact IH.
Qed.

Lemma basename_no_sep (p : pystr) : SEP ∉ posixpath.basename p.
Proof. apply rfind1_zero, rfind1_drop. Qed.

(** X7: the parts of an accepted URI: the path ends in a slash and the
    base name holds none; for a recursive reference the base name is empty,
    the path is the directory form of the raw URI and the mount path ends
    in a slash; for any other reference the base name is not empty. *)
Theorem X7_uri_parts_shape (raw_uri : pystr) (recursive : bool)
    (d : pystr) (u : UriParts) :
  parse_uri raw_uri recursive = Ok (d, u) ->
  endswith (uri_path u) (str "/") = true /\
  (SEP ∉ uri_basename u) /\
  (if recursive
   then uri_basename u = [] /\ uri_path u = directory_fmt raw_uri /\
        endswith d (str "/") = true
   else uri_basename u ≠ []).
Proof.
  intros H. pose proof H as H'.
  apply parse_uri_ok in H as (Hp & Hv & -> & ->).
  unfold new_UriParts. simpl. split_and!.
  - apply endswith_snoc.
  - apply basename_no_sep.
  - destruct recursive.
    + unfold coerced in *.
      assert (posixpath.basename (directory_fmt raw_uri) = []) as Hb.
      { unfold posixpath.basename, directory_fmt.
        rewrite rfind1_snoc. apply drop_ge. rewrite length_app. simpl. lia. }
      split_and!; [done | |].
      * apply parse_uri_recursive_uri in H'.
        unfold uri_str, new_UriParts in H'.
        cbn [uri_path uri_basename default from_option] in H'.
        by rewrite Hb, app_nil_r in H'.
      * apply endswith_gs_mount; [done | apply endswith_snoc].
    + by apply validate_paths_ok in Hv as (_ & _ & Hne); apply Hne.
Qed.

Lemma X7_uri_parts_shape_witness :
  endswith (str "gs://mybucket/myfilecollection/here/") (str "/") = true /\
  (SEP ∉ @nil ascii) /\
  (@nil ascii = [] /\
   str "gs://mybucket/myfilecollection/here/"
   = directory_fmt (str "gs://mybucket/myfilecollection/here") /\
   endswith (str "gs/mybucket/myfilecollection/here/") (str "/") = true).
Proof.
  apply (X7_uri_parts_shape (str "gs://mybucket/myfilecollection/here") true
           (str "gs/mybucket/myfilecollection/here/")
           {| uri_path := str "gs://mybucket/myfilecollection/here/";
              uri_basename := [] |}).
  reflexivity.
Defined.

(** X8: the rewriting of accepted URIs into mount paths loses nothing: the
    URI (after the directory coercion) is [gs://] followed by what follows
    [gs/] in the mount path, so two accepted references with the same mount
    path have the same URI and the same parts. *)
Theorem X8_mount_path_determines_uri
    (raw1 raw2 : pystr) (r1 r2 : bool) (d1 d2 : pystr) (u1 u2 : UriParts) :
  parse_uri raw1 r1 = Ok (d1, u1) ->
  parse_uri raw2 r2 = Ok (d2, u2) ->
  coerced raw1 r1 = str "gs://" ++ drop 3 d1 /\
  (d1 = d2 -> coerced raw1 r1 = coerced raw2 r2 /\ u1 = u2).
Proof.
  intros H1 H2.
  apply parse_uri_ok in H1 as (Hp1 & _ & -> & ->).
  apply parse_uri_ok in H2 as (Hp2 & _ & -> & ->).
  apply gs_prefix_split in Hp1, Hp2. split.
  - exact Hp1.
  - intros E. assert (coerced raw1 r1 = coerced raw2 r2) as Hx.
    { rewrite Hp1, Hp2. f_equal. by simplify_list_eq. }
    split; [done | by rewrite Hx].
Qed.

Lemma X8_mount_path_determines_uri_witness :
  coerced (str "gs://mybucket/dir") true
  = str "gs://" ++ drop 3 (str "gs/mybucket/dir/") /\
  (str "gs/mybucket/dir/" = str "gs/mybucket/dir/" ->
   coerced (str "gs://mybucket/dir") true
   = coerced (str "gs://mybucket/dir//") true /\
   {| uri_path := str "gs://mybucket/dir/"; uri_basename := [] |}
   = {| uri_path := str "gs://mybucket/dir/"; uri_basename := [] |}).
Proof.
  apply (X8_mount_path_determines_uri
           (str "gs://mybucket/dir") (str "gs://mybucket/dir//") true true).
  - reflexivity.
  - reflexivity.
Defined.

(** ** Building the job parameters *)

(** X9: [JobParams] is built exactly when no name is shared by two members
    of the five collections, whatever the order of iteration, and it then
    holds the five collections as they were given. *)
Theorem X9_job_params_built_iff_names_unique
    (h : hash_order) (e : pyset EnvParam) (i ri o ro : pyset FileParam)
    (job : JobParams) :
  new_JobParams h e i ri o ro = Ok job <->
  (forall n, ~ shared_name n ((PEnv <$> e) ++ (PFile <$> i ++ ri ++ o ++ ro))) /\
  job = {| envs := e; inputs := i; recursive_inputs := ri; outputs := o;
           recursive_outputs := ro |}.
Proof.
  set (j := {| envs := e; inputs := i; recursive_inputs := ri; outputs := o;
               recursive_outputs := ro |}).
  assert (_check_for_collisions h (values j) = Ok tt <->
          forall n, ~ shared_name n ((PEnv <$> e) ++ (PFile <$> i ++ ri ++ o ++ ro)))
    as Hiff.
  { rewrite check_for_collisions_iff.
    split; intros H n; specialize (H n);
      by rewrite (shared_name_perm n _ _ (visit_order_members h j)) in *. }
  split.
  - intros [Hc ->]%new_JobParams_ok. split; [by apply Hiff | done].
  - intros [Hu ->]. apply Hiff in Hu. unfold new_JobParams.
    change [EnvSet e; _; _; _; _] with (values j). by rewrite Hu.
Qed.

Lemma add_file_arg_unfold (r : bool) (util : FileParamUtil)
    (sink : pyset FileParam) (arg : pystr) :
  add_file_arg r (util, sink) arg =
  let name := (split1 "=" arg).1 in
  let value := (split1 "=" arg).2 in
  if has_no_name arg then
    p ← make_param (get_variable_name util None).2
          (_auto_prefix util ++ str_of_nat (_auto_index util))
          (Some (default name value)) r;
    Ok ((get_variable_name util None).2, set_add FileParam_eqb p sink)
  else
    p ← make_param util name value r;
    Ok (util, set_add FileParam_eqb p sink).
Proof.
  unfold add_file_arg, split_pair, has_no_name.
  destruct (split1 "=" arg) as [[|c a] [b|]]; reflexivity.
Qed.

(** X10: over a loop of [args_to_job_params], the counter of the builder
    goes up by the number of arguments without a name part; a named
    argument does not use up a number.  The prefix and the class of the
    builder stay. *)
Theorem X10_counter_counts_unnamed_arguments
    (r : bool) (args : list pystr) (util util' : FileParamUtil)
    (sink sink' : pyset FileParam) :
  for_each (add_file_arg r) args (util, sink) = Ok (util', sink') ->
  _auto_index util' = _auto_index util + length (filter has_no_name args) /\
  _auto_prefix util' = _auto_prefix util /\
  param_class util' = param_class util.
Proof.
  revert util sink. induction args as [|arg args IH]; intros util sink.
  - simpl. intros [= <- _]. split_and!; [lia | done..].
  - rewrite for_each_cons, add_file_arg_unfold. cbv zeta.
    rewrite filter_cons.
    destruct (has_no_name arg) eqn:Hn.
    + destruct (make_param _ _ _ r) as [p|?]; [|done].
      change (Ok ?x ≫= ?k) with (k x). cbv beta.
      change (Ok ?x ≫= ?k) with (k x). cbv beta.
      intros H. apply IH in H as (Hi & Hp & Hc). simpl in Hi, Hp, Hc.
      rewrite decide_True by done. simpl. split_and!; [lia | done..].
    + destruct (make_param _ _ _ r) as [p|?]; [|done].
      change (Ok ?x ≫= ?k) with (k x). cbv beta.
      change (Ok ?x ≫= ?k) with (k x). cbv beta.
      intros H. apply IH in H as (Hi & Hp & Hc).
      rewrite decide_False by (by intros ?). done.
Qed.

Lemma X10_counter_counts_unnamed_arguments_witness :
  exists util' sink',
    for_each (add_file_arg false)
      [str "gs://b/x"; str "NAMED=gs://b/y"; str "=gs://b/z"]
      (InputFileParamUtil DEFAULT_INPUT_LOCAL_PATH, []) = Ok (util', sink') /\
    _auto_index util' = 0 + 2.
Proof.
  edestruct (X10_counter_counts_unnamed_arguments false
               [str "gs://b/x"; str "NAMED=gs://b/y"; str "=gs://b/z"]
               (InputFileParamUtil DEFAULT_INPUT_LOCAL_PATH))
    with (sink := @nil FileParam) as (Hindex & _ & _).
  - vm_compute. reflexivity.
  - eexists _, _. split; [vm_compute; reflexivity | exact Hindex].
Defined.

Lemma call_param_class_valid (self : FileParamUtil) (name : pystr)
    (value docker_path : option pystr) (uri : option UriParts)
    (recursive : bool) (p : FileParam) :
  call_param_class self name value docker_path uri recursive = Ok p ->
  param_class self ≠ FileParamClass -> name_re_match name = true.
Proof.
  unfold call_param_class, _validate_param_name.
  destruct (param_class self); [done | |];
    destruct (name_re_match name); done.
Qed.

Lemma make_param_built (self : FileParamUtil) (name : pystr)
    (raw_uri : option pystr) (recursive : bool) (p : FileParam) :
  make_param self name raw_uri recursive = Ok p ->
  fp_name p = name /\ fp_recursive p = recursive /\
  well_formed_file_param p /\
  (param_class self ≠ FileParamClass -> name_re_match name = true).
Proof.
  unfold make_param, well_formed_file_param.
  destruct raw_uri as [[|c u]|].
  1,3: intros H; pose proof (call_param_class_valid _ _ _ _ _ _ _ H);
       by apply call_param_class_ok in H as ->.
  destruct (parse_uri (c :: u) recursive) as [[d up]|?] eqn:E; [|done].
  change (Ok ?x ≫= ?k) with (k x). cbv beta.
  intros H. pose proof (call_param_class_valid _ _ _ _ _ _ _ H).
  apply call_param_class_ok in H as ->. simpl.
  split_and!; try done. by exists d, up.
Qed.

Lemma set_add_subset {A} (eqb : A -> A -> bool) (x y : A) (s : pyset A) :
  y ∈ set_add eqb x s -> y = x \/ y ∈ s.
Proof.
  unfold set_add. destruct (existsb (eqb x) s); [by right|].
  rewrite elem_of_app, list_elem_of_singleton. tauto.
Qed.

Lemma FileParam_eqb_refl (p : FileParam) : FileParam_eqb p p = true.
Proof.
  unfold FileParam_eqb. by rewrite !bool_decide_eq_true_2.
Qed.

Lemma FileParam_eqb_value (a b : FileParam) :
  FileParam_eqb a b = true -> fp_value a = fp_value b.
Proof.
  unfold FileParam_eqb. rewrite !andb_true_iff, !bool_decide_eq_true.
  tauto.
Qed.

(** After [sink.add(p)] the set holds a member equal to [p]. *)
Lemma set_add_file_has (p : FileParam) (sink : pyset FileParam) :
  exists q, q ∈ set_add FileParam_eqb p sink /\ FileParam_eqb p q = true.
Proof.
  unfold set_add. destruct (existsb (FileParam_eqb p) sink) eqn:E.
  - apply existsb_exists in E as (q & Hq & Heq).
    exists q. split; [by apply list_elem_of_In | done].
  - exists p. split; [|apply FileParam_eqb_refl].
    rewrite elem_of_app, list_elem_of_singleton. by right.
Qed.

(** What holds of every parameter that a loop of [args_to_job_params]
    puts into its set. *)
Lemma for_each_add_file_arg_built (r : bool) (args : list pystr)
    (util util' : FileParamUtil) (sink sink' : pyset FileParam)
    (Q : FileParam -> Prop) :
  (forall self name raw_uri p,
     param_class self = param_class util ->
     make_param self name raw_uri r = Ok p -> Q p) ->
  for_each (add_file_arg r) args (util, sink) = Ok (util', sink') ->
  Forall Q sink ->
  Forall Q sink' /\ param_class util' = param_class util.
Proof.
  intros HQ. revert util sink HQ.
  induction args as [|arg args IH]; intros util sink HQ.
  - simpl. by intros [= <- <-].
  - rewrite for_each_cons, add_file_arg_unfold. cbv zeta.
    destruct (has_no_name arg).
    + destruct (make_param _ _ _ r) as [p|?] eqn:Hmk; [|done].
      change (Ok ?x ≫= ?k) with (k x). cbv beta.
      change (Ok ?x ≫= ?k) with (k x). cbv beta.
      intros H Hsink. apply IH in H as [H1 H2].
      * split; [done|]. by rewrite H2.
      * intros self name raw_uri q Hc. by apply HQ.
      * apply Forall_forall. intros q [->|Hq]%set_add_subset.
        -- by apply HQ in Hmk.
        -- rewrite Forall_forall in Hsink. by apply Hsink.
    + destruct (make_param _ _ _ r) as [p|?] eqn:Hmk; [|done].
      change (Ok ?x ≫= ?k) with (k x). cbv beta.
      change (Ok ?x ≫= ?k) with (k x). cbv beta.
      intros H Hsink. apply IH in H as [H1 H2]; [done | done |].
      apply Forall_forall. intros q [->|Hq]%set_add_subset.
      * by apply HQ in Hmk.
      * rewrite Forall_forall in Hsink. by apply Hsink.
Qed.

Lemma parsed_files_built
    (env_args in_args rin_args out_args rout_args : list pystr)
    (e : pyset EnvParam) (i ri o ro : pyset FileParam) :
  parse_args env_args in_args rin_args out_args rout_args
  = Ok (e, i, ri, o, ro) ->
  let Q r p := name_re_match (fp_name p) = true /\ fp_recursive p = r /\
               well_formed_file_param p in
  Forall (Q false) i /\ Forall (Q true) ri /\
  Forall (Q false) o /\ Forall (Q true) ro.
Proof.
  intros H Q. apply parse_args_ok in H as (u1 & u2 & u3 & u4 & _ & Hi & Hri & Ho & Hro).
  assert (forall r cls, cls ≠ FileParamClass ->
          forall self name raw_uri p,
            param_class self = cls ->
            make_param self name raw_uri r = Ok p -> Q r p) as HQ.
  { intros r cls Hcls self name raw_uri p Hself Hmk.
    apply make_param_built in Hmk as (Hn & Hr & Hwf & Hvalid).
    unfold Q. rewrite Hn. split_and!; [|done..].
    apply Hvalid. by rewrite Hself. }
  apply (for_each_add_file_arg_built _ _ _ _ _ _ (Q false)) in Hi
    as [Hi Hc1]; [| by apply (HQ false InputClass) | done].
  apply (for_each_add_file_arg_built _ _ _ _ _ _ (Q true)) in Hri
    as [Hri _]; [| rewrite Hc1; by apply (HQ true InputClass) | done].
  apply (for_each_add_file_arg_built _ _ _ _ _ _ (Q false)) in Ho
    as [Ho Hc3]; [| by apply (HQ false OutputClass) | done].
  apply (for_each_add_file_arg_built _ _ _ _ _ _ (Q true)) in Hro
    as [Hro _]; [| rewrite Hc3; by apply (HQ true OutputClass) | done].
  done.
Qed.

(** X11: every parameter of a job that [args_to_job_params] returns has a
    valid name, the names given out automatically included. *)
Theorem X11_built_job_has_valid_names (h : hash_order)
    (env_args in_args rin_args out_args rout_args : list pystr)
    (job : JobParams) :
  args_to_job_params h env_args in_args rin_args out_args rout_args = Ok job ->
  forall v, v ∈ job_members job -> name_re_match (param_name v) = true.
Proof.
  intros H v Hv. apply args_to_job_params_ok in H as [Hargs _].
  pose proof (parsed_files_built _ _ _ _ _ _ _ _ _ _ Hargs) as Hfiles.
  cbv zeta in Hfiles. destruct Hfiles as (Hi & Hri & Ho & Hro).
  apply parse_args_ok in Hargs as (_ & _ & _ & _ & He & _).
  unfold job_members, job_files in Hv.
  apply elem_of_app in Hv as [Hv|Hv];
    apply list_elem_of_fmap in Hv as (x & -> & Hx); simpl.
  - pose proof (for_each_env_step env_args []) as Hspec.
    rewrite parse_pair_args_env_step in He. rewrite He in Hspec.
    destruct Hspec as (_ & Hmem & Hvalid).
    apply Hmem in Hx as [?%elem_of_nil|(arg & Harg & ->)]; [done|].
    rewrite Forall_forall in Hvalid. by apply Hvalid.
  - rewrite Forall_forall in Hi, Hri, Ho, Hro.
    rewrite !elem_of_app in Hx.
    destruct Hx as [Hx|[Hx|[Hx|Hx]]];
      [apply Hi in Hx | apply Hri in Hx | apply Ho in Hx | apply Hro in Hx];
      by destruct Hx.
Qed.

Lemma X11_built_job_has_valid_names_witness :
  exists job,
    args_to_job_params insertion_order [str "A=hello"]
      [str "gs://bucket/a.txt"; str "F1=gs://bucket/b.txt"] []
      [str "gs://bucket/out.txt"] [] = Ok job /\
    forall v, v ∈ job_members job -> name_re_match (param_name v) = true.
Proof.
  eexists. split.
  - vm_compute. reflexivity.
  - apply (X11_built_job_has_valid_names insertion_order [str "A=hello"]
             [str "gs://bucket/a.txt"; str "F1=gs://bucket/b.txt"] []
             [str "gs://bucket/out.txt"] []).
    vm_compute. reflexivity.
Defined.

(** X12: in a job that [args_to_job_params] returns, the inputs and outputs
    are not recursive and the recursive inputs and outputs are; a file
    parameter without a value has neither mount path nor URI, and one with
    a value has a non-empty value and the mount path and URI parts that
    [parse_uri] returns for it. *)
Theorem X12_built_file_parameters_are_well_formed (h : hash_order)
    (env_args in_args rin_args out_args rout_args : list pystr)
    (job : JobParams) :
  args_to_job_params h env_args in_args rin_args out_args rout_args = Ok job ->
  (forall f, f ∈ inputs job ++ outputs job ->
             fp_recursive f = false /\ well_formed_file_param f) /\
  (forall f, f ∈ recursive_inputs job ++ recursive_outputs job ->
             fp_recursive f = true /\ well_formed_file_param f).
Proof.
  intros H. apply args_to_job_params_ok in H as [Hargs _].
  pose proof (parsed_files_built _ _ _ _ _ _ _ _ _ _ Hargs) as Hfiles.
  cbv zeta in Hfiles. destruct Hfiles as (Hi & Hri & Ho & Hro).
  rewrite Forall_forall in Hi, Hri, Ho, Hro.
  split; intros f [Hf|Hf]%elem_of_app.
  - by apply Hi in Hf as (_ & ? & ?).
  - by apply Ho in Hf as (_ & ? & ?).
  - by apply Hri in Hf as (_ & ? & ?).
  - by apply Hro in Hf as (_ & ? & ?).
Qed.

Lemma X12_built_file_parameters_are_well_formed_witness :
  exists job,
    args_to_job_params insertion_order []
      [str "F1=gs://bucket/b.txt"; str "UNSET="] [str "F2=gs://bucket/dir"]
      [] [] = Ok job /\
    (forall f, f ∈ inputs job ++ outputs job ->
               fp_recursive f = false /\ well_formed_file_param f) /\
    (forall f, f ∈ recursive_inputs job ++ recursive_outputs job ->
               fp_recursive f = true /\ well_formed_file_param f).
Proof.
  eexists. split.
  - vm_compute. reflexivity.
  - apply (X12_built_file_parameters_are_well_formed insertion_order []
             [str "F1=gs://bucket/b.txt"; str "UNSET="]
             [str "F2=gs://bucket/dir"] [] []).
    vm_compute. reflexivity.
Defined.

(** X13: a file argument [name=value] with a name, when it is accepted,
    puts into the set a parameter with that name and that value and leaves
    the counter of the builder as it was. *)
Theorem X13_named_argument_keeps_its_name
    (r : bool) (util util' : FileParamUtil) (sink sink' : pyset FileParam)
    (arg name value : pystr) :
  split1 "=" arg = (name, Some value) ->
  name ≠ [] ->
  add_file_arg r (util, sink) arg = Ok (util', sink') ->
  util' = util /\
  exists p, p ∈ sink' /\ fp_name p = name /\
            fp_value p = kept_value (Some value).
Proof.
  intros Hsplit Hname.
  assert (has_no_name arg = false) as Hnamed.
  { unfold has_no_name. rewrite Hsplit. by destruct name. }
  rewrite add_file_arg_unfold, Hnamed, Hsplit. cbv zeta. simpl fst. simpl snd.
  destruct (make_param util name (Some value) r) as [p|?] eqn:Hmk; [|done].
  change (Ok ?x ≫= ?k) with (k x). cbv beta. intros [= <- <-].
  split; [done|].
  apply make_param_fields in Hmk as (Hn & Hv & _).
  destruct (set_add_file_has p sink) as (q & Hq & Heq).
  exists q. split_and!; [done | |].
  - by rewrite <- (FileParam_eqb_name _ _ Heq).
  - by rewrite <- (FileParam_eqb_value _ _ Heq).
Qed.

Lemma X13_named_argument_keeps_its_name_witness :
  exists util' sink',
    add_file_arg false (InputFileParamUtil DEFAULT_INPUT_LOCAL_PATH, [])
                 (str "F1=gs://b/x") = Ok (util', sink') /\
    util' = InputFileParamUtil DEFAULT_INPUT_LOCAL_PATH /\
    exists p, p ∈ sink' /\ fp_name p = str "F1" /\
              fp_value p = kept_value (Some (str "gs://b/x")).
Proof.
  eexists _, _. split.
  - vm_compute. reflexivity.
  - apply (X13_named_argument_keeps_its_name false
             (InputFileParamUtil DEFAULT_INPUT_LOCAL_PATH) _ [] _
             (str "F1=gs://b/x") (str "F1") (str "gs://b/x")).
    + reflexivity.
    + discriminate.
    + vm_compute. reflexivity.
Defined.

(** X14: a file argument [name=value] whose name is not a valid name and
    whose value is empty or an accepted URI is refused with the
    [Invalid Input parameter] or [Invalid Output parameter] error for that
    name.  (A URI that is rejected is reported before the name is looked
    at.) *)
Theorem X14_invalid_name_of_file_argument
    (r : bool) (util : FileParamUtil) (sink : pyset FileParam)
    (arg name value : pystr) :
  split1 "=" arg = (name, Some value) ->
  name ≠ [] ->
  name_re_match name = false ->
  kept_value (Some value) = None \/
    (exists d u, parse_uri value r = Ok (d, u)) ->
  add_file_arg r (util, sink) arg =
  match param_class util with
  | FileParamClass =>
      p ← make_param util name (Some value) r;
      Ok (util, set_add FileParam_eqb p sink)
  | InputClass =>
      Raise (ValueError (str "Invalid %s: %s") [str "Input parameter"; name])
  | OutputClass =>
      Raise (ValueError (str "Invalid %s: %s") [str "Output parameter"; name])
  end.
Proof.
  intros Hsplit Hname Hbad Hvalue.
  assert (has_no_name arg = false) as Hnamed.
  { unfold has_no_name. rewrite Hsplit. by destruct name. }
  rewrite add_file_arg_unfold, Hnamed, Hsplit. cbv zeta. simpl fst. simpl snd.
  destruct (param_class util) eqn:Hcls; [done | |].
  - unfold make_param. destruct value as [|c v].
    + unfold call_param_class, _validate_param_name. by rewrite Hcls, Hbad.
    + destruct Hvalue as [?|(d & u & ->)]; [done|].
      change (Ok ?x ≫= ?k) with (k x). cbv beta.
      unfold call_param_class, _validate_param_name. by rewrite Hcls, Hbad.
  - unfold make_param. destruct value as [|c v].
    + unfold call_param_class, _validate_param_name. by rewrite Hcls, Hbad.
    + destruct Hvalue as [?|(d & u & ->)]; [done|].
      change (Ok ?x ≫= ?k) with (k x). cbv beta.
      unfold call_param_class, _validate_param_name. by rewrite Hcls, Hbad.
Qed.

Lemma X14_invalid_name_of_file_argument_witness :
  add_file_arg false (InputFileParamUtil DEFAULT_INPUT_LOCAL_PATH, [])
               (str "my-file=gs://b/x")
  = Raise (ValueError (str "Invalid %s: %s")
                      [str "Input parameter"; str "my-file"]).
Proof.
  apply (X14_invalid_name_of_file_argument false
           (InputFileParamUtil DEFAULT_INPUT_LOCAL_PATH) []
           (str "my-file=gs://b/x") (str "my-file") (str "gs://b/x")).
  - reflexivity.
  - discriminate.
  - reflexivity.
  - right. by eexists _, _.
Defined.

(** ** The assembled environment *)

Lemma bound_envs_dom (l : list Param) (k : pystr) :
  is_Some (bound_envs l ∅ !! k) -> exists v, v ∈ l /\ param_name v = k.
Proof.
  intros Hk.
  destruct (decide (k ∈ param_name <$> l)) as [Hin|Hout].
  - apply list_elem_of_fmap in Hin as (v & -> & Hv). by exists v.
  - rewrite bound_envs_other in Hk.
    + rewrite lookup_empty in Hk. by destruct Hk.
    + intros w Hw <-. apply Hout. by apply list_elem_of_fmap_2.
Qed.

(** X15: for a job that [JobParams] has built, an assembled request binds
    in its environment exactly the names of the job's parameters: an
    environment parameter to its value, a file parameter to the mount root
    joined with its mount path; and every file parameter of the job has a
    mount path. *)
Theorem X15_environment_of_assembled_request
    (h : hash_order) (e : pyset EnvParam) (i ri o ro : pyset FileParam)
    (job : JobParams) (res : ResourcesConfig) (actions : list Action)
    (timeout : pystr) (doc : RequestDocument) :
  new_JobParams h e i ri o ro = Ok job ->
  create_pipeline_request h res job actions timeout = Ok doc ->
  (forall v, v ∈ job_members job ->
     pl_environment (pipeline doc) !! param_name v = Some (binding v).2) /\
  (forall k, is_Some (pl_environment (pipeline doc) !! k) ->
     exists v, v ∈ job_members job /\ param_name v = k) /\
  (forall f, f ∈ job_files job -> has_mount_path f).
Proof.
  intros Hjob Hdoc.
  assert (_check_for_collisions h (values job) = Ok tt) as Hc.
  { apply new_JobParams_ok in Hjob as [Hc ->]. exact Hc. }
  unfold create_pipeline_request in Hdoc.
  destruct (merge_envs h job) as [envs|?] eqn:Em; [|done].
  change (Ok ?x ≫= ?k) with (k x) in Hdoc. cbv beta in Hdoc.
  destruct (actions_to_dicts h actions) as [acts|?]; [|done].
  injection Hdoc as <-. simpl.
  pose proof (merge_envs_paths _ _ _ Em) as Hpaths.
  rewrite (merge_envs_ok h job Hpaths) in Em. injection Em as <-.
  pose proof (proj1 (check_for_collisions_iff h (values job)) Hc) as Hns.
  split_and!.
  - intros v Hv. rewrite <- (visit_order_members h job) in Hv.
    apply list_elem_of_split in Hv as (before & after & Hsplit).
    rewrite Hsplit. apply bound_envs_last, (not_shared_split before).
    rewrite <- Hsplit. apply Hns.
  - intros k Hk. apply bound_envs_dom in Hk as (v & Hv & <-).
    exists v. split; [|done]. by rewrite <- (visit_order_members h job).
  - exact Hpaths.
Qed.

Lemma X15_environment_of_assembled_request_witness :
  let f := {| fp_name := str "F1"; fp_value := Some (str "gs://b/x");
              fp_docker_path := Some (str "gs/b/x");
              fp_uri := Some {| uri_path := str "gs://b/";
                                uri_basename := str "x" |};
              fp_recursive := false |} in
  let a := {| env_name := str "A"; env_value := Some (str "hello") |} in
  let res := new_ResourcesConfig (str "dros-helper") (str "us-west1")
               DEFAULT_MACHINE_TYPE DEFAULT_DISK_SIZE None
               (ScopeStr DEFAULT_SCOPE) in
  exists job doc,
    new_JobParams insertion_order [a] [f] [] [] [] = Ok job /\
    create_pipeline_request insertion_order res job [] SEVEN_DAYS = Ok doc /\
    (forall v, v ∈ job_members job ->
       pl_environment (pipeline doc) !! param_name v = Some (binding v).2) /\
    (forall k, is_Some (pl_environment (pipeline doc) !! k) ->
       exists v, v ∈ job_members job /\ param_name v = k) /\
    (forall f, f ∈ job_files job -> has_mount_path f).
Proof.
  cbv zeta. eexists _, _.
  split; [vm_compute; reflexivity|].
  split; [vm_compute; reflexivity|].
  eapply (X15_environment_of_assembled_request insertion_order
            [ {| env_name := str "A"; env_value := Some (str "hello") |} ]
            [ {| fp_name := str "F1"; fp_value := Some (str "gs://b/x");
                 fp_docker_path := Some (str "gs/b/x");
                 fp_uri := Some {| uri_path := str "gs://b/";
                                   uri_basename := str "x" |};
                 fp_recursive := false |} ] [] [] [] _
            (new_ResourcesConfig (str "dros-helper") (str "us-west1")
               DEFAULT_MACHINE_TYPE DEFAULT_DISK_SIZE None
               (ScopeStr DEFAULT_SCOPE)) [] SEVEN_DAYS).
  - vm_compute. reflexivity.
  - vm_compute. reflexivity.
Defined.

(** ** Failures of the assembler and the staging scripts *)

Lemma for_each_raise {A S} (P : exn -> Prop) (body : S -> A -> result S) :
  (forall s a e, body s a = Raise e -> P e) ->
  forall l s e, for_each body l s = Raise e -> P e.
Proof.
  intros Hbody l. induction l as [|a l IH]; intros s e; [done|].
  rewrite for_each_cons. destruct (body s a) as [s'|e'] eqn:Eb.
  - apply IH.
  - intros [= <-]. by apply Hbody in Eb.
Qed.

Lemma unset_in_list (l : list FileParam) :
  ~ Forall has_mount_path l -> exists f, f ∈ l /\ fp_docker_path f = None.
Proof.
  intros H. apply not_Forall_Exists in H; [|apply _].
  apply Exists_exists in H as (f & Hf & Hnone). exists f. split; [done|].
  unfold has_mount_path in Hnone. simpl in Hnone.
  destruct (fp_docker_path f) as [d|]; [|done].
  destruct Hnone. by exists d.
Qed.

Lemma make_commands_raise (h : hash_order) (a : Action) (e : exn) :
  make_commands h a = Raise e ->
  e = TypeError /\
  exists f, f ∈ job_files (action_config a) /\ fp_docker_path f = None.
Proof.
  destruct a as [config|config|config aname image command];
    unfold make_commands; [| |done].
  - pose proof (for_each_localize_cmd (str "cp")
                  (iter_file h (inputs config)) []) as A1.
    destruct (for_each _ (iter_file h (inputs config)) []) as [r1|e1] eqn:E1.
    + change (Ok ?x ≫= ?k) with (k x). cbv beta.
      pose proof (for_each_localize_cmd (str "rsync -r")
                    (iter_file h (recursive_inputs config)) r1) as B1.
      destruct (for_each _ (iter_file h (recursive_inputs config)) r1)
        as [r2|e2] eqn:E2; [done|].
      intros [= <-]. split.
      * apply (for_each_raise (fun e => e = TypeError)) in E2; [done|].
        intros s f e. rewrite localize_cmd_unfold.
        by destruct (fp_docker_path f); [|intros [= <-]].
      * apply unset_in_list in B1 as (f & Hf & Hnone).
        exists f. split; [|done]. rewrite iter_file_perm in Hf.
        unfold job_files. simpl. rewrite !elem_of_app. tauto.
    + intros [= <-]. split.
      * apply (for_each_raise (fun e => e = TypeError)) in E1; [done|].
        intros s f e. rewrite localize_cmd_unfold.
        by destruct (fp_docker_path f); [|intros [= <-]].
      * apply unset_in_list in A1 as (f & Hf & Hnone).
        exists f. split; [|done]. rewrite iter_file_perm in Hf.
        unfold job_files. simpl. rewrite !elem_of_app. tauto.
  - pose proof (for_each_delocalize_cmd (str "cp")
                  (iter_file h (outputs config)) []) as A1.
    destruct (for_each _ (iter_file h (outputs config)) []) as [r1|e1] eqn:E1.
    + change (Ok ?x ≫= ?k) with (k x). cbv beta.
      pose proof (for_each_delocalize_cmd (str "rsync -r")
                    (iter_file h (recursive_outputs config)) r1) as B1.
      destruct (for_each _ (iter_file h (recursive_outputs config)) r1)
        as [r2|e2] eqn:E2; [done|].
      intros [= <-]. split.
      * apply (for_each_raise (fun e => e = TypeError)) in E2; [done|].
        intros s f e. rewrite delocalize_cmd_unfold.
        by destruct (fp_docker_path f); [|intros [= <-]].
      * apply unset_in_list in B1 as (f & Hf & Hnone).
        exists f. split; [|done]. rewrite iter_file_perm in Hf.
        unfold job_files. simpl. rewrite !elem_of_app. tauto.
    + intros [= <-]. split.
      * apply (for_each_raise (fun e => e = TypeError)) in E1; [done|].
        intros s f e. rewrite delocalize_cmd_unfold.
        by destruct (fp_docker_path f); [|intros [= <-]].
      * apply unset_in_list in A1 as (f & Hf & Hnone).
        exists f. split; [|done]. rewrite iter_file_perm in Hf.
        unfold job_files. simpl. rewrite !elem_of_app. tauto.
Qed.

Lemma actions_to_dicts_raise (h : hash_order) (actions : list Action) (e : exn) :
  actions_to_dicts h actions = Raise e ->
  e = TypeError /\
  exists a f, a ∈ actions /\ f ∈ job_files (action_config a) /\
              fp_docker_path f = None.
Proof.
  induction actions as [|a actions IH]; simpl; [done|].
  unfold to_dict at 1.
  destruct (make_commands h a) as [cmds|e1] eqn:Ec.
  - change (Ok ?x ≫= ?k) with (k x). cbv beta.
    change (Ok ?x ≫= ?k) with (k x). cbv beta.
    destruct (actions_to_dicts h actions) as [ds|e2]; [done|].
    intros [= <-]. destruct (IH eq_refl) as (-> & a' & f & Ha & Hf & Hn).
    split; [done|]. exists a', f. split_and!; [by right | done..].
  - intros [= <-]. apply make_commands_raise in Ec as (-> & f & Hf & Hn).
    split; [done|]. exists a, f. split_and!; [by left | done..].
Qed.

(** X16: [create_pipeline_request] fails only with [TypeError], and only
    when a file parameter of the job, or of the job of one of the actions,
    has no mount path. *)
Theorem X16_assembly_fails_only_on_unset_parameters
    (h : hash_order) (res : ResourcesConfig) (job : JobParams)
    (actions : list Action) (timeout : pystr) (e : exn) :
  create_pipeline_request h res job actions timeout = Raise e ->
  e = TypeError /\
  exists f, fp_docker_path f = None /\
    (f ∈ job_files job \/
     exists a, a ∈ actions /\ f ∈ job_files (action_config a)).
Proof.
  unfold create_pipeline_request.
  destruct (merge_envs h job) as [envs|e1] eqn:Em.
  - change (Ok ?x ≫= ?k) with (k x). cbv beta.
    destruct (actions_to_dicts h actions) as [acts|e2] eqn:Ea; [done|].
    intros [= <-].
    apply actions_to_dicts_raise in Ea as (-> & a & f & Ha & Hf & Hn).
    split; [done|]. exists f. split; [done|]. right. by exists a.
  - intros [= <-]. rewrite merge_envs_visit in Em. split.
    + apply (for_each_raise (fun e => e = TypeError)) in Em; [done|].
      intros s v e. apply bind_env_raise.
    + destruct (decide (Forall has_mount_path (job_files job))) as [Hall|Hnot].
      * rewrite <- merge_envs_visit, merge_envs_ok in Em; [done|].
        rewrite Forall_forall in Hall. exact Hall.
      * apply unset_in_list in Hnot as (f & Hf & Hn).
        exists f. split; [done | by left].
Qed.

Lemma X16_assembly_fails_only_on_unset_parameters_witness :
  let f := {| fp_name := str "F1"; fp_value := None; fp_docker_path := None;
              fp_uri := None; fp_recursive := false |} in
  let job := {| envs := []; inputs := [f]; recursive_inputs := [];
                outputs := []; recursive_outputs := [] |} in
  let res := new_ResourcesConfig (str "dros-helper") (str "us-west1")
               DEFAULT_MACHINE_TYPE DEFAULT_DISK_SIZE None
               (ScopeStr DEFAULT_SCOPE) in
  TypeError = TypeError /\
  exists f, fp_docker_path f = None /\
    (f ∈ job_files job \/
     exists a, a ∈ @nil Action /\ f ∈ job_files (action_config a)).
Proof.
  cbv zeta.
  apply (X16_assembly_fails_only_on_unset_parameters insertion_order
           (new_ResourcesConfig (str "dros-helper") (str "us-west1")
              DEFAULT_MACHINE_TYPE DEFAULT_DISK_SIZE None
              (ScopeStr DEFAULT_SCOPE))
           _ [] SEVEN_DAYS TypeError).
  reflexivity.
Defined.

Lemma localize_cmd_raise (verb : pystr) (l : list FileParam) (acc : list pystr)
    (e : exn) :
  for_each (localize_cmd verb) l acc = Raise e -> e = TypeError.
Proof.
  apply (for_each_raise (fun e => e = TypeError)).
  intros s f e'. rewrite localize_cmd_unfold.
  by destruct (fp_docker_path f); [|intros [= <-]].
Qed.

Lemma delocalize_cmd_raise (verb : pystr) (l : list FileParam)
    (acc : list pystr) (e : exn) :
  for_each (delocalize_cmd verb) l acc = Raise e -> e = TypeError.
Proof.
  apply (for_each_raise (fun e => e = TypeError)).
  intros s f e'. rewrite delocalize_cmd_unfold.
  by destruct (fp_docker_path f); [|intros [= <-]].
Qed.

(** X17: the stage-in action copies every input and synchronises every
    recursive input, and nothing else: when all of them have a mount path
    its script holds, after the preamble, one [cp] line per input, from the
    raw value to the mount root joined with the mount path, followed by one
    [rsync -r] line per recursive input, in the order of iteration;
    otherwise the action raises [TypeError].  The outputs play no part. *)
Theorem X17_stage_in_script (h : hash_order) (config : JobParams) :
  (Forall has_mount_path (inputs config ++ recursive_inputs config) ->
   make_commands h (LocalizeAction config)
   = Ok (script_commands
           ((localize_line (str "cp") <$> iter_file h (inputs config))
            ++ (localize_line (str "rsync -r")
                  <$> iter_file h (recursive_inputs config))))) /\
  (~ Forall has_mount_path (inputs config ++ recursive_inputs config) ->
   make_commands h (LocalizeAction config) = Raise TypeError).
Proof.
  unfold make_commands.
  pose proof (for_each_localize_cmd (str "cp")
                (iter_file h (inputs config)) []) as A.
  destruct (for_each _ (iter_file h (inputs config)) []) as [r1|e1] eqn:E1.
  - destruct A as [A ->]. change (Ok ?x ≫= ?k) with (k x). cbv beta.
    pose proof (for_each_localize_cmd (str "rsync -r")
                  (iter_file h (recursive_inputs config))
                  ([] ++ (localize_line (str "cp")
                            <$> iter_file h (inputs config)))) as B.
    destruct (for_each _ (iter_file h (recursive_inputs config)) _)
      as [r2|e2] eqn:E2.
    + destruct B as [B ->]. split; [done|]. intros Hnot. destruct Hnot.
      apply Forall_app. by rewrite iter_file_perm in A, B.
    + apply localize_cmd_raise in E2 as ->. split; [|done].
      intros [_ H]%Forall_app. destruct B. by rewrite iter_file_perm.
  - apply localize_cmd_raise in E1 as ->. split; [|done].
    intros [H _]%Forall_app. destruct A. by rewrite iter_file_perm.
Qed.

(** X18: the stage-out action mirrors the stage-in action on the outputs:
    one [cp] line per output, from the mount root joined with the mount
    path to the raw value, followed by one [rsync -r] line per recursive
    output, when all of them have a mount path, and [TypeError]
    otherwise. *)
Theorem X18_stage_out_script (h : hash_order) (config : JobParams) :
  (Forall has_mount_path (outputs config ++ recursive_outputs config) ->
   make_commands h (DelocalizeAction config)
   = Ok (script_commands
           ((delocalize_line (str "cp") <$> iter_file h (outputs config))
            ++ (delocalize_line (str "rsync -r")
                  <$> iter_file h (recursive_outputs config))))) /\
  (~ Forall has_mount_path (outputs config ++ recursive_outputs config) ->
   make_commands h (DelocalizeAction config) = Raise TypeError).
Proof.
  unfold make_commands.
  pose proof (for_each_delocalize_cmd (str "cp")
                (iter_file h (outputs config)) []) as A.
  destruct (for_each _ (iter_file h (outputs config)) []) as [r1|e1] eqn:E1.
  - destruct A as [A ->]. change (Ok ?x ≫= ?k) with (k x). cbv beta.
    pose proof (for_each_delocalize_cmd (str "rsync -r")
                  (iter_file h (recursive_outputs config))
                  ([] ++ (delocalize_line (str "cp")
                            <$> iter_file h (outputs config)))) as B.
    destruct (for_each _ (iter_file h (recursive_outputs config)) _)
      as [r2|e2] eqn:E2.
    + destruct B as [B ->]. split; [done|]. intros Hnot. destruct Hnot.
      apply Forall_app. by rewrite iter_file_perm in A, B.
    + apply delocalize_cmd_raise in E2 as ->. split; [|done].
      intros [_ H]%Forall_app. destruct B. by rewrite iter_file_perm.
  - apply delocalize_cmd_raise in E1 as ->. split; [|done].
    intros [H _]%Forall_app. destruct A. by rewrite iter_file_perm.
Qed.

(** ** More on the local rewriter *)

Lemma split_parts (p : pystr) :
  posixpath.split p = (posixpath.dirname p, posixpath.basename p).
Proof. reflexivity. Qed.

Lemma basename_of_basename (p : pystr) :
  posixpath.basename (posixpath.basename p) = posixpath.basename p.
Proof.
  unfold posixpath.basename at 1. fold (posixpath.basename p).
  pose proof (rfind1_drop SEP p) as H. fold (posixpath.basename p) in H.
  by rewrite H, drop_0.
Qed.

Lemma basename_after_directory (dir p : pystr) :
  posixpath.basename (directory_fmt dir ++ posixpath.basename p)
  = posixpath.basename p.
Proof.
  rewrite basename_after_slash; [apply basename_of_basename|].
  unfold directory_fmt. rewrite rfind1_snoc, length_app. simpl. lia.
Qed.

Lemma join2_directory_basename (dir p : pystr) :
  posixpath.join2 (directory_fmt dir) (posixpath.basename p)
  = directory_fmt dir ++ posixpath.basename p.
Proof.
  unfold posixpath.join2.
  assert (startswith (posixpath.basename p) [SEP] = false) as ->.
  { pose proof (basename_no_sep p) as Hno.
    destruct (posixpath.basename p) as [|c t]; [done|].
    apply not_elem_of_cons in Hno as [Hne _].
    transitivity (Ascii.eqb SEP c && startswith t []); [reflexivity|].
    destruct (Ascii.eqb_spec SEP c) as [E|?]; [by destruct Hne | done]. }
  unfold directory_fmt at 2. rewrite endswith_snoc.
  by rewrite orb_true_r.
Qed.

(** X19: the local rewriter does not rewrite the file name: the last
    segment of the normalised path and of the mount path is the last
    segment of the raw path, and both are a directory, ending in a slash,
    followed by it. *)
Theorem X19_local_rewriter_keeps_file_name
    (home : option pystr) (cwd raw_uri normed docker_path : pystr) :
  _local_uri_rewriter home cwd raw_uri = Ok (normed, docker_path) ->
  posixpath.basename normed = posixpath.basename raw_uri /\
  posixpath.basename docker_path = posixpath.basename raw_uri /\
  (exists dir, normed = directory_fmt dir ++ posixpath.basename raw_uri) /\
  (exists dir, docker_path = directory_fmt dir ++ posixpath.basename raw_uri).
Proof.
  unfold _local_uri_rewriter. rewrite split_parts.
  destruct (replace_prefixes _ (posixpath.dirname raw_uri)) as [p|?]; [|done].
  change (Ok ?x ≫= ?k) with (k x). cbv beta zeta.
  intros [= <- <-]. rewrite join2_directory_basename.
  rewrite !basename_after_directory. split_and!; [done.. | |]; by eexists.
Qed.

Lemma X19_local_rewriter_keeps_file_name_witness :
  posixpath.basename (str "/tmp/B_PATH/file.txt")
  = posixpath.basename (str "/tmp/a_path/../B_PATH/file.txt") /\
  posixpath.basename (str "file/tmp/B_PATH/file.txt")
  = posixpath.basename (str "/tmp/a_path/../B_PATH/file.txt") /\
  (exists dir,
     str "/tmp/B_PATH/file.txt"
     = directory_fmt dir
       ++ posixpath.basename (str "/tmp/a_path/../B_PATH/file.txt")) /\
  (exists dir,
     str "file/tmp/B_PATH/file.txt"
     = directory_fmt dir
       ++ posixpath.basename (str "/tmp/a_path/../B_PATH/file.txt")).
Proof.
  apply (X19_local_rewriter_keeps_file_name (Some (str "/home/user"))
           (str "/work") (str "/tmp/a_path/../B_PATH/file.txt")).
  reflexivity.
Defined.

Lemma replace_prefixes_total (reps : list (pystr * option pystr)) (p : pystr) :
  Forall (fun rep => is_Some rep.2) reps ->
  exists q, replace_prefixes reps p = Ok q.
Proof.
  intros Hall. revert p.
  induction Hall as [|[prefix replacement] reps [r Hr] _ IH]; intros p; simpl.
  - by exists p.
  - simpl in Hr. subst replacement.
    destruct (startswith p prefix); [|apply IH].
    change (Ok ?x ≫= ?k) with (k x). cbv beta. apply IH.
Qed.

Lemma join2_root (x : pystr) :
  startswith (posixpath.join2 (str "/") x) (str "~/") = false.
Proof.
  unfold posixpath.join2. destruct (startswith x [SEP]) eqn:E.
  - apply startswith_inv in E. by rewrite E.
  - done.
Qed.

Lemma replace_prefixes_local (home : option pystr) (p : pystr) (e : exn) :
  replace_prefixes
    [(str "file:///", Some (str "/")); (str "~/", home);
     (str "./", Some []); (str "file:/", Some (str "/"))] p = Raise e <->
  home = None /\ startswith p (str "~/") = true /\ e = TypeError.
Proof.
  assert (forall q,
            exists q', replace_prefixes
                         [(str "./", Some []); (str "file:/", Some (str "/"))] q
                       = Ok q') as Htail.
  { intros q. apply replace_prefixes_total.
    repeat constructor; by eexists. }
  assert (forall q,
            replace_prefixes
              [(str "~/", home); (str "./", Some []);
               (str "file:/", Some (str "/"))] q = Raise e <->
            home = None /\ startswith q (str "~/") = true /\ e = TypeError)
    as Hhome.
  { intros q.
    change (replace_prefixes ((str "~/", home) :: ?reps) q)
      with (if startswith q (str "~/")
            then p' ← posixpath.join home (Some (drop 2 q));
                 replace_prefixes reps p'
            else replace_prefixes reps q).
    destruct (startswith q (str "~/")).
    - destruct home as [hm|].
      + change (posixpath.join (Some hm) (Some (drop 2 q)))
          with (Ok (posixpath.join2 hm (drop 2 q))).
        change (Ok ?x ≫= ?k) with (k x). cbv beta.
        destruct (Htail (posixpath.join2 hm (drop 2 q))) as [q' ->].
        split; [done | by intros [? _]].
      + change (posixpath.join None (Some (drop 2 q)) ≫= ?k)
          with (@Raise pystr TypeError).
        split; [by intros [= <-] | by intros (_ & _ & ->)].
    - destruct (Htail q) as [q' ->]. split; [done | by intros (_ & ? & _)]. }
  change (replace_prefixes ((str "file:///", Some (str "/")) :: ?reps) p)
    with (if startswith p (str "file:///")
          then p' ← posixpath.join (Some (str "/")) (Some (drop 8 p));
               replace_prefixes reps p'
          else replace_prefixes reps p).
  destruct (startswith p (str "file:///")) eqn:E; [|apply Hhome].
  change (posixpath.join (Some (str "/")) (Some (drop 8 p)))
    with (Ok (posixpath.join2 (str "/") (drop 8 p))).
  change (Ok ?x ≫= ?k) with (k x). cbv beta.
  rewrite Hhome, join2_root.
  apply startswith_inv in E. rewrite E. simpl.
  split; intros (_ & ? & _); done.
Qed.

(** X20: the local rewriter fails in one case only: the directory part of
    the raw path starts with [~/] and [HOME] is not set; the error is then
    the [TypeError] of the join with the absent home directory.  With
    [HOME] set it returns for every path. *)
Theorem X20_local_rewriter_fails_only_without_home
    (home : option pystr) (cwd raw_uri : pystr) (e : exn) :
  _local_uri_rewriter home cwd raw_uri = Raise e <->
  home = None /\
  startswith (posixpath.dirname raw_uri) (str "~/") = true /\
  e = TypeError.
Proof.
  rewrite <- replace_prefixes_local.
  unfold _local_uri_rewriter. rewrite split_parts.
  destruct (replace_prefixes _ (posixpath.dirname raw_uri)) as [p|e'].
  - change (Ok ?x ≫= ?k) with (k x). cbv beta zeta. by split.
  - change (Raise e' ≫= ?k) with (@Raise (pystr * pystr) e').
    split; by intros [= ->].
Qed.

(** ** The job parameters and the order of iteration *)

(** X21: whether [args_to_job_params] returns a job, and which job it
    returns, does not depend on the order in which the sets are iterated;
    a run that fails in one order fails in every order. *)
Theorem X21_job_parameters_do_not_depend_on_iteration_order
    (h1 h2 : hash_order)
    (env_args in_args rin_args out_args rout_args : list pystr) :
  (forall job,
     args_to_job_params h1 env_args in_args rin_args out_args rout_args
     = Ok job <->
     args_to_job_params h2 env_args in_args rin_args out_args rout_args
     = Ok job) /\
  ((exists e1,
      args_to_job_params h1 env_args in_args rin_args out_args rout_args
      = Raise e1) <->
   (exists e2,
      args_to_job_params h2 env_args in_args rin_args out_args rout_args
      = Raise e2)).
Proof.
  assert (forall ha hb job,
            args_to_job_params ha env_args in_args rin_args out_args rout_args
            = Ok job ->
            args_to_job_params hb env_args in_args rin_args out_args rout_args
            = Ok job) as Hany.
  { intros ha hb job. apply args_to_job_params_any_order. }
  split.
  - intros job. split; apply Hany.
  - split; intros [e He].
    + destruct (args_to_job_params h2 _ _ _ _ _) as [job|e2] eqn:E2;
        [|by exists e2].
      apply (Hany h2 h1) in E2. congruence.
    + destruct (args_to_job_params h1 _ _ _ _ _) as [job|e1] eqn:E1;
        [|by exists e1].
      apply (Hany h1 h2) in E1. congruence.
Qed.

(** ** Traversal tokens in the local mount path *)

Lemma contains_unfold (sub s : pystr) :
  contains sub s =
  startswith s sub || match s with
                      | [] => false
                      | _ :: s' => contains sub s'
                      end.
Proof. by destruct s. Qed.

Lemma contains_cons (sub : pystr) (c : ascii) (s : pystr) :
  contains sub (c :: s) = startswith (c :: s) sub || contains sub s.
Proof. reflexivity. Qed.

Lemma contains_suffix (sub a b : pystr) :
  contains sub (a ++ b) = false -> contains sub b = false.
Proof.
  induction a as [|x a IH]; [done|].
  rewrite <- app_comm_cons, contains_cons.
  intros [_ H]%orb_false_iff. by apply IH.
Qed.

Lemma contains_prefix (sub a b : pystr) :
  contains sub (a ++ b) = false -> contains sub a = false.
Proof.
  induction a as [|x a IH].
  - simpl. rewrite (contains_unfold sub b). intros [H _]%orb_false_iff.
    destruct sub; [by rewrite startswith_nil in H | done].
  - rewrite <- app_comm_cons, !contains_cons.
    intros [H1 H2]%orb_false_iff. rewrite (IH H2), orb_false_r.
    destruct (startswith (x :: a) sub) eqn:E; [|done].
    pose proof (startswith_app_l _ b _ E) as H.
    change ((x :: a) ++ b) with (x :: a ++ b) in H. congruence.
Qed.

Lemma sub_dotdot_cons (c : ascii) (s : pystr) :
  sub_literal (str "/..") (str "/_dotdot_") (c :: s) =
  if startswith (c :: s) (str "/..")
  then str "/_dotdot_" ++ sub_literal (str "/..") (str "/_dotdot_") (drop 2 s)
  else c :: sub_literal (str "/..") (str "/_dotdot_") s.
Proof.
  unfold sub_literal.
  change (sub_literal_from 0 (str "/..") (str "/_dotdot_") (c :: s))
    with (if startswith (c :: s) (str "/..")
          then str "/_dotdot_"
               ++ sub_literal_from 2 (str "/..") (str "/_dotdot_") s
          else c :: sub_literal_from 0 (str "/..") (str "/_dotdot_") s).
  destruct (startswith (c :: s) (str "/..")) eqn:E; [|done].
  apply startswith_inv in E. injection E as -> ->. reflexivity.
Qed.

Lemma startswith_cons (c : ascii) (s : pystr) (d : ascii) (p : pystr) :
  startswith (c :: s) (d :: p) = Ascii.eqb d c && startswith s p.
Proof. reflexivity. Qed.

Lemma sub_dotdot_head (s : pystr) :
  startswith (sub_literal (str "/..") (str "/_dotdot_") s) (str ".") = true ->
  startswith s (str ".") = true.
Proof.
  destruct s as [|c s]; [done|]. rewrite sub_dotdot_cons.
  destruct (startswith (c :: s) (str "/..")); [done|].
  change (str ".") with ["."%char]. rewrite !startswith_cons.
  by rewrite !startswith_nil.
Qed.

Lemma sub_dotdot_head2 (s : pystr) :
  startswith (sub_literal (str "/..") (str "/_dotdot_") s) (str "..") = true ->
  startswith s (str "..") = true.
Proof.
  destruct s as [|c s]; [done|]. rewrite sub_dotdot_cons.
  destruct (startswith (c :: s) (str "/..")); [done|].
  change (str "..") with ("."%char :: str "."). rewrite !startswith_cons.
  intros [Hc Hs]%andb_true_iff. rewrite Hc.
  by apply sub_dotdot_head in Hs.
Qed.

Lemma sub_dotdot_no_traversal_upto (n : nat) (s : pystr) :
  length s <= n ->
  contains (str "/..") (sub_literal (str "/..") (str "/_dotdot_") s) = false.
Proof.
  revert s. induction n as [|n IH]; intros s Hlen.
  - destruct s; [done | simpl in Hlen; lia].
  - destruct s as [|c s]; [done|]. simpl in Hlen.
    rewrite sub_dotdot_cons.
    destruct (startswith (c :: s) (str "/..")) eqn:E.
    + transitivity
        (contains (str "/..")
           (sub_literal (str "/..") (str "/_dotdot_") (drop 2 s)));
        [reflexivity|].
      apply IH. rewrite length_drop. lia.
    + rewrite contains_cons, IH by lia. rewrite orb_false_r.
      destruct (startswith (c :: sub_literal _ _ s) (str "/..")) eqn:E'; [|done].
      exfalso. change (str "/..") with ("/"%char :: str "..") in E, E'.
      rewrite startswith_cons in E, E'.
      apply andb_true_iff in E' as [Hc Hrest]. rewrite Hc in E.
      apply sub_dotdot_head2 in Hrest. rewrite Hrest in E. discriminate E.
Qed.

Lemma sub_dotdot_no_traversal (s : pystr) :
  contains (str "/..") (sub_literal (str "/..") (str "/_dotdot_") s) = false.
Proof. by apply (sub_dotdot_no_traversal_upto (length s)). Qed.

Lemma contains_skip (c : ascii) (t : pystr) :
  Ascii.eqb "/" c = false ->
  contains (str "/..") (c :: t) = contains (str "/..") t.
Proof.
  intros Hc. rewrite contains_cons.
  change (str "/..") with ("/"%char :: str ".."). by rewrite startswith_cons, Hc.
Qed.

Lemma contains_drop (sub s : pystr) (k : nat) :
  contains sub s = false -> contains sub (drop k s) = false.
Proof.
  intros H. apply (contains_suffix sub (take k s)). by rewrite take_drop.
Qed.

Lemma startswith_dots_snoc (a : pystr) :
  startswith a (str "..") = false ->
  startswith (a ++ [SEP]) (str "..") = false.
Proof.
  change (str "..") with ["."%char; "."%char].
  destruct a as [|y [|z a]]; simpl app.
  - done.
  - intros _. rewrite !startswith_cons. by rewrite andb_false_r.
  - by rewrite !startswith_cons, !startswith_nil.
Qed.

Lemma no_traversal_snoc (a : pystr) :
  contains (str "/..") a = false ->
  contains (str "/..") (a ++ [SEP]) = false.
Proof.
  induction a as [|x a IH]; [done|].
  rewrite <- app_comm_cons, !contains_cons.
  intros [H1 H2]%orb_false_iff. rewrite (IH H2), orb_false_r.
  change (str "/..") with ("/"%char :: str "..") in *.
  rewrite startswith_cons in *.
  destruct (Ascii.eqb "/" x); [|done].
  by apply startswith_dots_snoc.
Qed.

Lemma no_traversal_directory_fmt (s : pystr) :
  contains (str "/..") s = false ->
  contains (str "/..") (directory_fmt s) = false.
Proof.
  intros H. unfold directory_fmt. apply no_traversal_snoc.
  destruct (rstrip_prefix [SEP] s) as [t Ht]. rewrite Ht in H.
  by apply contains_prefix in H.
Qed.

Lemma no_traversal_rewrites (s : pystr) :
  contains (str "/..") s = false ->
  contains (str "/..")
    (str "file/"
     ++ lstrip (str "./")
          (sub_prefix (str "file:/") []
             (sub_prefix (str "~/") (str "_home_/")
                (sub_prefix (str "..") (str "_dotdot_") s)))) = false.
Proof.
  intros H0.
  assert (contains (str "/..") (sub_prefix (str "..") (str "_dotdot_") s)
          = false) as H1.
  { unfold sub_prefix. destruct (startswith s (str "..")); [|done].
    change (str "_dotdot_" ++ ?t)
      with ("_"%char :: "d"%char :: "o"%char :: "t"%char :: "d"%char
            :: "o"%char :: "t"%char :: "_"%char :: t).
    rewrite !contains_skip by reflexivity. by apply contains_drop. }
  set (s1 := sub_prefix (str "..") (str "_dotdot_") s) in *.
  assert (contains (str "/..") (sub_prefix (str "~/") (str "_home_/") s1)
          = false) as H2.
  { unfold sub_prefix. destruct (startswith s1 (str "~/")) eqn:E; [|done].
    change (str "_home_/" ++ ?t)
      with ("_"%char :: "h"%char :: "o"%char :: "m"%char :: "e"%char
            :: "_"%char :: "/"%char :: t).
    rewrite !contains_skip by reflexivity.
    apply startswith_inv in E. rewrite E in H1.
    by apply (contains_suffix _ ["~"%char]) in H1. }
  set (s2 := sub_prefix (str "~/") (str "_home_/") s1) in *.
  assert (contains (str "/..") (sub_prefix (str "file:/") [] s2) = false) as H3.
  { unfold sub_prefix. destruct (startswith s2 (str "file:/")); [|done].
    by apply contains_drop. }
  set (s3 := sub_prefix (str "file:/") [] s2) in *.
  destruct (lstrip_suffix (str "./") s3) as [pre Hpre].
  rewrite Hpre in H3. apply contains_suffix in H3.
  change (str "file/" ++ ?t)
    with ("f"%char :: "i"%char :: "l"%char :: "e"%char :: "/"%char :: t).
  rewrite !contains_skip by reflexivity.
  rewrite contains_cons, H3, orb_false_r.
  change (str "/..") with ("/"%char :: "."%char :: str ".").
  rewrite startswith_cons.
  destruct (lstrip (str "./") s3) as [|x t] eqn:El; [done|].
  apply lstrip_head in El. unfold ascii_in in El. simpl in El.
  apply orb_false_iff in El as [Hx _].
  rewrite startswith_cons, (Ascii.eqb_sym "." x), Hx. done.
Qed.

Lemma split_all_segments (s w : pystr) (ws : list pystr) :
  split_all SEP s = w :: ws ->
  (exists r, s = w ++ r) /\
  (str ".." ∈ ws -> contains (str "/..") s = true).
Proof.
  revert w ws. induction s as [|c s IH]; intros w ws.
  - intros [= <- <-]. split; [by exists [] | by intros ?%elem_of_nil].
  - rewrite split_all_cons, contains_cons.
    destruct (Ascii.eqb_spec c SEP) as [->|Hne].
    + intros [= <- <-]. split; [by eexists|].
      destruct (split_all SEP s) as [|w' ws'] eqn:Es;
        [by intros ?%elem_of_nil|].
      destruct (IH w' ws' eq_refl) as [[r Hr] Htail].
      intros [<-|Hin]%elem_of_cons.
      * rewrite Hr at 1. change (SEP :: str ".." ++ r) with (str "/.." ++ r).
        by rewrite startswith_app.
      * by rewrite (Htail Hin), orb_true_r.
    + destruct (split_all SEP s) as [|w' ws'] eqn:Es.
      * intros [= <- <-]. split; [by eexists | by intros ?%elem_of_nil].
      * intros [= <- <-]. destruct (IH w' ws' eq_refl) as [[r Hr] Htail].
        split; [exists r; by rewrite Hr|].
        intros Hin. by rewrite (Htail Hin), orb_true_r.
Qed.

Lemma no_dotdot_segment (dir : pystr) :
  startswith dir (str "file/") = true ->
  contains (str "/..") dir = false ->
  str ".." ∉ split_all SEP dir.
Proof.
  intros Hfile Hno Hin.
  destruct (split_all SEP dir) as [|w ws] eqn:Es; [by apply elem_of_nil in Hin|].
  destruct (split_all_segments _ _ _ Es) as [[r Hr] Htail].
  apply elem_of_cons in Hin as [<-|Hin].
  - rewrite Hr in Hfile. done.
  - rewrite (Htail Hin) in Hno. done.
Qed.

(** X22: the directory part of a local mount path holds no traversal: the
    mount path is a directory, which starts with [file/], ends in a slash
    and has no [/..] in it, so that none of its segments is [..] (each
    such segment of the raw path has become [_dotdot_]), followed by the
    file name of the raw path. *)
Theorem X22_local_mount_directory_has_no_traversal
    (home : option pystr) (cwd raw_uri normed docker_path : pystr) :
  _local_uri_rewriter home cwd raw_uri = Ok (normed, docker_path) ->
  exists dir,
    docker_path = dir ++ posixpath.basename raw_uri /\
    startswith dir (str "file/") = true /\
    endswith dir (str "/") = true /\
    contains (str "/..") dir = false /\
    str ".." ∉ split_all SEP dir.
Proof.
  unfold _local_uri_rewriter. rewrite split_parts.
  destruct (replace_prefixes _ (posixpath.dirname raw_uri)) as [p|?]; [|done].
  change (Ok ?x ≫= ?k) with (k x). cbv beta zeta.
  intros [= _ <-]. eexists. split; [reflexivity|].
  assert (contains (str "/..")
            (directory_fmt
               (str "file/"
                ++ lstrip (str "./")
                     (sub_prefix (str "file:/") []
                        (sub_prefix (str "~/") (str "_home_/")
                           (sub_prefix (str "..") (str "_dotdot_")
                              (sub_literal (str "/..") (str "/_dotdot_")
                                 (posixpath.normpath
                                    (posixpath.dirname raw_uri))))))))
          = false) as Hno.
  { apply no_traversal_directory_fmt, no_traversal_rewrites,
      sub_dotdot_no_traversal. }
  split_and!.
  - apply directory_fmt_file_prefix.
  - apply endswith_snoc.
  - exact Hno.
  - apply no_dotdot_segment; [apply directory_fmt_file_prefix | exact Hno].
Qed.

Lemma X22_local_mount_directory_has_no_traversal_witness :
  exists dir,
    str "file/_dotdot_/upper_dir/x.txt"
    = dir ++ posixpath.basename (str "./../upper_dir/x.txt") /\
    startswith dir (str "file/") = true /\
    endswith dir (str "/") = true /\
    contains (str "/..") dir = false /\
    str ".." ∉ split_all SEP dir.
Proof.
  apply (X22_local_mount_directory_has_no_traversal (Some (str "/home/user"))
           (str "/work") (str "./../upper_dir/x.txt")
           (str "/upper_dir/x.txt")).
  reflexivity.
Defined.

(** ** Instances *)

Lemma X2_split_pair_cuts_at_first_separator_witness :
  exists a b,
    split_pair (str "F1=a=b") "=" 0 = Ok (Some a, Some b) /\
    str "F1=a=b" = a ++ "="%char :: b /\ "="%char ∉ a.
Proof.
  apply (proj1 (X2_split_pair_cuts_at_first_separator (str "F1=a=b") "=" 0)).
  do 2 right. left.
Defined.

Lemma X17_stage_in_script_witness :
  let f := {| fp_name := str "F1"; fp_value := Some (str "gs://b/x");
              fp_docker_path := Some (str "gs/b/x");
              fp_uri := Some {| uri_path := str "gs://b/";
                                uri_basename := str "x" |};
              fp_recursive := false |} in
  let d := {| fp_name := str "D1"; fp_value := Some (str "gs://b/dir/");
              fp_docker_path := Some (str "gs/b/dir/");
              fp_uri := Some {| uri_path := str "gs://b/dir/";
                                uri_basename := [] |};
              fp_recursive := true |} in
  let config := {| envs := []; inputs := [f]; recursive_inputs := [d];
                   outputs := []; recursive_outputs := [] |} in
  make_commands insertion_order (LocalizeAction config)
  = Ok (script_commands
          [gsutil_cmd (str "cp") (Some (str "gs://b/x"))
                      (Some (str "/mnt/data/gs/b/x"));
           gsutil_cmd (str "rsync -r") (Some (str "gs://b/dir/"))
                      (Some (str "/mnt/data/gs/b/dir/"))]).
Proof.
  cbv zeta.
  apply (proj1 (X17_stage_in_script insertion_order
                  {| envs := [];
                     inputs :=
                       [ {| fp_name := str "F1";
                            fp_value := Some (str "gs://b/x");
                            fp_docker_path := Some (str "gs/b/x");
                            fp_uri := Some {| uri_path := str "gs://b/";
                                              uri_basename := str "x" |};
                            fp_recursive := false |} ];
                     recursive_inputs :=
                       [ {| fp_name := str "D1";
                            fp_value := Some (str "gs://b/dir/");
                            fp_docker_path := Some (str "gs/b/dir/");
                            fp_uri := Some {| uri_path := str "gs://b/dir/";
                                              uri_basename := [] |};
                            fp_recursive := true |} ];
                     outputs := []; recursive_outputs := [] |})).
  repeat constructor; by eexists.
Defined.

Lemma X18_stage_out_script_witness :
  let f := {| fp_name := str "FO1"; fp_value := Some (str "gs://b/out.txt");
              fp_docker_path := Some (str "gs/b/out.txt");
              fp_uri := Some {| uri_path := str "gs://b/";
                                uri_basename := str "out.txt" |};
              fp_recursive := false |} in
  let config := {| envs := []; inputs := []; recursive_inputs := [];
                   outputs := [f]; recursive_outputs := [] |} in
  make_commands insertion_order (DelocalizeAction config)
  = Ok (script_commands
          [gsutil_cmd (str "cp") (Some (str "/mnt/data/gs/b/out.txt"))
                      (Some (str "gs://b/out.txt"))]).
Proof.
  cbv zeta.
  apply (proj1 (X18_stage_out_script insertion_order
                  {| envs := []; inputs := []; recursive_inputs := [];
                     outputs :=
                       [ {| fp_name := str "FO1";
                            fp_value := Some (str "gs://b/out.txt");
                            fp_docker_path := Some (str "gs/b/out.txt");
                            fp_uri := Some {| uri_path := str "gs://b/";
                                              uri_basename := str "out.txt" |};
                            fp_recursive := false |} ];
                     recursive_outputs := [] |})).
  repeat constructor; by eexists.
Defined.
